(** * The WebSocket protocol of [@aqo/websocket-protocol]

    A shallow embedding of [src/websocket-protocol.js]: the frame codec
    ([createMessageFrame] and friends), the streaming parser
    ([onData], [readDataFrameHeader], [readDataFramePayload],
    [onFrameComplete]), the close routine ([dropConnection]), the port
    inference of [createClientConnection], and the opening handshake of
    both sides ([serverUpgradeRequest], the [onConnected] and
    [onServerHandshake] of [createClientConnection], and their helpers).

    Conventions.
    - A Node [Buffer] is a [list Z] of octets; a store into a buffer wraps
      its value to eight bits ([to_uint8]).
    - A JavaScript string is the list of its UTF-16 code units.
    - A JavaScript number that holds a length is a [Z]; where the source
      converts a 64-bit integer to a number, or subtracts two numbers, the
      rounding to the nearest double is written out ([to_double]).
    - The closure variables of [WebSocketConnection] are the fields of the
      record [connection]; every function of the closure takes the
      connection and returns the updated one.
    - The socket and the host are observed through one chronological
      [trace]: calls to [socket.write], [socket.end] and to the installed
      host callbacks. A handler is the host's code: its call is recorded,
      and what it does to the connection is a later event of the
      execution.
    - [new Date()] and [Crypto.randomBytes] are inputs of the functions
      that use them.
    - A header object is the list of its own properties in the order of
      their creation, with strings as values; [Object.keys] puts the array
      indexes first.
    - [toLowerCase], the SHA-1 digest and the base64 decoder are fields of
      a [platform] record that the handshake functions take as an
      argument; what a property needs of them is a hypothesis of it. *)

From Stdlib Require Import ZArith List Bool String Ascii Lia.
From Stdlib Require Import DecimalString Permutation.
Import ListNotations.
Local Open Scope Z_scope.

(** * The program *)

(** ** Buffers *)

Definition Buffer := list Z.

Definition octet (b : Z) : Prop := 0 <= b < 256.

Definition to_uint8 (x : Z) : Z := Z.land x 255.

Definition byteLength (b : Buffer) : Z := Z.of_nat (List.length b).

(** [buffer[i]]: an index out of range reads [undefined], which the
    bitwise operators take as 0. *)
Definition byte_at (b : Buffer) (i : Z) : Z :=
  if i <? 0 then 0 else nth (Z.to_nat i) b 0.

(** [buffer[i] = v]: a store out of range is ignored. *)
Fixpoint store_nat (b : Buffer) (i : nat) (v : Z) : Buffer :=
  match b, i with
  | [], _ => []
  | _ :: rest, O => to_uint8 v :: rest
  | x :: rest, S i' => x :: store_nat rest i' v
  end.

Definition store (b : Buffer) (i : Z) (v : Z) : Buffer :=
  if i <? 0 then b else store_nat b (Z.to_nat i) v.

(** [Buffer.slice(start, end)]: negative indexes count from the end, both
    are clamped to the buffer. *)
Definition clamp_index (len i : Z) : Z :=
  if i <? 0 then Z.max (len + i) 0 else Z.min i len.

Definition slice (b : Buffer) (start stop : Z) : Buffer :=
  let s := clamp_index (byteLength b) start in
  let e := clamp_index (byteLength b) stop in
  firstn (Z.to_nat (e - s)) (skipn (Z.to_nat s) b).

Definition slice_from (b : Buffer) (start : Z) : Buffer :=
  slice b start (byteLength b).

(** [Buffer.allocUnsafe(n)]: the content is unspecified; every byte of the
    header is stored before the header is used. *)
Definition allocUnsafe (n : nat) : Buffer := repeat 0 n.

Definition writeUInt16BE (b : Buffer) (value offset : Z) : Buffer :=
  store (store b offset (Z.shiftr value 8)) (offset + 1) value.

(** The value is a length, below [2 ^ 64]; Node refuses a value that is
    not. *)
Definition writeBigUInt64BE (b : Buffer) (value offset : Z) : Buffer :=
  fold_left
    (fun acc k => store acc (offset + k) (Z.shiftr value (8 * (7 - k))))
    [0; 1; 2; 3; 4; 5; 6; 7] b.

Definition readUInt16BE (b : Buffer) (offset : Z) : Z :=
  byte_at b offset * 256 + byte_at b (offset + 1).

Definition readBigUInt64BE (b : Buffer) (offset : Z) : Z :=
  fold_left (fun acc k => acc * 256 + byte_at b (offset + k))
    [0; 1; 2; 3; 4; 5; 6; 7] 0.

(** ** Numbers *)

(** The largest length a Node buffer can have ([buffer.constants.MAX_LENGTH]
    on 64-bit platforms, [Number.MAX_SAFE_INTEGER]). *)
Definition MAX_LENGTH : Z := 2 ^ 53 - 1.

(** Rounding of an integer to the nearest double, ties to even. *)
Definition round_magnitude (n : Z) : Z :=
  if n <? 2 ^ 53 then n
  else
    let e := Z.log2 n - 52 in
    let q := Z.shiftr n e in
    let r := n - Z.shiftl q e in
    let half := Z.shiftl 1 (e - 1) in
    let q' :=
      if r <? half then q
      else if half <? r then q + 1
      else if Z.even q then q else q + 1 in
    Z.shiftl q' e.

Definition to_double (n : Z) : Z := Z.sgn n * round_magnitude (Z.abs n).

(** [Number(bigint)] and [a - b] on numbers that hold integers. *)
Definition Number_of_BigInt (n : Z) : Z := to_double n.
Definition js_sub (a b : Z) : Z := to_double (a - b).

(** ** Strings *)

(** A JavaScript string: its UTF-16 code units. *)
Definition jsstring := list Z.

Definition js (s : string) : jsstring :=
  map (fun a => Z.of_N (N_of_ascii a)) (list_ascii_of_string s).

(** [n.toString()] for an integer below [10 ^ 21]. *)
Definition Number_toString (n : Z) : jsstring :=
  js (NilZero.string_of_int (Z.to_int n)).

(** [Buffer.from(string, 'utf8')]: a surrogate pair is one code point, a
    lone surrogate is encoded as U+FFFD. *)
Definition utf8_of_code_point (c : Z) : Buffer :=
  if c <? 128 then [c]
  else if c <? 2048 then
    [Z.lor 192 (Z.shiftr c 6); Z.lor 128 (Z.land c 63)]
  else if c <? 65536 then
    [Z.lor 224 (Z.shiftr c 12); Z.lor 128 (Z.land (Z.shiftr c 6) 63);
     Z.lor 128 (Z.land c 63)]
  else
    [Z.lor 240 (Z.shiftr c 18); Z.lor 128 (Z.land (Z.shiftr c 12) 63);
     Z.lor 128 (Z.land (Z.shiftr c 6) 63); Z.lor 128 (Z.land c 63)].

Definition is_high_surrogate (u : Z) : bool := (55296 <=? u) && (u <? 56320).
Definition is_low_surrogate (u : Z) : bool := (56320 <=? u) && (u <? 57344).

Fixpoint utf8_encode_pending (high : option Z) (s : jsstring) : Buffer :=
  match s with
  | [] =>
      match high with
      | Some _ => utf8_of_code_point 65533
      | None => []
      end
  | u :: rest =>
      match high with
      | Some h =>
          if is_low_surrogate u then
            utf8_of_code_point (65536 + (h - 55296) * 1024 + (u - 56320))
              ++ utf8_encode_pending None rest
          else if is_high_surrogate u then
            utf8_of_code_point 65533 ++ utf8_encode_pending (Some u) rest
          else
            utf8_of_code_point 65533 ++ utf8_of_code_point u
              ++ utf8_encode_pending None rest
      | None =>
          if is_high_surrogate u then utf8_encode_pending (Some u) rest
          else if is_low_surrogate u then
            utf8_of_code_point 65533 ++ utf8_encode_pending None rest
          else utf8_of_code_point u ++ utf8_encode_pending None rest
      end
  end.

Definition Buffer_from_utf8 (s : jsstring) : Buffer :=
  utf8_encode_pending None s.

(** [buffer.toString('utf8')]: the decoder of the Encoding standard; each
    ill-formed subsequence becomes U+FFFD. *)
Inductive utf8_lead :=
| LeadEmit (codePoint : Z)
| LeadStart (codePoint needed lower upper : Z).

Definition utf8_lead_of (b : Z) : utf8_lead :=
  if b <=? 127 then LeadEmit b
  else if (194 <=? b) && (b <=? 223) then LeadStart (Z.land b 31) 1 128 191
  else if (224 <=? b) && (b <=? 239) then
    LeadStart (Z.land b 15) 2
      (if b =? 224 then 160 else 128) (if b =? 237 then 159 else 191)
  else if (240 <=? b) && (b <=? 244) then
    LeadStart (Z.land b 7) 3
      (if b =? 240 then 144 else 128) (if b =? 244 then 143 else 191)
  else LeadEmit 65533.

Fixpoint utf8_decode_pending (pending : option (Z * Z * Z * Z)) (b : Buffer)
  : list Z :=
  match b with
  | [] =>
      match pending with
      | Some _ => [65533]
      | None => []
      end
  | x :: rest =>
      let restart :=
        match utf8_lead_of x with
        | LeadEmit c => c :: utf8_decode_pending None rest
        | LeadStart c n lo hi => utf8_decode_pending (Some (c, n, lo, hi)) rest
        end in
      match pending with
      | Some (c, n, lo, hi) =>
          if (lo <=? x) && (x <=? hi) then
            let c' := Z.lor (Z.shiftl c 6) (Z.land x 63) in
            if n =? 1 then c' :: utf8_decode_pending None rest
            else utf8_decode_pending (Some (c', n - 1, 128, 191)) rest
          else 65533 :: restart
      | None => restart
      end
  end.

Definition utf16_of_code_point (c : Z) : jsstring :=
  if c <? 65536 then [c]
  else [55296 + Z.shiftr (c - 65536) 10; 56320 + Z.land (c - 65536) 1023].

Definition Buffer_toString_utf8 (b : Buffer) : jsstring :=
  flat_map utf16_of_code_point (utf8_decode_pending None b).

(** ** Constants *)

Definition MASKING_KEY_SIZE : Z := 4.

Definition OPCODE_CONTINUATION_FRAME : Z := 0.
Definition OPCODE_TEXT_FRAME : Z := 1.
Definition OPCODE_BINARY_FRAME : Z := 2.
Definition OPCODE_CONNECTION_CLOSE : Z := 8.
Definition OPCODE_PING : Z := 9.
Definition OPCODE_PONG : Z := 10.

(** ** Frame codec *)

Definition createHeaderOnlyUnmaskedFrame (opCode : Z) : Buffer :=
  map to_uint8 [Z.shiftl 1 7 + opCode; 0].

Definition createHeaderOnlyMaskedFrame (opCode : Z) : Buffer :=
  map to_uint8
    ([Z.shiftl 1 7 + opCode; Z.shiftl 1 7]
       ++ repeat 0 (Z.to_nat MASKING_KEY_SIZE)).

Definition FRAME_DATA_PING_UNMASKED := createHeaderOnlyUnmaskedFrame OPCODE_PING.
Definition FRAME_DATA_PONG_UNMASKED := createHeaderOnlyUnmaskedFrame OPCODE_PONG.
Definition FRAME_DATA_PING_MASKED := createHeaderOnlyMaskedFrame OPCODE_PING.
Definition FRAME_DATA_PONG_MASKED := createHeaderOnlyMaskedFrame OPCODE_PONG.

(** The masking loop of [createMessageFrame], from index [i] on:
    [payload[i] = payload[i] ^ maskingKey[i % MASKING_KEY_SIZE]]. *)
Fixpoint mask_from (maskingKey : Buffer) (i : Z) (payload : Buffer) : Buffer :=
  match payload with
  | [] => []
  | b :: rest =>
      to_uint8 (Z.lxor b (byte_at maskingKey (Z.rem i MASKING_KEY_SIZE)))
        :: mask_from maskingKey (i + 1) rest
  end.

(** [randomBytes] is the value of [Crypto.randomBytes(MASKING_KEY_SIZE)],
    drawn only when [toMask] holds. *)
Definition createMessageFrame
  (opCode : Z) (payload : Buffer) (toMask : bool) (randomBytes : Buffer)
  : Buffer :=
  let length := byteLength payload in
  let header :=
    if length <? 126 then
      store (allocUnsafe (2 + 0)) 1 length
    else if length <? 2 ^ 16 then
      writeUInt16BE (store (allocUnsafe (2 + 2)) 1 126) length 2
    else
      writeBigUInt64BE (store (allocUnsafe (2 + 8)) 1 127) length 2 in
  let header := store header 0 (Z.shiftl 1 7 + opCode) in
  if toMask then
    let maskingKey := randomBytes in
    let payload := mask_from maskingKey 0 payload in
    let header := store header 1 (Z.lor (byte_at header 1) (Z.shiftl 1 7)) in
    header ++ maskingKey ++ payload
  else header ++ payload.

Definition createTextFrame (s : jsstring) (toMask : bool) (randomBytes : Buffer)
  : Buffer :=
  createMessageFrame OPCODE_TEXT_FRAME (Buffer_from_utf8 s) toMask randomBytes.

Definition createBinaryFrame (b : Buffer) (toMask : bool) (randomBytes : Buffer)
  : Buffer :=
  createMessageFrame OPCODE_BINARY_FRAME b toMask randomBytes.

Definition createCloseFrame (code : Z) (toMask : bool) (randomBytes : Buffer)
  : Buffer :=
  createMessageFrame OPCODE_CONNECTION_CLOSE
    (Buffer_from_utf8 (Number_toString code)) toMask randomBytes.

(** ** The connection *)

Inductive callback :=
| HostSync (date : Z)
| HostText (data : jsstring)
| HostBinary (data : Buffer)
| HostEnd (appCode : string) (statusCode : Z) (error : option string).

Inductive effect :=
| SocketWrite (data : Buffer)
| SocketEnd
| Callback (call : callback).

(** The closure variables of [WebSocketConnection]. A callback slot holds
    [true] when a handler is installed and [false] when it is [null]. *)
Record connection := {
  isPeerMaskingRequired : bool;
  toMaskOwnMessages : bool;
  onTextMessage : bool;
  onBinaryMessage : bool;
  onSync : bool;
  onEnd : bool;
  isAlive : bool;
  lastSyncDate : Z;
  isReadingMessage : bool;
  isFinSet : bool;
  isMasked : bool;
  payloadOpCode : Z;
  maskingKey : option Buffer;
  maskingIndex : Z;
  remainingLength : Z;
  payloadBuffers : list Buffer;
  trace : list effect
}.

Definition set_onTextMessage (v : bool) (c : connection) : connection :=
  Build_connection (isPeerMaskingRequired c) (toMaskOwnMessages c) v
    (onBinaryMessage c) (onSync c) (onEnd c) (isAlive c) (lastSyncDate c)
    (isReadingMessage c) (isFinSet c) (isMasked c) (payloadOpCode c)
    (maskingKey c) (maskingIndex c) (remainingLength c) (payloadBuffers c)
    (trace c).

Definition set_onBinaryMessage (v : bool) (c : connection) : connection :=
  Build_connection (isPeerMaskingRequired c) (toMaskOwnMessages c)
    (onTextMessage c) v (onSync c) (onEnd c) (isAlive c) (lastSyncDate c)
    (isReadingMessage c) (isFinSet c) (isMasked c) (payloadOpCode c)
    (maskingKey c) (maskingIndex c) (remainingLength c) (payloadBuffers c)
    (trace c).

Definition set_onSync (v : bool) (c : connection) : connection :=
  Build_connection (isPeerMaskingRequired c) (toMaskOwnMessages c)
    (onTextMessage c) (onBinaryMessage c) v (onEnd c) (isAlive c)
    (lastSyncDate c) (isReadingMessage c) (isFinSet c) (isMasked c)
    (payloadOpCode c) (maskingKey c) (maskingIndex c) (remainingLength c)
    (payloadBuffers c) (trace c).

Definition set_onEnd (v : bool) (c : connection) : connection :=
  Build_connection (isPeerMaskingRequired c) (toMaskOwnMessages c)
    (onTextMessage c) (onBinaryMessage c) (onSync c) v (isAlive c)
    (lastSyncDate c) (isReadingMessage c) (isFinSet c) (isMasked c)
    (payloadOpCode c) (maskingKey c) (maskingIndex c) (remainingLength c)
    (payloadBuffers c) (trace c).

Definition set_isAlive (v : bool) (c : connection) : connection :=
  Build_connection (isPeerMaskingRequired c) (toMaskOwnMessages c)
    (onTextMessage c) (onBinaryMessage c) (onSync c) (onEnd c) v
    (lastSyncDate c) (isReadingMessage c) (isFinSet c) (isMasked c)
    (payloadOpCode c) (maskingKey c) (maskingIndex c) (remainingLength c)
    (payloadBuffers c) (trace c).

Definition set_lastSyncDate (v : Z) (c : connection) : connection :=
  Build_connection (isPeerMaskingRequired c) (toMaskOwnMessages c)
    (onTextMessage c) (onBinaryMessage c) (onSync c) (onEnd c) (isAlive c) v
    (isReadingMessage c) (isFinSet c) (isMasked c) (payloadOpCode c)
    (maskingKey c) (maskingIndex c) (remainingLength c) (payloadBuffers c)
    (trace c).

Definition set_isReadingMessage (v : bool) (c : connection) : connection :=
  Build_connection (isPeerMaskingRequired c) (toMaskOwnMessages c)
    (onTextMessage c) (onBinaryMessage c) (onSync c) (onEnd c) (isAlive c)
    (lastSyncDate c) v (isFinSet c) (isMasked c) (payloadOpCode c)
    (maskingKey c) (maskingIndex c) (remainingLength c) (payloadBuffers c)
    (trace c).

Definition set_isFinSet (v : bool) (c : connection) : connection :=
  Build_connection (isPeerMaskingRequired c) (toMaskOwnMessages c)
    (onTextMessage c) (onBinaryMessage c) (onSync c) (onEnd c) (isAlive c)
    (lastSyncDate c) (isReadingMessage c) v (isMasked c) (payloadOpCode c)
    (maskingKey c) (maskingIndex c) (remainingLength c) (payloadBuffers c)
    (trace c).

Definition set_isMasked (v : bool) (c : connection) : connection :=
  Build_connection (isPeerMaskingRequired c) (toMaskOwnMessages c)
    (onTextMessage c) (onBinaryMessage c) (onSync c) (onEnd c) (isAlive c)
    (lastSyncDate c) (isReadingMessage c) (isFinSet c) v (payloadOpCode c)
    (maskingKey c) (maskingIndex c) (remainingLength c) (payloadBuffers c)
    (trace c).

Definition set_payloadOpCode (v : Z) (c : connection) : connection :=
  Build_connection (isPeerMaskingRequired c) (toMaskOwnMessages c)
    (onTextMessage c) (onBinaryMessage c) (onSync c) (onEnd c) (isAlive c)
    (lastSyncDate c) (isReadingMessage c) (isFinSet c) (isMasked c) v
    (maskingKey c) (maskingIndex c) (remainingLength c) (payloadBuffers c)
    (trace c).

Definition set_maskingKey (v : option Buffer) (c : connection) : connection :=
  Build_connection (isPeerMaskingRequired c) (toMaskOwnMessages c)
    (onTextMessage c) (onBinaryMessage c) (onSync c) (onEnd c) (isAlive c)
    (lastSyncDate c) (isReadingMessage c) (isFinSet c) (isMasked c)
    (payloadOpCode c) v (maskingIndex c) (remainingLength c)
    (payloadBuffers c) (trace c).

Definition set_maskingIndex (v : Z) (c : connection) : connection :=
  Build_connection (isPeerMaskingRequired c) (toMaskOwnMessages c)
    (onTextMessage c) (onBinaryMessage c) (onSync c) (onEnd c) (isAlive c)
    (lastSyncDate c) (isReadingMessage c) (isFinSet c) (isMasked c)
    (payloadOpCode c) (maskingKey c) v (remainingLength c) (payloadBuffers c)
    (trace c).

Definition set_remainingLength (v : Z) (c : connection) : connection :=
  Build_connection (isPeerMaskingRequired c) (toMaskOwnMessages c)
    (onTextMessage c) (onBinaryMessage c) (onSync c) (onEnd c) (isAlive c)
    (lastSyncDate c) (isReadingMessage c) (isFinSet c) (isMasked c)
    (payloadOpCode c) (maskingKey c) (maskingIndex c) v (payloadBuffers c)
    (trace c).

Definition set_payloadBuffers (v : list Buffer) (c : connection) : connection :=
  Build_connection (isPeerMaskingRequired c) (toMaskOwnMessages c)
    (onTextMessage c) (onBinaryMessage c) (onSync c) (onEnd c) (isAlive c)
    (lastSyncDate c) (isReadingMessage c) (isFinSet c) (isMasked c)
    (payloadOpCode c) (maskingKey c) (maskingIndex c) (remainingLength c) v
    (trace c).

Definition set_trace (v : list effect) (c : connection) : connection :=
  Build_connection (isPeerMaskingRequired c) (toMaskOwnMessages c)
    (onTextMessage c) (onBinaryMessage c) (onSync c) (onEnd c) (isAlive c)
    (lastSyncDate c) (isReadingMessage c) (isFinSet c) (isMasked c)
    (payloadOpCode c) (maskingKey c) (maskingIndex c) (remainingLength c)
    (payloadBuffers c) v.

Definition emit (e : effect) (c : connection) : connection :=
  set_trace (trace c ++ [e]) c.

(** [new WebSocketConnection({ socket, isPeerMaskingRequired,
    toMaskOwnMessages })], constructed at time [now]. *)
Definition WebSocketConnection
  (isPeerMaskingRequired toMaskOwnMessages : bool) (now : Z) : connection :=
  {| isPeerMaskingRequired := isPeerMaskingRequired;
     toMaskOwnMessages := toMaskOwnMessages;
     onTextMessage := false;
     onBinaryMessage := false;
     onSync := false;
     onEnd := false;
     isAlive := true;
     lastSyncDate := now;
     isReadingMessage := false;
     isFinSet := false;
     isMasked := false;
     payloadOpCode := 0;
     maskingKey := None;
     maskingIndex := 0;
     remainingLength := 0;
     payloadBuffers := [];
     trace := [] |}.

Definition frameDataPing (c : connection) : Buffer :=
  if toMaskOwnMessages c then FRAME_DATA_PING_MASKED
  else FRAME_DATA_PING_UNMASKED.

Definition frameDataPong (c : connection) : Buffer :=
  if toMaskOwnMessages c then FRAME_DATA_PONG_MASKED
  else FRAME_DATA_PONG_UNMASKED.

(** *** Public operations *)

Definition sendTextMessage (randomBytes : Buffer) (s : jsstring)
  (c : connection) : connection :=
  emit (SocketWrite (createTextFrame s (toMaskOwnMessages c) randomBytes)) c.

Definition sendBinaryMessage (randomBytes : Buffer) (b : Buffer)
  (c : connection) : connection :=
  emit (SocketWrite (createBinaryFrame b (toMaskOwnMessages c) randomBytes)) c.

Definition sendPing (c : connection) : connection :=
  emit (SocketWrite (frameDataPing c)) c.

Definition sendPong (c : connection) : connection :=
  emit (SocketWrite (frameDataPong c)) c.

Definition isOpen (c : connection) : bool := isAlive c.
Definition getLastSyncDate (c : connection) : Z := lastSyncDate c.

(** *** Close sequencing *)

Definition dropConnection (randomBytes : Buffer)
  (statusCode : Z) (appCode : string) (error : option string)
  (c : connection) : connection :=
  if negb (isAlive c) then c
  else
    let c := set_isAlive false c in
    let c :=
      emit (SocketWrite
              (createCloseFrame statusCode (toMaskOwnMessages c) randomBytes))
        c in
    let c := emit SocketEnd c in
    if onEnd c then emit (Callback (HostEnd appCode statusCode error)) c
    else c.

(** *** Streaming parser *)

Definition onFrameComplete (c : connection) : connection :=
  let c := set_isReadingMessage false c in
  let callback :=
    if payloadOpCode c =? OPCODE_BINARY_FRAME then
      if onBinaryMessage c then
        Some (HostBinary (List.concat (payloadBuffers c)))
      else None
    else if payloadOpCode c =? OPCODE_TEXT_FRAME then
      if onTextMessage c then
        Some (HostText (Buffer_toString_utf8 (List.concat (payloadBuffers c))))
      else None
    else None in
  let c := set_payloadBuffers [] c in
  match callback with
  | Some call => emit (Callback call) c
  | None => c
  end.

(** A function body that either returns early with the connection it
    leaves behind, or goes on with a value. *)
Inductive flow (A : Type) :=
| Return (c : connection)
| Next (a : A).
Arguments Return {A} c.
Arguments Next {A} a.

Definition flow_bind {A B : Type} (m : flow A) (k : A -> flow B) : flow B :=
  match m with
  | Return c => Return c
  | Next a => k a
  end.

Notation "x <- m ;; k" := (flow_bind m (fun x => k))
  (at level 61, m at next level, right associativity).
Notation "' p <- m ;; k" :=
  (flow_bind m (fun x => match x with p => k end))
  (at level 61, p pattern, m at next level, right associativity).

(** The [switch(opCode)] of [readDataFrameHeader]. *)
Definition readDataFrameHeader_opCode (randomBytes : Buffer)
  (c : connection) (opCode : Z) : flow connection :=
  let drop := dropConnection randomBytes in
  if opCode =? OPCODE_CONNECTION_CLOSE then
    Return (drop 1000 "CLOSED_BY_PEER"%string None c)
  else if opCode =? OPCODE_CONTINUATION_FRAME then
    if negb (isReadingMessage c) then
      Return (drop 1002 "ERR_BAD_CONTINUE_OPCODE"%string None c)
    else Next c
  else if (opCode =? OPCODE_TEXT_FRAME) || (opCode =? OPCODE_BINARY_FRAME)
  then
    if isReadingMessage c then
      Return (drop 1002 "ERR_BAD_DATA_OPCODE"%string None c)
    else
      Next (set_payloadBuffers []
              (set_payloadOpCode opCode (set_isReadingMessage true c)))
  else if opCode =? OPCODE_PING then Return (sendPong c)
  else if opCode =? OPCODE_PONG then Return c
  else Return (drop 1003 "ERR_UNSUPPORTED_OPCODE"%string None c).

(** [readDataFrameHeader] up to its call of [readDataFramePayload]: the
    connection with the frame state set, and [nextBufferIndex]. *)
Definition readDataFrameHeader_fields (randomBytes : Buffer)
  (c : connection) (buffer : Buffer) : flow (connection * Z) :=
  let drop := dropConnection randomBytes in
  let length := byteLength buffer in
  let minLength := 2 in
  if length <? minLength then
    Return (drop 1002 "ERR_INAVLID_DATA_FRAME_H2"%string None c)
  else
  let byte0 := byte_at buffer 0 in
  let c := set_isFinSet (negb (Z.land byte0 (Z.shiftl 1 7) =? 0)) c in
  let isRSV1Set := negb (Z.land byte0 (Z.shiftl 1 6) =? 0) in
  let isRSV2Set := negb (Z.land byte0 (Z.shiftl 1 5) =? 0) in
  let isRSV3Set := negb (Z.land byte0 (Z.shiftl 1 4) =? 0) in
  if isRSV1Set || isRSV2Set || isRSV3Set then
    Return (drop 1003 "INVALID_EXTENSION"%string None c)
  else
  let opCode := Z.land byte0 (Z.shiftl 1 4 - 1) in
  let byte1 := byte_at buffer 1 in
  let c := set_isMasked (negb (Z.land byte1 (Z.shiftl 1 7) =? 0)) c in
  if isPeerMaskingRequired c && negb (isMasked c) then
    Return (drop 1008 "ERR_PEER_MASKING_DISABLED"%string None c)
  else
  let payloadLength7 := Z.land byte1 (Z.shiftl 1 7 - 1) in
  let nextBufferIndex := 2 in
  '(payloadLength, nextBufferIndex, minLength) <-
    (if payloadLength7 =? 126 then
       let minLength := minLength + 2 in
       if length <? minLength then
         Return (drop 1002 "ERR_INAVLID_DATA_FRAME_P16"%string None c)
       else
         Next (readUInt16BE buffer nextBufferIndex,
               nextBufferIndex + 2, minLength)
     else if payloadLength7 =? 127 then
       let minLength := minLength + 8 in
       if length <? minLength then
         Return (drop 1002 "ERR_INAVLID_DATA_FRAME_P64"%string None c)
       else
         Next (Number_of_BigInt (readBigUInt64BE buffer nextBufferIndex),
               nextBufferIndex + 8, minLength)
     else Next (payloadLength7, nextBufferIndex, minLength)) ;;
  '(c, nextBufferIndex) <-
    (if isMasked c then
       let minLength := minLength + MASKING_KEY_SIZE in
       if length <? minLength then
         Return (drop 1002 "ERR_MASKING_KEY_MISSING"%string None c)
       else
         Next (set_maskingKey
                 (Some (slice buffer nextBufferIndex
                          (nextBufferIndex + MASKING_KEY_SIZE))) c,
               nextBufferIndex + MASKING_KEY_SIZE)
     else Next (c, nextBufferIndex)) ;;
  c <- readDataFrameHeader_opCode randomBytes c opCode ;;
  Next (set_remainingLength payloadLength (set_maskingIndex 0 c),
        nextBufferIndex).

(** The unmasking loop of [readDataFramePayload] over the bytes it
    consumes: the unmasked bytes and the masking index it leaves.
    [maskingKey] is never [null] when a masked byte is consumed (see
    [masked_payload_has_key]); the model reads it as an empty key there. *)
Fixpoint unmask (key : Buffer) (maskingIndex : Z) (bytes : Buffer)
  : Buffer * Z :=
  match bytes with
  | [] => ([], maskingIndex)
  | b :: rest =>
      let b' := to_uint8 (Z.lxor b (byte_at key maskingIndex)) in
      let '(rest', index) :=
        unmask key (Z.rem (maskingIndex + 1) MASKING_KEY_SIZE) rest in
      (b' :: rest', index)
  end.

Definition key_bytes (k : option Buffer) : Buffer :=
  match k with
  | Some b => b
  | None => []
  end.

(** [readDataFramePayload], with the function it calls on the bytes that
    follow the frame as a parameter. *)
Definition readDataFramePayload_with
  (readDataFrameHeader : connection -> Buffer -> option connection)
  (c : connection) (buffer : Buffer) : option connection :=
  let byteLength := byteLength buffer in
  let length := Z.min byteLength (remainingLength c) in
  let '(buffer, c) :=
    if isMasked c then
      let '(unmasked, index) :=
        unmask (key_bytes (maskingKey c)) (maskingIndex c)
          (firstn (Z.to_nat length) buffer) in
      (unmasked ++ skipn (Z.to_nat length) buffer, set_maskingIndex index c)
    else (buffer, c) in
  let c := set_payloadBuffers (payloadBuffers c ++ [slice buffer 0 length]) c in
  let c := set_remainingLength (js_sub (remainingLength c) length) c in
  if remainingLength c =? 0 then
    let c :=
      if isFinSet c then onFrameComplete (set_maskingKey None c) else c in
    if byteLength >? length then
      readDataFrameHeader c (slice_from buffer length)
    else Some c
  else Some c.

(** [fuel] bounds the number of frame headers read from one chunk; [None]
    is fuel that ran out. *)
Fixpoint readDataFrameHeader (fuel : nat) (randomBytes : Buffer)
  (c : connection) (buffer : Buffer) : option connection :=
  match fuel with
  | O => None
  | S fuel' =>
      match readDataFrameHeader_fields randomBytes c buffer with
      | Return c' => Some c'
      | Next (c', nextBufferIndex) =>
          readDataFramePayload_with (readDataFrameHeader fuel' randomBytes)
            c' (slice_from buffer nextBufferIndex)
      end
  end.

Definition readDataFramePayload (fuel : nat) (randomBytes : Buffer)
  : connection -> Buffer -> option connection :=
  readDataFramePayload_with (readDataFrameHeader fuel randomBytes).

(** One header is read per two bytes at least. *)
Definition enough_fuel (buffer : Buffer) : nat := S (List.length buffer).

(** The ['data'] listener. [now] is the value of [new Date()] and
    [randomBytes] the masking key of the close frame, should the chunk
    drop the connection. *)
Definition onData (now : Z) (randomBytes : Buffer) (buffer : Buffer)
  (c : connection) : option connection :=
  let c := set_lastSyncDate now c in
  let c := if onSync c then emit (Callback (HostSync now)) c else c in
  if remainingLength c =? 0 then
    readDataFrameHeader (enough_fuel buffer) randomBytes c buffer
  else readDataFramePayload (enough_fuel buffer) randomBytes c buffer.

(** *** Executions *)

(** What can happen to a connection: events of its socket and calls of
    its public operations by the host. *)
Inductive event :=
| SocketOnData (now : Z) (randomBytes : Buffer) (buffer : Buffer)
| SocketOnEnd (randomBytes : Buffer)
| SocketOnClose (randomBytes : Buffer)
| SocketOnError (randomBytes : Buffer) (error : string)
| SocketOnTimeout (randomBytes : Buffer)
| CallEnd (randomBytes : Buffer)
| CallSendTextMessage (randomBytes : Buffer) (s : jsstring)
| CallSendBinaryMessage (randomBytes : Buffer) (b : Buffer)
| CallSendPing
| CallSetOnTextMessage (handler : bool)
| CallSetOnBinaryMessage (handler : bool)
| CallSetOnSync (handler : bool)
| CallSetOnEnd (handler : bool).

Definition handle (e : event) (c : connection) : option connection :=
  match e with
  | SocketOnData now randomBytes buffer => onData now randomBytes buffer c
  | SocketOnEnd r =>
      Some (dropConnection r 1000 "CONNECTION_CLOSED"%string None c)
  | SocketOnClose r =>
      Some (dropConnection r 1000 "CONNECTION_CLOSED"%string None c)
  | SocketOnError r error =>
      Some (dropConnection r 1011 "NETWORK_ERROR"%string (Some error) c)
  | SocketOnTimeout r => Some (dropConnection r 1008 "TIMEOUT"%string None c)
  | CallEnd r => Some (dropConnection r 1000 "CLOSED_BY_SELF"%string None c)
  | CallSendTextMessage r s => Some (sendTextMessage r s c)
  | CallSendBinaryMessage r b => Some (sendBinaryMessage r b c)
  | CallSendPing => Some (sendPing c)
  | CallSetOnTextMessage h => Some (set_onTextMessage h c)
  | CallSetOnBinaryMessage h => Some (set_onBinaryMessage h c)
  | CallSetOnSync h => Some (set_onSync h c)
  | CallSetOnEnd h => Some (set_onEnd h c)
  end.

Fixpoint run (events : list event) (c : connection) : option connection :=
  match events with
  | [] => Some c
  | e :: rest =>
      match handle e c with
      | Some c' => run rest c'
      | None => None
      end
  end.

(** The host callbacks of a trace, in order. *)
Fixpoint callbacks (t : list effect) : list callback :=
  match t with
  | [] => []
  | Callback call :: rest => call :: callbacks rest
  | _ :: rest => callbacks rest
  end.

(** The message callbacks: all but [onSync], which fires once per chunk. *)
Definition is_sync (call : callback) : bool :=
  match call with
  | HostSync _ => true
  | _ => false
  end.

Definition deliveries (t : list effect) : list callback :=
  filter (fun call => negb (is_sync call)) (callbacks t).

(** ** [createClientConnection]: the port of the transport *)

(** [protocol] and [port] are the fields of [new URL(url)]. *)
Definition isHttps (protocol : string) : bool := String.eqb protocol "https:".

Definition Number_of_port (port : string) : Z :=
  Z.of_N (fold_left (fun acc a => (acc * 10 + (N_of_ascii a - 48))%N)
            (list_ascii_of_string port) 0%N).

Definition inferredPort (protocol port : string) : Z :=
  if negb (String.eqb port "") then Number_of_port port
  else if isHttps protocol then 433 else 80.

Definition hello_frame : Buffer :=
  [129; 133; 55; 250; 33; 61; 127; 159; 77; 81; 88].

Definition server (now : Z) : connection := WebSocketConnection true false now.
Definition client (now : Z) : connection := WebSocketConnection false true now.

(** ** The opening handshake *)

(** *** What the platform provides *)

(** The functions of the platform that the handshake calls and that are
    taken as given: [String.prototype.toLowerCase], the SHA-1 digest of
    [Crypto.createHash('sha1').update(data).digest('base64')], and the
    length of [Buffer.from(string, 'base64')]. *)
Record platform := {
  toLowerCase : jsstring -> jsstring;
  sha1_digest_base64 : jsstring -> jsstring;
  base64_decoded_length : jsstring -> Z
}.

(** *** Strings and arrays *)

(** [a === b] on strings. *)
Fixpoint String_equals (a b : jsstring) : bool :=
  match a, b with
  | [], [] => true
  | x :: a', y :: b' => (x =? y) && String_equals a' b'
  | _, _ => false
  end.

Fixpoint String_startsWith (s prefix : jsstring) {struct prefix} : bool :=
  match prefix, s with
  | [], _ => true
  | x :: prefix', y :: s' => (x =? y) && String_startsWith s' prefix'
  | _ :: _, [] => false
  end.

(** [s.split(separator)] for a separator that is not empty: [current]
    holds the piece being read and [skip] the code units of a separator
    still to pass over. *)
Fixpoint String_split_from (separator : jsstring) (skip : nat)
  (current s : jsstring) : list jsstring :=
  match s with
  | [] => [current]
  | u :: rest =>
      match skip with
      | S skip' => String_split_from separator skip' current rest
      | O =>
          if String_startsWith s separator then
            current
              :: String_split_from separator
                   (List.length separator - 1) [] rest
          else String_split_from separator 0 (current ++ [u]) rest
      end
  end.

Definition String_split (separator s : jsstring) : list jsstring :=
  String_split_from separator 0 [] s.

(** White space and line terminators, which [trim] removes. *)
Definition is_white_space (u : Z) : bool :=
  existsb (Z.eqb u)
    [9; 10; 11; 12; 13; 32; 160; 5760; 8192; 8193; 8194; 8195; 8196; 8197;
     8198; 8199; 8200; 8201; 8202; 8232; 8233; 8239; 8287; 12288; 65279].

Fixpoint String_trimStart (s : jsstring) : jsstring :=
  match s with
  | [] => []
  | u :: rest => if is_white_space u then String_trimStart rest else s
  end.

Definition String_trim (s : jsstring) : jsstring :=
  rev (String_trimStart (rev (String_trimStart s))).

(** [s.indexOf(u)] for a one-unit string [u], counting from [i]. *)
Fixpoint String_indexOf_from (u : Z) (i : Z) (s : jsstring) : Z :=
  match s with
  | [] => -1
  | x :: rest => if x =? u then i else String_indexOf_from u (i + 1) rest
  end.

Definition String_indexOf (s : jsstring) (u : Z) : Z :=
  String_indexOf_from u 0 s.

Fixpoint Array_join (l : list jsstring) (separator : jsstring) : jsstring :=
  match l with
  | [] => []
  | [x] => x
  | x :: rest => x ++ separator ++ Array_join rest separator
  end.

Definition Array_includes (l : list jsstring) (x : jsstring) : bool :=
  existsb (String_equals x) l.

(** *** Objects with string values *)

(** A plain object whose own properties hold strings: the properties in
    the order of their creation. *)
Definition jsobject := list (jsstring * jsstring).

(** [o[k]]: [None] is [undefined]. *)
Fixpoint Object_get (o : jsobject) (k : jsstring) : option jsstring :=
  match o with
  | [] => None
  | (k', v) :: rest => if String_equals k' k then Some v else Object_get rest k
  end.

Fixpoint Object_put (o : jsobject) (k v : jsstring) : jsobject :=
  match o with
  | [] => [(k, v)]
  | (k', v') :: rest =>
      if String_equals k' k then (k', v) :: rest
      else (k', v') :: Object_put rest k v
  end.

(** [o[k] = v]: an existing property keeps its place; assigning a string
    to [__proto__] does nothing. *)
Definition Object_set (o : jsobject) (k v : jsstring) : jsobject :=
  if String_equals k (js "__proto__") then o else Object_put o k v.

(** [o[k] || ''] *)
Definition Object_get_or_empty (o : jsobject) (k : jsstring) : jsstring :=
  match Object_get o k with
  | Some v => v
  | None => []
  end.

Definition is_digit (u : Z) : bool := (48 <=? u) && (u <=? 57).

Definition Number_of_digits (digits : jsstring) : Z :=
  fold_left (fun acc u => acc * 10 + (u - 48)) digits 0.

(** An array index: the canonical decimal form of an integer below
    [2 ^ 32 - 1]. *)
Definition array_index (k : jsstring) : option Z :=
  match k with
  | [] => None
  | u :: rest =>
      if forallb is_digit k
         && (negb (u =? 48) || (List.length rest =? 0)%nat)
         && (Number_of_digits k <? 2 ^ 32 - 1)
      then Some (Number_of_digits k)
      else None
  end.

Fixpoint insert_index (i : Z) (k : jsstring) (l : list (Z * jsstring))
  : list (Z * jsstring) :=
  match l with
  | [] => [(i, k)]
  | (j, k') :: rest =>
      if i <? j then (i, k) :: l else (j, k') :: insert_index i k rest
  end.

(** [Object.keys(o)]: the array indexes in ascending order, then the
    other keys in the order of their creation. *)
Definition Object_keys (o : jsobject) : list jsstring :=
  let indexes :=
    fold_left
      (fun acc k =>
         match array_index k with
         | Some i => insert_index i k acc
         | None => acc
         end)
      (map fst o) [] in
  map snd indexes
    ++ filter (fun k => match array_index k with Some _ => false | None => true end)
         (map fst o).

(** *** Constants *)

Definition CRLF : jsstring := [13; 10].

Definition WEB_SOCKET_GUID : jsstring :=
  js "258EAFA5-E914-47DA-95CA-C5AB0DC85B11".

(** [Math.ceil(sourceStringLength / 3) * 4] *)
Definition getBase64Length (sourceStringLength : Z) : Z :=
  - (- sourceStringLength / 3) * 4.

Definition HANDSHAKE_KEY_SIZE : Z := 16.
Definition HANDSHAKE_KEY_BASE64_SIZE : Z := getBase64Length HANDSHAKE_KEY_SIZE.
Definition STATUS_CODE_UPGRADED : Z := 101.

(** *** Helpers *)

Definition getHttpHeaderAsArray (P : platform) (headers : jsobject)
  (headerId : jsstring) (lower : bool) : list jsstring :=
  let stringArray :=
    filter (fun it => negb (String_equals it []))
      (map String_trim
         (String_split (js ",") (Object_get_or_empty headers headerId))) in
  if lower then map (toLowerCase P) stringArray else stringArray.

Definition serializeHttpHeaders (headers : jsobject) : list jsstring :=
  map (fun headerId =>
         headerId ++ js ": "
           ++ match Object_get headers headerId with
              | Some v => v
              | None => js "undefined"
              end)
    (Object_keys headers).

Definition toLowerCaseKeys (P : platform) (mapObject : jsobject) : jsobject :=
  fold_left
    (fun copy key =>
       Object_set copy (toLowerCase P key)
         (match Object_get mapObject key with
          | Some v => v
          | None => js "undefined"
          end))
    (Object_keys mapObject) [].

Definition createSHA1HashBase64 (P : platform) (data : jsstring) : jsstring :=
  sha1_digest_base64 P data.

(** *** [serverUpgradeRequest] *)

(** The fields of the request that the upgrade reads. *)
Record request := {
  method : jsstring;
  httpVersionMajor : Z;
  httpVersionMinor : Z;
  request_headers : jsobject
}.

(** What [selectProtocol] passes to its callback: an error, or the
    protocol it selects, [None] for [null]. *)
Inductive selection :=
| SelectError (error : string)
| Selected (protocol : option jsstring).

Definition defaultSelectProtocol (protocols : list jsstring) : selection :=
  Selected None.

(** What the upgrade does: it calls back with an error, or it writes the
    response to the socket and calls back with a new connection and the
    protocol. *)
Inductive upgrade :=
| UpgradeError (error : string)
| Upgraded (written : jsstring) (c : connection) (protocol : option jsstring).

(** The header object of the response. *)
Definition upgrade_responseHeaders (P : platform) (headers : jsobject)
  (secWebSocketKey : jsstring) (protocol : option jsstring) : jsobject :=
  let responseHeaders :=
    Object_set
      (Object_set
         (Object_set (toLowerCaseKeys P headers)
            (js "upgrade") (js "websocket"))
         (js "connection") (js "upgrade"))
      (js "sec-websocket-accept")
      (createSHA1HashBase64 P (secWebSocketKey ++ WEB_SOCKET_GUID)) in
  match protocol with
  | Some p => Object_set responseHeaders (js "sec-websocket-protocol") p
  | None => responseHeaders
  end.

Definition serverUpgradeRequest (P : platform) (request : request)
  (selectProtocol : list jsstring -> selection) (headers : jsobject)
  (now : Z) : upgrade :=
  let requestHeaders := request_headers request in
  if negb (String_equals (method request) (js "GET")) then
    UpgradeError "ERR_METHOD"
  else if negb ((httpVersionMajor request >? 1)
                || ((httpVersionMajor request =? 1)
                    && (httpVersionMinor request >=? 1))) then
    UpgradeError "ERR_HTTP_VERSION"
  else
  let upgrades := getHttpHeaderAsArray P requestHeaders (js "upgrade") true in
  if negb (Array_includes upgrades (js "websocket")) then
    UpgradeError "ERR_UPGRADE_HEADER"
  else
  let connections :=
    getHttpHeaderAsArray P requestHeaders (js "connection") true in
  if negb (Array_includes connections (js "upgrade")) then
    UpgradeError "ERR_CONNECTION_HEADER"
  else
  let secWebSocketKey :=
    Object_get_or_empty requestHeaders (js "sec-websocket-key") in
  if negb ((Z.of_nat (List.length secWebSocketKey)
            =? HANDSHAKE_KEY_BASE64_SIZE)
           && (base64_decoded_length P secWebSocketKey
               =? HANDSHAKE_KEY_SIZE)) then
    UpgradeError "ERR_WEBSOCKET_KEY"
  else if negb (String_equals
                  (Object_get_or_empty requestHeaders
                     (js "sec-websocket-version"))
                  (js "13")) then
    UpgradeError "ERR_WEBSOCKET_VERSION"
  else
  let secWebSocketProtocols :=
    getHttpHeaderAsArray P requestHeaders (js "sec-websocket-protocol")
      false in
  match selectProtocol secWebSocketProtocols with
  | SelectError error => UpgradeError error
  | Selected protocol =>
      let responseHeaders :=
        upgrade_responseHeaders P headers secWebSocketKey protocol in
      Upgraded
        (Array_join
           ([js "HTTP/1.1 " ++ Number_toString STATUS_CODE_UPGRADED
               ++ js " Switching Protocols"]
              ++ serializeHttpHeaders responseHeaders ++ [CRLF])
           CRLF)
        (WebSocketConnection true false now)
        protocol
  end.

(** *** [createClientConnection] *)

(** [buffer.toString('base64')] *)
Definition base64_alphabet : jsstring :=
  js "ABCDEFGHIJKLMNOPQRSTUVWXYZabcdefghijklmnopqrstuvwxyz0123456789+/".

Definition base64_unit (i : Z) : Z := nth (Z.to_nat i) base64_alphabet 0.

Fixpoint Buffer_toString_base64 (b : Buffer) : jsstring :=
  match b with
  | [] => []
  | [x] =>
      [base64_unit (Z.shiftr x 2);
       base64_unit (Z.shiftl (Z.land x 3) 4); 61; 61]
  | [x; y] =>
      [base64_unit (Z.shiftr x 2);
       base64_unit (Z.lor (Z.shiftl (Z.land x 3) 4) (Z.shiftr y 4));
       base64_unit (Z.shiftl (Z.land y 15) 2); 61]
  | x :: y :: z :: rest =>
      [base64_unit (Z.shiftr x 2);
       base64_unit (Z.lor (Z.shiftl (Z.land x 3) 4) (Z.shiftr y 4));
       base64_unit (Z.lor (Z.shiftl (Z.land y 15) 2) (Z.shiftr z 6));
       base64_unit (Z.land z 63)]
        ++ Buffer_toString_base64 rest
  end.

(** The header object of the request that [onConnected] fills in.
    [host] is the field of [new URL(url)]. *)
Definition client_requestHeaders (P : platform) (headers : jsobject)
  (host secWebSocketKey : jsstring) (protocols : list jsstring) : jsobject :=
  let requestHeaders := toLowerCaseKeys P headers in
  let requestHeaders :=
    Object_set
      (Object_set
         (Object_set
            (Object_set
               (Object_set requestHeaders (js "host") host)
               (js "upgrade") (js "websocket"))
            (js "connection") (js "keep-alive, upgrade"))
         (js "sec-websocket-key") secWebSocketKey)
      (js "sec-websocket-version") (js "13") in
  if (Z.of_nat (List.length protocols) >? 0) then
    Object_set requestHeaders (js "sec-websocket-protocol")
      (Array_join protocols (js ", "))
  else requestHeaders.

(** What [onConnected] writes. [pathname] and [search] are the fields of
    [new URL(url)]. *)
Definition client_handshake (P : platform) (headers : jsobject)
  (host pathname search secWebSocketKey : jsstring)
  (protocols : list jsstring) : jsstring :=
  Array_join
    ([js "GET " ++ pathname ++ search ++ js " HTTP/1.1"]
       ++ serializeHttpHeaders
            (client_requestHeaders P headers host secWebSocketKey protocols)
       ++ [CRLF])
    CRLF.

(** The match of
    [/^HTTP\/([0-9]+)\.([0-9]+) ([1-5][0-9]{2}) (.*?)$/] on the status
    line: the numbers of the three groups. The numbers are compared with
    1 and 101 only, which the rounding of [Number] does not change. *)
Fixpoint take_digits (s : jsstring) : jsstring * jsstring :=
  match s with
  | u :: rest =>
      if is_digit u then
        let '(digits, rest') := take_digits rest in (u :: digits, rest')
      else ([], s)
  | [] => ([], [])
  end.

Definition is_line_terminator (u : Z) : bool :=
  (u =? 10) || (u =? 13) || (u =? 8232) || (u =? 8233).

Definition match_statusLine (statusLine : jsstring) : option (Z * Z * Z) :=
  if String_startsWith statusLine (js "HTTP/") then
    let '(major, rest) := take_digits (skipn 5 statusLine) in
    match major, rest with
    | _ :: _, 46 :: rest =>
        let '(minor, rest) := take_digits rest in
        match minor, rest with
        | _ :: _, 32 :: d1 :: d2 :: d3 :: 32 :: reason =>
            if (49 <=? d1) && (d1 <=? 53) && is_digit d2 && is_digit d3
               && forallb (fun u => negb (is_line_terminator u)) reason
            then Some (Number_of_digits major, Number_of_digits minor,
                       Number_of_digits [d1; d2; d3])
            else None
        | _, _ => None
        end
    | _, _ => None
    end
  else None.

(** The loop over the header lines of the response: [None] is
    ERR_HEADERS. *)
Fixpoint parse_responseHeaders (P : platform) (lines : list jsstring)
  (responseHeaders : jsobject) : option jsobject :=
  match lines with
  | [] => Some responseHeaders
  | l :: rest =>
      let line := String_trim l in
      if String_equals line [] then Some responseHeaders
      else
        let indexOfColon := String_indexOf line 58 in
        if indexOfColon =? -1 then None
        else
          let headerId :=
            toLowerCase P (String_trim (slice line 0 indexOfColon)) in
          let headerValue := String_trim (slice_from line (indexOfColon + 1)) in
          parse_responseHeaders P rest
            (Object_set responseHeaders headerId headerValue)
  end.

(** What the handshake of the client calls back with: an error, or a new
    connection and the protocol, [None] for [null]. *)
Inductive client_result :=
| HandshakeError (error : string)
| Connected (c : connection) (protocol : option jsstring).

(** [headers['sec-websocket-protocol'] || null] *)
Definition Object_get_or_null (o : jsobject) (k : jsstring)
  : option jsstring :=
  match Object_get o k with
  | Some [] => None
  | other => other
  end.

(** The ['data'] listener of the handshake. [headers] is the option of
    [createClientConnection], [secWebSocketKey] the key it sent. *)
Definition onServerHandshake (P : platform) (headers : jsobject)
  (secWebSocketKey : jsstring) (now : Z) (buffer : Buffer) : client_result :=
  match String_split CRLF (Buffer_toString_utf8 buffer) with
  | [] => HandshakeError "ERR_NOT_HTTP_SERVER"
  | statusLine :: lines =>
      match match_statusLine statusLine with
      | None => HandshakeError "ERR_NOT_HTTP_SERVER"
      | Some (httpVersionMajor, httpVersionMinor, statusCode) =>
          if negb ((httpVersionMajor >? 1)
                   || ((httpVersionMajor =? 1) && (httpVersionMinor >=? 1)))
          then HandshakeError "ERR_HTTP_VERSION"
          else if negb (statusCode =? STATUS_CODE_UPGRADED) then
            HandshakeError "ERR_STATUS_CODE_NOT_UPGRADED"
          else
            match parse_responseHeaders P lines [] with
            | None => HandshakeError "ERR_HEADERS"
            | Some responseHeaders =>
                let upgrades :=
                  getHttpHeaderAsArray P responseHeaders (js "upgrade") true in
                if negb (Array_includes upgrades (js "websocket")) then
                  HandshakeError "ERR_UPGRADE_HEADER"
                else
                let connections :=
                  getHttpHeaderAsArray P responseHeaders (js "connection")
                    true in
                if negb (Array_includes connections (js "upgrade")) then
                  HandshakeError "ERR_CONNECTION_HEADER"
                else
                let secWebSocketAccept :=
                  Object_get_or_empty responseHeaders
                    (js "sec-websocket-accept") in
                if negb (String_equals secWebSocketAccept
                           (createSHA1HashBase64 P
                              (secWebSocketKey ++ WEB_SOCKET_GUID))) then
                  HandshakeError "ERR_INVALID_ACCEPT"
                else
                  Connected (WebSocketConnection false true now)
                    (Object_get_or_null headers
                       (js "sec-websocket-protocol"))
            end
      end
  end.

(** * Vocabulary of the properties *)

(** ** Wire format of a frame header, as [readDataFrameHeader] reads it *)

Definition frame_fin (b : Buffer) : bool :=
  negb (Z.land (byte_at b 0) (Z.shiftl 1 7) =? 0).

Definition frame_reserved (b : Buffer) : bool :=
  negb (Z.land (byte_at b 0) (Z.shiftl 1 6) =? 0)
  || negb (Z.land (byte_at b 0) (Z.shiftl 1 5) =? 0)
  || negb (Z.land (byte_at b 0) (Z.shiftl 1 4) =? 0).

Definition frame_opCode (b : Buffer) : Z :=
  Z.land (byte_at b 0) (Z.shiftl 1 4 - 1).

Definition frame_masked (b : Buffer) : bool :=
  negb (Z.land (byte_at b 1) (Z.shiftl 1 7) =? 0).

Definition frame_length7 (b : Buffer) : Z :=
  Z.land (byte_at b 1) (Z.shiftl 1 7 - 1).

Definition frame_key_index (b : Buffer) : Z :=
  if frame_length7 b =? 126 then 2 + 2
  else if frame_length7 b =? 127 then 2 + 8
  else 2.

Definition frame_header_size (b : Buffer) : Z :=
  if frame_masked b then frame_key_index b + MASKING_KEY_SIZE
  else frame_key_index b.

Definition frame_payloadLength (b : Buffer) : Z :=
  if frame_length7 b =? 126 then readUInt16BE b 2
  else if frame_length7 b =? 127 then Number_of_BigInt (readBigUInt64BE b 2)
  else frame_length7 b.

(** The checks of [readDataFrameHeader] that come before the opcode is
    looked at: the header is whole, no reserved bit is set, and the frame
    is masked when the peer has to mask. *)
Definition header_accepted (c : connection) (b : Buffer) : bool :=
  (frame_header_size b <=? byteLength b)
  && negb (frame_reserved b)
  && (negb (isPeerMaskingRequired c) || frame_masked b).

(** The frame state [readDataFrameHeader] has assigned when it reaches the
    opcode. *)
Definition frame_state (c : connection) (b : Buffer) : connection :=
  let c := set_isMasked (frame_masked b) (set_isFinSet (frame_fin b) c) in
  if frame_masked b then
    set_maskingKey
      (Some (slice b (frame_key_index b) (frame_key_index b + MASKING_KEY_SIZE)))
      c
  else c.

(** ** The payload reader, in two steps *)

Definition payload_length (c : connection) (buffer : Buffer) : Z :=
  Z.min (byteLength buffer) (remainingLength c).

(** The connection [readDataFramePayload] leaves when it has taken its
    bytes and completed the frame, before it looks at the bytes that
    follow. *)
Definition after_payload (c : connection) (buffer : Buffer) : connection :=
  match readDataFramePayload_with (fun c' _ => Some c') c buffer with
  | Some c' => c'
  | None => c
  end.

(** Whether [readDataFramePayload] goes on to read a header. *)
Definition reads_on (c : connection) (buffer : Buffer) : bool :=
  (remainingLength (after_payload c buffer) =? 0)
  && (byteLength buffer >? payload_length c buffer).

(** ** Liveness along executions *)

Definition is_end (e : effect) : bool :=
  match e with
  | Callback (HostEnd _ _ _) => true
  | _ => false
  end.

(** How many times [onEnd] was invoked. *)
Definition end_calls (t : list effect) : nat :=
  List.length (filter is_end t).

(** [onEnd] calls still possible: one while the connection is alive. *)
Definition ends_left (c : connection) : nat :=
  if isAlive c then 1%nat else 0%nat.

(** From [c] to [c'] no [onEnd] call is lost, and each new one uses up
    the liveness of the connection. *)
Definition winds_down (c c' : connection) : Prop :=
  (end_calls (trace c) <= end_calls (trace c'))%nat
  /\ (end_calls (trace c') + ends_left c'
      <= end_calls (trace c) + ends_left c)%nat.

Definition flow_winds_down {A : Type} (state : A -> connection)
  (c : connection) (f : flow A) : Prop :=
  match f with
  | Return c' => winds_down c c'
  | Next a => winds_down c (state a)
  end.

(** ** Scenario: one masked text frame *)

(** A server-role connection constructed at [now], with a text handler
    installed and the other three slots as given. *)
Definition server_with_text (now : Z) (binary sync end_ : bool) : connection :=
  set_onEnd end_
    (set_onSync sync
       (set_onBinaryMessage binary (set_onTextMessage true (server now)))).

(** ** Termination of a connection *)

(** The close frame, the half-close and the [onEnd] call of
    [dropConnection]. *)
Definition drop_effects (r : Buffer) (statusCode : Z) (appCode : string)
  (error : option string) (c : connection) : list effect :=
  [SocketWrite (createCloseFrame statusCode (toMaskOwnMessages c) r);
   SocketEnd]
    ++ (if onEnd c then [Callback (HostEnd appCode statusCode error)] else []).

(** ** A header is read from its own bytes only *)

Definition same_prefix (n : Z) (a b : Buffer) : Prop :=
  firstn (Z.to_nat n) a = firstn (Z.to_nat n) b.

(** ** Opcode discipline and close frames *)

(** The [onSync] call at the start of [onData]. *)
Definition sync_effects (now : Z) (c : connection) : list effect :=
  if onSync c then [Callback (HostSync now)] else [].

(** What a drop adds to the trace of a connection: nothing once it is
    dead. *)
Definition drop_trace (r : Buffer) (statusCode : Z) (appCode : string)
  (c : connection) : list effect :=
  if isAlive c then drop_effects r statusCode appCode None c else [].

(** ** The length field, in the words of the specification *)

(** [n] on [bytes] bytes, most significant first. *)
Fixpoint big_endian (bytes : nat) (n : Z) : Buffer :=
  match bytes with
  | O => []
  | S k => big_endian k (n / 256) ++ [n mod 256]
  end.

Definition big_endian_value (b : Buffer) : Z :=
  fold_left (fun acc x => acc * 256 + x) b 0.

(** The seven-bit length code and the extended length that follows it:
    the smallest of the three forms that holds [n]. *)
Definition length_code (n : Z) : Z :=
  if n <? 126 then n else if n <? 65536 then 126 else 127.

Definition extended_length (n : Z) : Buffer :=
  if n <? 126 then [] else if n <? 65536 then big_endian 2 n
  else big_endian 8 n.

Definition mask_bit (toMask : bool) : Z := if toMask then 128 else 0.

Definition frame_header (opCode : Z) (toMask : bool) (code : Z)
  (extended : Buffer) : Buffer :=
  [128 + opCode; mask_bit toMask + code] ++ extended.

(** ** Reading back a data frame header *)

Definition length_field (code v : Z) : Buffer :=
  if code =? 126 then big_endian 2 v
  else if code =? 127 then big_endian 8 v
  else [].

(** [v] is a length that the form [code] can carry. *)
Definition length_form_ok (code v : Z) : bool :=
  if code =? 126 then (0 <=? v) && (v <? 65536)
  else if code =? 127 then (0 <=? v) && (v <=? MAX_LENGTH)
  else (0 <=? code) && (code <? 126) && (v =? code).

(** The connection [readDataFrameHeader] hands to [readDataFramePayload]
    for a final text or binary frame. *)
Definition data_frame_state (c : connection) (opCode : Z) (toMask : bool)
  (key : Buffer) (v : Z) : connection :=
  let c := set_isMasked toMask (set_isFinSet true c) in
  let c := if toMask then set_maskingKey (Some key) c else c in
  set_remainingLength v
    (set_maskingIndex 0
       (set_payloadBuffers []
          (set_payloadOpCode opCode (set_isReadingMessage true c)))).

(** ** Connections that differ in chunking only *)

Definition is_sync_effect (e : effect) : bool :=
  match e with
  | Callback (HostSync _) => true
  | _ => false
  end.

(** A trace without its [onSync] calls. *)
Definition unsynced (t : list effect) : list effect :=
  filter (fun e => negb (is_sync_effect e)) t.

(** The connection without what depends on where the chunks were cut: the
    pieces of [payloadBuffers], the date of the last chunk and the
    trace. *)
Definition core (c : connection) : connection :=
  set_trace [] (set_lastSyncDate 0 (set_payloadBuffers [] c)).

(** Two connections are similar when they agree on everything but the
    cutting of [payloadBuffers] into pieces, the date of the last chunk
    and the [onSync] calls of the trace. *)
Definition similar (a b : connection) : Prop :=
  core a = core b
  /\ List.concat (payloadBuffers a) = List.concat (payloadBuffers b)
  /\ unsynced (trace a) = unsynced (trace b).

Definition similar_result (x y : option connection) : Prop :=
  match x, y with
  | Some a, Some b => similar a b
  | _, _ => False
  end.

Definition similar_flow {A : Type} (state : A -> connection) (rest : A -> Z)
  (x y : flow A) : Prop :=
  match x, y with
  | Return a, Return b => similar a b
  | Next a, Next b => similar (state a) (state b) /\ rest a = rest b
  | _, _ => False
  end.

(** The last lines of [onData]: the header or the payload reader,
    according to [remainingLength]. *)
Definition feed (fuel : nat) (r : Buffer) (c : connection) (buffer : Buffer)
  : option connection :=
  if remainingLength c =? 0 then readDataFrameHeader fuel r c buffer
  else readDataFramePayload fuel r c buffer.

(** The first lines of [onData]. *)
Definition synced (now : Z) (c : connection) : connection :=
  let c := set_lastSyncDate now c in
  if onSync c then emit (Callback (HostSync now)) c else c.

(** ** The payload reader, spelled out *)

(** The bytes [readDataFramePayload] appends to [payloadBuffers], and the
    masking index it leaves. *)
Definition payload_bytes (c : connection) (buffer : Buffer) : Buffer * Z :=
  let taken := firstn (Z.to_nat (payload_length c buffer)) buffer in
  if isMasked c then unmask (key_bytes (maskingKey c)) (maskingIndex c) taken
  else (taken, maskingIndex c).

Definition payload_taken (c : connection) (buffer : Buffer) : connection :=
  set_remainingLength (js_sub (remainingLength c) (payload_length c buffer))
    (set_payloadBuffers (payloadBuffers c ++ [fst (payload_bytes c buffer)])
       (set_maskingIndex (snd (payload_bytes c buffer)) c)).

Definition frame_done (c : connection) : connection :=
  if remainingLength c =? 0 then
    if isFinSet c then onFrameComplete (set_maskingKey None c) else c
  else c.

(** ** Chunks that end inside a data payload *)

(** [ends_in_payload r c b]: the parser, in state [c], takes all of the
    chunk [b] as data frames it accepts, and [b] ends inside the payload
    of the last one or at its end. It follows the calls that
    [readDataFrameHeader] and [readDataFramePayload] make on [b]. *)
Definition ends_in_payload_with (k : connection -> Buffer -> bool)
  (c : connection) (b : Buffer) : bool :=
  if byteLength b <=? remainingLength c then remainingLength c <=? MAX_LENGTH
  else (0 <=? remainingLength c)
       && k (after_payload c b) (slice_from b (remainingLength c)).

Fixpoint ends_in_payload_header (fuel : nat) (r : Buffer)
  (c : connection) (b : Buffer) : bool :=
  match fuel with
  | O => false
  | S fuel' =>
      match readDataFrameHeader_fields r c b with
      | Return _ => false
      | Next (c', idx) =>
          ends_in_payload_with (ends_in_payload_header fuel' r)
            c' (slice_from b idx)
      end
  end.

Definition ends_in_payload (r : Buffer) (c : connection) (b : Buffer) : bool :=
  if remainingLength c =? 0 then
    ends_in_payload_header (enough_fuel b) r c b
  else ends_in_payload_with (ends_in_payload_header (enough_fuel b) r) c b.

(** What is to be shown of a reader [read] on the chunk [b1 ++ b2] cut
    after [b1]: with fuel enough, reading [b1] and then feeding [b2]
    leaves what reading the whole leaves. *)
Definition splits (r : Buffer) (b2 : Buffer)
  (read : nat -> connection -> Buffer -> option connection)
  (c : connection) (b1 : Buffer) : Prop :=
  forall f1 f2 f : nat,
    (List.length b1 < f1)%nat -> (List.length b2 < f2)%nat ->
    (List.length (b1 ++ b2) < f)%nat ->
    exists p,
      read f1 c b1 = Some p
      /\ similar_result (feed f2 r p b2) (read f c (b1 ++ b2)).

(** ** Any number of chunks *)

(** The ['data'] events of chunks received at the given dates. *)
Definition chunk_events (r : Buffer) (chunks : list (Z * Buffer))
  : list event :=
  map (fun chunk => SocketOnData (fst chunk) r (snd chunk)) chunks.

(** Every cut falls inside a data payload: [first] holds the bytes before
    the first cut, [rest] the chunks after it. No chunk after a cut is
    empty. *)
Fixpoint cuts_in_payload (r : Buffer) (c : connection) (first : Buffer)
  (rest : list Buffer) : bool :=
  match rest with
  | [] => true
  | b :: rest' =>
      ends_in_payload r c first
      && negb (byteLength b =? 0)
      && cuts_in_payload r c (first ++ b) rest'
  end.

(** The calls of [socket.write] and [socket.end] of a trace. *)
Definition socket_calls (t : list effect) : list effect :=
  filter (fun e => match e with Callback _ => false | _ => true end) t.

(** ** The masking key in payload-expected state *)

(** While a masked payload is being read, its masking key is held. *)
Definition keyed (c : connection) : Prop :=
  remainingLength c <> 0 -> isMasked c = true -> maskingKey c <> None.

Definition key_present (c : connection) : Prop :=
  isMasked c = true -> maskingKey c <> None.

(** ** What the parser does to the rest of the connection *)

(** The configuration, the handlers, the public state and the trace: all
    of the connection but the frame state of the parser. *)
Definition public_state (c : connection) :=
  (isPeerMaskingRequired c, toMaskOwnMessages c, onTextMessage c,
   onBinaryMessage c, onSync c, onEnd c, isAlive c, lastSyncDate c, trace c).

(** The three ways [readDataFrameHeader] returns without reading a
    payload: the bare [return] of a pong frame, [return sendPong()] and
    [return dropConnection(...)]. *)
Inductive header_return (r : Buffer) (c c' : connection) : Prop :=
| ReturnsBare : c' = c -> header_return r c c'
| ReturnsPong : c' = sendPong c -> header_return r c c'
| ReturnsDrop (statusCode : Z) (appCode : string) :
    c' = dropConnection r statusCode appCode None c -> header_return r c c'.

Definition message_call (call : callback) : bool :=
  match call with
  | HostText _ | HostBinary _ => true
  | _ => false
  end.

(** From [c] to [c'] nothing happened but the delivery of at most one
    message. *)
Definition delivers (c c' : connection) : Prop :=
  exists calls,
    public_state c'
    = public_state (set_trace (trace c ++ map Callback calls) c)
    /\ forallb message_call calls = true
    /\ (List.length calls <= 1)%nat.

(** The buffers given to [socket.write], in order. *)
Definition written_frames (t : list effect) : list Buffer :=
  flat_map (fun e => match e with SocketWrite w => [w] | _ => [] end) t.

(** Every frame written so far has the mask bit that the role of the
    connection asks for. *)
Definition masks_as (m : bool) (c : connection) : Prop :=
  toMaskOwnMessages c = m
  /\ Forall (fun w => frame_masked w = m) (written_frames (trace c)).

(** The date of the last chunk of an execution; [date] when it has none. *)
Fixpoint last_chunk_date (date : Z) (events : list event) : Z :=
  match events with
  | [] => date
  | SocketOnData now _ _ :: rest => last_chunk_date now rest
  | _ :: rest => last_chunk_date date rest
  end.

(** What one chunk can make the parser do to the socket. *)
Inductive chunk_socket_calls (r : Buffer) (c c' : connection)
  : list effect -> Prop :=
| ChunkSilent : isAlive c' = isAlive c -> chunk_socket_calls r c c' []
| ChunkPong :
    isAlive c' = isAlive c ->
    chunk_socket_calls r c c' [SocketWrite (frameDataPong c)]
| ChunkDrop (statusCode : Z) :
    isAlive c = true -> isAlive c' = false ->
    chunk_socket_calls r c c'
      [SocketWrite (createCloseFrame statusCode (toMaskOwnMessages c) r);
       SocketEnd].

Definition is_socket_end (e : effect) : bool :=
  match e with
  | SocketEnd => true
  | _ => false
  end.

(** How many times [socket.end] was called. *)
Definition socket_ends (t : list effect) : nat :=
  List.length (filter is_socket_end t).

Definition is_close_frame (e : effect) : bool :=
  match e with
  | SocketWrite w => frame_opCode w =? OPCODE_CONNECTION_CLOSE
  | _ => false
  end.

(** Outside a message nothing is buffered and no payload is awaited. *)
Definition idle_is_empty (c : connection) : Prop :=
  isReadingMessage c = false ->
  payloadBuffers c = [] /\ remainingLength c = 0.

(** How many close frames were written. *)
Definition close_frames (t : list effect) : nat :=
  List.length (filter is_close_frame t).

(** A connection has called [socket.end] once when it is dead and never
    while it is alive, each time right after it wrote a close frame. *)
Definition ended_when_dead (c : connection) : Prop :=
  socket_ends (trace c) = (if isAlive c then 0 else 1)%nat
  /\ close_frames (trace c) = socket_ends (trace c).

(** The reassembly state of the parser. *)
Definition message_state (c : connection) :=
  (isReadingMessage c, payloadOpCode c, payloadBuffers c, remainingLength c).

(** The error kind of [readDataFrameHeader] for a chunk that ends inside
    the header it starts: the first of the four length checks that
    fails. *)
Definition cut_header_error (b : Buffer) : string :=
  if byteLength b <? 2 then "ERR_INAVLID_DATA_FRAME_H2"
  else if (frame_length7 b =? 126) && (byteLength b <? 2 + 2)
  then "ERR_INAVLID_DATA_FRAME_P16"
  else if (frame_length7 b =? 127) && (byteLength b <? 2 + 8)
  then "ERR_INAVLID_DATA_FRAME_P64"
  else "ERR_MASKING_KEY_MISSING".


(** What a chunk that [readDataFrameHeader] rejects leaves: the
    connection is dead, the trace has the [onSync] call and the effects of
    the drop, and the reassembly state is as it was. *)
Definition dropped_with (now : Z) (r : Buffer) (statusCode : Z)
  (appCode : string) (c c' : connection) : Prop :=
  isOpen c' = false
  /\ trace c' = trace c ++ sync_effects now c
                  ++ drop_trace r statusCode appCode c
  /\ message_state c' = message_state c.

(** ** Frames on the wire *)

(** A frame as a peer sends it: the FIN bit and the opcode, the mask bit
    and the length in the shortest form, the masking key of a masked
    frame, and the payload, masked with the key. *)
Definition wire_payload (toMask : bool) (key payload : Buffer) : Buffer :=
  if toMask then mask_from key 0 payload else payload.

Definition wire_frame (fin : bool) (opCode : Z) (toMask : bool)
  (key payload : Buffer) : Buffer :=
  [(if fin then 128 else 0) + opCode;
   mask_bit toMask + length_code (byteLength payload)]
    ++ extended_length (byteLength payload) ++ key
    ++ wire_payload toMask key payload.

(** A message cut into fragments: the first frame has the opcode of the
    message, the others are continuation frames, the last one alone has
    the FIN bit. Each fragment comes with its masking key. *)
Fixpoint fragments (opCode : Z) (toMask : bool)
  (pieces : list (Buffer * Buffer)) : Buffer :=
  match pieces with
  | [] => []
  | (key, payload) :: rest =>
      wire_frame (match rest with [] => true | _ => false end)
        opCode toMask key payload
        ++ fragments OPCODE_CONTINUATION_FRAME toMask rest
  end.

(** A fragment the parser can take: octets, no more than a buffer can
    hold, with a four-byte key when masked and none otherwise. *)
Definition piece_ok (toMask : bool) (piece : Buffer * Buffer) : Prop :=
  Forall octet (snd piece)
  /\ byteLength (snd piece) <= MAX_LENGTH
  /\ byteLength (fst piece) = (if toMask then MASKING_KEY_SIZE else 0).

(** The call of the message handler that [onFrameComplete] makes for a
    message of the given opcode and payload. *)
Definition message_effects (c : connection) (opCode : Z) (data : Buffer)
  : list effect :=
  if opCode =? OPCODE_BINARY_FRAME then
    if onBinaryMessage c then [Callback (HostBinary data)] else []
  else if opCode =? OPCODE_TEXT_FRAME then
    if onTextMessage c then [Callback (HostText (Buffer_toString_utf8 data))]
    else []
  else [].

(** The frame state after the header of a wire frame. *)
Definition wire_frame_state (c : connection) (fin toMask : bool)
  (key : Buffer) : connection :=
  let c := set_isMasked toMask (set_isFinSet fin c) in
  if toMask then set_maskingKey (Some key) c else c.

(** The connection when the payload of a frame has been taken: what the
    header reader set, the payload appended to [payloadBuffers], nothing
    awaited. *)
Definition frame_taken (c : connection) (fin : bool) (opCode : Z)
  (toMask : bool) (key payload : Buffer) : connection :=
  let c := wire_frame_state c fin toMask key in
  let c :=
    if opCode =? OPCODE_CONTINUATION_FRAME then c
    else set_payloadBuffers []
           (set_payloadOpCode opCode (set_isReadingMessage true c)) in
  set_remainingLength 0
    (set_payloadBuffers (payloadBuffers c ++ [payload])
       (set_maskingIndex
          (if toMask then Z.rem (byteLength payload) MASKING_KEY_SIZE else 0)
          c)).

(** The frame fits the reassembly state: a continuation frame inside a
    message, a text or binary frame outside. *)
Definition opCode_fits (c : connection) (opCode : Z) : Prop :=
  (opCode = OPCODE_CONTINUATION_FRAME /\ isReadingMessage c = true)
  \/ ((opCode = OPCODE_TEXT_FRAME \/ opCode = OPCODE_BINARY_FRAME)
      /\ isReadingMessage c = false).

(** The opcode and the payload so far of the message that a frame of the
    given opcode belongs to. *)
Definition message_opCode (c : connection) (opCode : Z) : Z :=
  if opCode =? OPCODE_CONTINUATION_FRAME then payloadOpCode c else opCode.

Definition message_prefix (c : connection) (opCode : Z) : Buffer :=
  if opCode =? OPCODE_CONTINUATION_FRAME then List.concat (payloadBuffers c)
  else [].

(** The fragments of a message, one chunk each, received at the given
    dates. *)
Fixpoint fragment_chunks (opCode : Z) (toMask : bool)
  (pieces : list (Z * (Buffer * Buffer))) : list (Z * Buffer) :=
  match pieces with
  | [] => []
  | (date, (key, payload)) :: rest =>
      (date,
       wire_frame (match rest with [] => true | _ => false end)
         opCode toMask key payload)
        :: fragment_chunks OPCODE_CONTINUATION_FRAME toMask rest
  end.

(** ** Well-formed strings *)

(** [s.isWellFormed()]: code units, with every surrogate in a pair. *)
Fixpoint isWellFormed (s : jsstring) : bool :=
  match s with
  | [] => true
  | u :: rest =>
      if is_high_surrogate u then
        match rest with
        | l :: rest' => is_low_surrogate l && isWellFormed rest'
        | [] => false
        end
      else
        (0 <=? u) && (u <? 65536) && negb (is_low_surrogate u)
        && isWellFormed rest
  end.

(** A Unicode scalar value: a code point that is not a surrogate. *)
Definition scalar_value (c : Z) : Prop :=
  0 <= c < 1114112 /\ ~ (55296 <= c < 57344).

(** The octet [x] starts a sequence of [n] more octets that lie between
    [lo] and [hi], with [c] as the bits of the code point it holds. *)
Definition lead_is (x c n lo hi : Z) : bool :=
  match utf8_lead_of x with
  | LeadStart c' n' lo' hi' =>
      (c' =? c) && (n' =? n) && (lo' =? lo) && (hi' =? hi)
  | LeadEmit _ => false
  end.

(** ** Close frames *)

(** The four decimal digits of [code], in ASCII. *)
Definition decimal_digits (code : Z) : Buffer :=
  [48 + code / 1000; 48 + code / 100 mod 10; 48 + code / 10 mod 10;
   48 + code mod 10].

(** [P] holds of [start], [start + 1], ... ([n] integers). *)
Fixpoint forall_from (n : nat) (start : Z) (P : Z -> bool) : bool :=
  match n with
  | O => true
  | S n' => P start && forall_from n' (start + 1) P
  end.

Definition Buffer_equals (a b : Buffer) : bool :=
  (List.length a =? List.length b)%nat
  && forallb (fun p => fst p =? snd p) (combine a b).

(** A platform for examples: [toLowerCase] on ASCII letters only, a
    digest and a base64 length that are not those of Node. *)
Definition ascii_toLowerCase (s : jsstring) : jsstring :=
  map (fun u => if (65 <=? u) && (u <=? 90) then u + 32 else u) s.

Definition example_platform : platform :=
  {| toLowerCase := ascii_toLowerCase;
     sha1_digest_base64 := fun data => js "s3pPLMBiTxaQ9kYGzzhZRbK+xOo=";
     base64_decoded_length := fun s => Z.of_nat (List.length s) / 4 * 3 - 2 |}.

(** ** The handshake, seen from outside *)

(** The platform lower-cases ASCII strings letter by letter, as
    [toLowerCase] does. *)
Definition is_ascii (u : Z) : bool := (0 <=? u) && (u <? 128).

Definition lowercases_ascii (P : platform) : Prop :=
  forall s : jsstring,
    forallb is_ascii s = true -> toLowerCase P s = ascii_toLowerCase s.

(** A string that is not empty and has no white space at its ends:
    [trim] leaves it as it is. *)
Definition plain_ends (s : jsstring) : bool :=
  match s, rev s with
  | u :: _, w :: _ => negb (is_white_space u) && negb (is_white_space w)
  | _, _ => false
  end.

Definition has_unit (u : Z) (s : jsstring) : bool := existsb (Z.eqb u) s.

(** A token of a comma-separated header. *)
Definition list_token (s : jsstring) : bool :=
  plain_ends s && negb (has_unit 44 s).

(** A header value that is written on one line and read back as it is:
    not empty, no white space at its ends, no carriage return, and
    well-formed UTF-16. *)
Definition header_value (s : jsstring) : bool :=
  plain_ends s && negb (has_unit 13 s) && isWellFormed s.

(** * Properties *)

(** ** Frame codec *)

Example createMessageFrame_hello :
  createMessageFrame OPCODE_TEXT_FRAME (Buffer_from_utf8 (js "Hello")) true
    [55; 250; 33; 61]
  = [129; 133; 55; 250; 33; 61; 127; 159; 77; 81; 88].
Proof. reflexivity. Qed.

Example createCloseFrame_1000 :
  createCloseFrame 1000 false [] = [136; 4; 49; 48; 48; 48].
Proof. reflexivity. Qed.

Example to_double_rounds :
  to_double (2 ^ 53 + 1) = 2 ^ 53 /\ to_double (2 ^ 53 + 3) = 2 ^ 53 + 4
  /\ to_double (2 ^ 64 - 1) = 2 ^ 64 /\ to_double MAX_LENGTH = MAX_LENGTH.
Proof. repeat split; vm_compute; reflexivity. Qed.

(** A client answers a ping with the masked pong frame. *)
Example ping_answered_with_masked_pong :
  option_map trace (onData 1 [] [137; 0] (client 0))
  = Some [SocketWrite [138; 128; 0; 0; 0; 0]].
Proof. vm_compute. reflexivity. Qed.

Example utf8_round_example :
  Buffer_toString_utf8 [226; 130; 172; 240; 159; 152; 128; 255; 104]
  = [8364; 55357; 56832; 65533; 104]
  /\ Buffer_from_utf8 [8364; 55357; 56832; 65533; 104]
     = [226; 130; 172; 240; 159; 152; 128; 239; 191; 189; 104].
Proof. split; reflexivity. Qed.

(** ** Basic facts *)

Ltac break_if :=
  match goal with
  | |- context [if ?b then _ else _] => destruct b eqn:?
  | H : context [if ?b then _ else _] |- _ => destruct b eqn:?
  end.

Ltac zbool :=
  repeat match goal with
  | H : (_ <? _) = true |- _ => apply Z.ltb_lt in H
  | H : (_ <? _) = false |- _ => apply Z.ltb_ge in H
  | H : (_ <=? _) = true |- _ => apply Z.leb_le in H
  | H : (_ <=? _) = false |- _ => apply Z.leb_gt in H
  | H : (_ =? _) = true |- _ => apply Z.eqb_eq in H
  | H : (_ =? _) = false |- _ => apply Z.eqb_neq in H
  | H : (_ >? _) = true |- _ => rewrite Z.gtb_ltb in H; apply Z.ltb_lt in H
  | H : (_ >? _) = false |- _ => rewrite Z.gtb_ltb in H; apply Z.ltb_ge in H
  end.

Lemma byteLength_nonneg (b : Buffer) : 0 <= byteLength b.
Proof. unfold byteLength. lia. Qed.

Lemma byteLength_app (a b : Buffer) :
  byteLength (a ++ b) = byteLength a + byteLength b.
Proof. unfold byteLength. rewrite length_app. lia. Qed.

Lemma slice_prefix (b : Buffer) (n : Z) :
  0 <= n -> slice b 0 n = firstn (Z.to_nat n) b.
Proof.
  intros Hn. unfold slice, clamp_index.
  pose proof (byteLength_nonneg b) as Hb.
  replace (0 <? 0) with false by reflexivity.
  destruct (n <? 0) eqn:E; [zbool; lia|].
  rewrite (Z.min_l 0) by lia. simpl skipn. rewrite Z.sub_0_r.
  destruct (Z.le_ge_cases n (byteLength b)) as [Hle|Hge].
  - rewrite Z.min_l by lia. reflexivity.
  - rewrite Z.min_r by lia. unfold byteLength in *.
    rewrite Nat2Z.id. rewrite firstn_all. symmetry. apply firstn_all2. lia.
Qed.

Lemma slice_from_skipn (b : Buffer) (n : Z) :
  0 <= n -> slice_from b n = skipn (Z.to_nat n) b.
Proof.
  intros Hn. unfold slice_from, slice, clamp_index.
  pose proof (byteLength_nonneg b) as Hb.
  destruct (n <? 0) eqn:E; [zbool; lia|].
  destruct (byteLength b <? 0) eqn:E'; [zbool; lia|].
  rewrite (Z.min_l (byteLength b)) by lia.
  destruct (Z.le_ge_cases n (byteLength b)) as [Hle|Hge].
  - rewrite Z.min_l by lia. apply firstn_all2.
    rewrite length_skipn. unfold byteLength in *. lia.
  - rewrite Z.min_r by lia. rewrite Z.sub_diag. simpl firstn.
    symmetry. apply skipn_all2. unfold byteLength in *. lia.
Qed.

Lemma slice_length_le (b : Buffer) (s e : Z) :
  (List.length (slice b s e) <= List.length b)%nat.
Proof.
  unfold slice. rewrite length_firstn, length_skipn. lia.
Qed.

Lemma slice_from_length_le (b : Buffer) (n : Z) :
  2 <= n -> 2 <= byteLength b ->
  (List.length (slice_from b n) + 2 <= List.length b)%nat.
Proof.
  intros Hn Hb. rewrite slice_from_skipn by lia.
  rewrite length_skipn. unfold byteLength in Hb. lia.
Qed.

Lemma to_double_small (n : Z) : 0 <= n <= MAX_LENGTH -> to_double n = n.
Proof.
  unfold MAX_LENGTH, to_double, round_magnitude. intros H.
  rewrite Z.abs_eq by lia.
  destruct (n <? 2 ^ 53) eqn:E; [|zbool; lia].
  destruct (Z.eq_dec n 0) as [->|Hn]; [reflexivity|].
  rewrite Z.sgn_pos by lia. lia.
Qed.

Lemma js_sub_small (a b : Z) : 0 <= b <= a -> a <= MAX_LENGTH -> js_sub a b = a - b.
Proof. intros. unfold js_sub. apply to_double_small. lia. Qed.

Lemma js_sub_diag (a : Z) : js_sub a a = 0.
Proof. unfold js_sub. rewrite Z.sub_diag. reflexivity. Qed.

(** ** The header reader, case by case *)

Lemma header_accepted_length (c : connection) (b : Buffer) :
  header_accepted c b = true -> 2 <= byteLength b.
Proof.
  unfold header_accepted, frame_header_size, frame_key_index, MASKING_KEY_SIZE.
  intros H. apply andb_prop in H as [H _]. apply andb_prop in H as [H _].
  zbool. repeat break_if; lia.
Qed.

Lemma readDataFrameHeader_fields_accepted
  (r : Buffer) (c : connection) (b : Buffer) :
  header_accepted c b = true ->
  readDataFrameHeader_fields r c b =
    (c' <- readDataFrameHeader_opCode r (frame_state c b) (frame_opCode b) ;;
     Next (set_remainingLength (frame_payloadLength b) (set_maskingIndex 0 c'),
           frame_header_size b)).
Proof.
  intros H. pose proof (header_accepted_length _ _ H) as Hlen.
  unfold header_accepted in H.
  apply andb_prop in H as [H Hmask]. apply andb_prop in H as [Hsize Hrsv].
  apply negb_true_iff in Hrsv.
  unfold readDataFrameHeader_fields.
  destruct (byteLength b <? 2) eqn:E; [zbool; lia|].
  fold (frame_fin b). fold (frame_reserved b).
  rewrite Hrsv. fold (frame_opCode b). fold (frame_masked b).
  fold (frame_length7 b).
  unfold frame_state, frame_header_size, frame_key_index, frame_payloadLength
    in *.
  assert (Hpm : isPeerMaskingRequired
                  (set_isMasked (frame_masked b) (set_isFinSet (frame_fin b) c))
                && negb (isMasked
                  (set_isMasked (frame_masked b) (set_isFinSet (frame_fin b) c)))
                = false).
  { simpl. destruct (isPeerMaskingRequired c), (frame_masked b);
      simpl in *; congruence. }
  rewrite Hpm. clear Hpm.
  unfold MASKING_KEY_SIZE in *.
  destruct (frame_length7 b =? 126) eqn:E126;
    [|destruct (frame_length7 b =? 127) eqn:E127];
    destruct (frame_masked b) eqn:Em; simpl;
    zbool;
    repeat first
      [ progress cbn [flow_bind]
      | match goal with
        | |- context [?x <? ?y] => destruct (Z.ltb_spec x y); [lia|]
        end ];
    reflexivity.
Qed.

Lemma readDataFrameHeader_opCode_next
  (r : Buffer) (c c' : connection) (opCode : Z) :
  readDataFrameHeader_opCode r c opCode = Next c' ->
  (opCode = OPCODE_CONTINUATION_FRAME /\ isReadingMessage c = true /\ c' = c)
  \/ ((opCode = OPCODE_TEXT_FRAME \/ opCode = OPCODE_BINARY_FRAME)
      /\ isReadingMessage c = false
      /\ c' = set_payloadBuffers []
                (set_payloadOpCode opCode (set_isReadingMessage true c))).
Proof.
  unfold readDataFrameHeader_opCode. intros H.
  destruct (opCode =? OPCODE_CONNECTION_CLOSE); [discriminate|].
  destruct (opCode =? OPCODE_CONTINUATION_FRAME) eqn:E0.
  - destruct (isReadingMessage c); simpl in H; [|discriminate].
    left. zbool. inversion H. auto.
  - destruct ((opCode =? OPCODE_TEXT_FRAME) || (opCode =? OPCODE_BINARY_FRAME))
      eqn:E12.
    + destruct (isReadingMessage c); [discriminate|].
      right. inversion H. apply orb_prop in E12.
      destruct E12; zbool; auto.
    + repeat break_if; discriminate.
Qed.

Lemma readDataFrameHeader_fields_next
  (r : Buffer) (c c' : connection) (b : Buffer) (idx : Z) :
  readDataFrameHeader_fields r c b = Next (c', idx) ->
  header_accepted c b = true.
Proof.
  unfold readDataFrameHeader_fields, header_accepted.
  destruct (byteLength b <? 2) eqn:E; [discriminate|].
  fold (frame_fin b). fold (frame_reserved b).
  destruct (frame_reserved b) eqn:Hrsv; [discriminate|].
  fold (frame_opCode b). fold (frame_masked b). fold (frame_length7 b).
  unfold frame_header_size, frame_key_index, MASKING_KEY_SIZE.
  simpl isPeerMaskingRequired. simpl isMasked.
  destruct (isPeerMaskingRequired c) eqn:Hp, (frame_masked b) eqn:Hm;
    simpl; try discriminate;
    (destruct (frame_length7 b =? 126) eqn:E126;
     [|destruct (frame_length7 b =? 127) eqn:E127]);
    intros H; zbool;
    repeat first
      [ progress cbn [flow_bind] in H
      | match type of H with
        | context [?x <? ?y] => destruct (Z.ltb_spec x y)
        end ];
    try discriminate; rewrite ?andb_true_r; apply Z.leb_le; lia.
Qed.

Lemma readDataFrameHeader_fields_index
  (r : Buffer) (c c' : connection) (b : Buffer) (idx : Z) :
  readDataFrameHeader_fields r c b = Next (c', idx) ->
  idx = frame_header_size b /\ 2 <= idx <= byteLength b.
Proof.
  intros H. pose proof (readDataFrameHeader_fields_next _ _ _ _ _ H) as Ha.
  rewrite (readDataFrameHeader_fields_accepted _ _ _ Ha) in H.
  destruct (readDataFrameHeader_opCode r (frame_state c b) (frame_opCode b));
    simpl in H; [discriminate|].
  inversion H; subst. split; [reflexivity|].
  unfold header_accepted in Ha.
  apply andb_prop in Ha as [Ha _]. apply andb_prop in Ha as [Ha _]. zbool.
  split; [|exact Ha].
  unfold frame_header_size, frame_key_index, MASKING_KEY_SIZE.
  repeat break_if; lia.
Qed.

(** ** The payload reader, in two steps *)

Lemma unmask_length (key : Buffer) (i : Z) (bytes : Buffer) :
  List.length (fst (unmask key i bytes)) = List.length bytes.
Proof.
  revert i. induction bytes as [|b rest IH]; intros i; [reflexivity|].
  simpl. specialize (IH (Z.rem (i + 1) MASKING_KEY_SIZE)).
  destruct (unmask key (Z.rem (i + 1) MASKING_KEY_SIZE) rest). simpl in *.
  congruence.
Qed.

Lemma slice_from_unmasked (buffer u : Buffer) (n : Z) :
  List.length u = List.length (firstn (Z.to_nat n) buffer) ->
  n <= byteLength buffer ->
  slice_from (u ++ skipn (Z.to_nat n) buffer) n = slice_from buffer n.
Proof.
  intros Hu Hn. destruct (Z.lt_ge_cases n 0) as [Hneg|Hpos].
  - replace (Z.to_nat n) with 0%nat in * by lia. simpl in Hu.
    destruct u; [|discriminate]. reflexivity.
  - rewrite !slice_from_skipn by lia.
    rewrite length_firstn in Hu.
    rewrite skipn_app. rewrite (skipn_all2 u) by lia.
    replace (Z.to_nat n - List.length u)%nat with 0%nat.
    + reflexivity.
    + unfold byteLength in Hn. lia.
Qed.

Lemma onFrameComplete_remainingLength (c : connection) :
  remainingLength (onFrameComplete c) = remainingLength c.
Proof. unfold onFrameComplete. repeat break_if; reflexivity. Qed.

Lemma readDataFramePayload_with_steps
  (k : connection -> Buffer -> option connection)
  (c : connection) (buffer : Buffer) :
  readDataFramePayload_with k c buffer =
    if reads_on c buffer then
      k (after_payload c buffer) (slice_from buffer (payload_length c buffer))
    else Some (after_payload c buffer).
Proof.
  unfold reads_on, after_payload, readDataFramePayload_with, payload_length.
  set (n := Z.min (byteLength buffer) (remainingLength c)).
  assert (Hn : n <= byteLength buffer) by (subst n; lia).
  assert (Hstep : forall c2 rest,
    let done :=
      if isFinSet c2 then onFrameComplete (set_maskingKey None c2) else c2 in
    let left :=
      match
        (if remainingLength c2 =? 0 then
           if byteLength buffer >? n then Some done else Some done
         else Some c2)
      with
      | Some c' => c'
      | None => c
      end in
    (if remainingLength c2 =? 0 then
       if byteLength buffer >? n then k done rest else Some done
     else Some c2)
    = (if (remainingLength left =? 0) && (byteLength buffer >? n)
       then k left rest else Some left)).
  { intros c2 rest. cbv zeta. destruct (remainingLength c2 =? 0) eqn:E0.
    - destruct (byteLength buffer >? n).
      + destruct (isFinSet c2).
        * rewrite onFrameComplete_remainingLength. simpl remainingLength.
          rewrite E0. reflexivity.
        * rewrite E0. reflexivity.
      + rewrite andb_false_r. reflexivity.
    - rewrite E0. reflexivity. }
  destruct (isMasked c).
  - pose proof (unmask_length (key_bytes (maskingKey c)) (maskingIndex c)
                  (firstn (Z.to_nat n) buffer)) as Hlen.
    destruct (unmask (key_bytes (maskingKey c)) (maskingIndex c)
                (firstn (Z.to_nat n) buffer)) as [u i].
    simpl in Hlen.
    rewrite (slice_from_unmasked buffer u n Hlen Hn).
    cbv zeta. apply Hstep.
  - cbv zeta. apply Hstep.
Qed.

(** ** Fuel *)

Lemma readDataFrameHeader_total (r : Buffer) (fuel : nat) :
  forall (c : connection) (b : Buffer),
    (List.length b < fuel)%nat ->
    exists c', readDataFrameHeader fuel r c b = Some c'.
Proof.
  induction fuel as [|fuel IH]; intros c b Hb; [lia|].
  simpl. destruct (readDataFrameHeader_fields r c b) as [c'|[c' idx]] eqn:Hf.
  - eauto.
  - apply readDataFrameHeader_fields_index in Hf as [_ Hidx].
    rewrite readDataFramePayload_with_steps.
    destruct (reads_on c' (slice_from b idx)); [|eauto].
    apply IH.
    pose proof (slice_from_length_le b idx ltac:(lia) ltac:(lia)).
    pose proof (slice_length_le (slice_from b idx)
                  (payload_length c' (slice_from b idx))
                  (byteLength (slice_from b idx))).
    unfold slice_from at 1. lia.
Qed.

Lemma readDataFrameHeader_fuel (r : Buffer) (fuel : nat) :
  forall (fuel' : nat) (c c' : connection) (b : Buffer),
    readDataFrameHeader fuel r c b = Some c' ->
    (fuel <= fuel')%nat ->
    readDataFrameHeader fuel' r c b = Some c'.
Proof.
  induction fuel as [|fuel IH]; intros fuel' c c' b H Hle; [discriminate|].
  destruct fuel' as [|fuel']; [lia|].
  simpl in *. destruct (readDataFrameHeader_fields r c b) as [|[c1 idx]];
    [exact H|].
  rewrite readDataFramePayload_with_steps in *.
  destruct (reads_on c1 (slice_from b idx)); [|exact H].
  apply IH; [exact H|lia].
Qed.

(** With fuel above the length of the chunk, the result does not depend
    on the fuel. *)
Lemma readDataFrameHeader_enough (r : Buffer) (fuel : nat)
  (c : connection) (b : Buffer) :
  (List.length b < fuel)%nat ->
  readDataFrameHeader fuel r c b = readDataFrameHeader (enough_fuel b) r c b.
Proof.
  intros H.
  destruct (readDataFrameHeader_total r (enough_fuel b) c b) as [c' Hc'];
    [unfold enough_fuel; lia|].
  rewrite Hc'. apply readDataFrameHeader_fuel with (fuel := enough_fuel b);
    [exact Hc'|unfold enough_fuel; lia].
Qed.

Lemma onData_total (now : Z) (r : Buffer) (buffer : Buffer) (c : connection) :
  exists c', onData now r buffer c = Some c'.
Proof.
  unfold onData, readDataFramePayload.
  set (c1 := if onSync (set_lastSyncDate now c) then _ else _).
  destruct (remainingLength c1 =? 0).
  - apply readDataFrameHeader_total. unfold enough_fuel. lia.
  - rewrite readDataFramePayload_with_steps.
    destruct (reads_on c1 buffer); [|eauto].
    apply readDataFrameHeader_total.
    pose proof (slice_length_le buffer (payload_length c1 buffer)
                  (byteLength buffer)).
    unfold slice_from, enough_fuel. lia.
Qed.

Lemma handle_total (e : event) (c : connection) : exists c', handle e c = Some c'.
Proof. destruct e; simpl; eauto using onData_total. Qed.

Lemma run_total (events : list event) :
  forall c, exists c', run events c = Some c'.
Proof.
  induction events as [|e rest IH]; intros c; simpl; [eauto|].
  destruct (handle_total e c) as [c' ->]. apply IH.
Qed.

(** ** Liveness along executions *)

Lemma end_calls_app (t u : list effect) :
  end_calls (t ++ u) = (end_calls t + end_calls u)%nat.
Proof. unfold end_calls. rewrite filter_app, length_app. reflexivity. Qed.

Lemma winds_down_refl (c : connection) : winds_down c c.
Proof. unfold winds_down. lia. Qed.

Lemma winds_down_trans (a b c : connection) :
  winds_down a b -> winds_down b c -> winds_down a c.
Proof. unfold winds_down. lia. Qed.

Lemma end_calls_one (e : effect) :
  end_calls [e] = if is_end e then 1%nat else 0%nat.
Proof. unfold end_calls. simpl. destruct (is_end e); reflexivity. Qed.

Ltac wind :=
  unfold winds_down, ends_left, emit in *; simpl in *;
  rewrite ?end_calls_app, ?end_calls_one in *; simpl in *;
  repeat (break_if; simpl in * );
  rewrite ?end_calls_app, ?end_calls_one in *; simpl in *;
  try congruence; try lia.

Lemma dropConnection_winds_down
  (r : Buffer) (sc : Z) (ac : string) (err : option string) (c : connection) :
  winds_down c (dropConnection r sc ac err c).
Proof.
  unfold dropConnection. destruct (isAlive c) eqn:Ha; simpl.
  - destruct (onEnd c); wind.
  - apply winds_down_refl.
Qed.

Lemma sendPong_winds_down (c : connection) : winds_down c (sendPong c).
Proof. unfold sendPong. wind. Qed.

Lemma onFrameComplete_winds_down (c : connection) :
  winds_down c (onFrameComplete c).
Proof. unfold onFrameComplete. wind. Qed.

Lemma readDataFrameHeader_opCode_winds_down
  (r : Buffer) (c : connection) (opCode : Z) :
  flow_winds_down (fun c' => c') c (readDataFrameHeader_opCode r c opCode).
Proof.
  unfold readDataFrameHeader_opCode.
  repeat break_if; simpl;
    try apply dropConnection_winds_down;
    try apply sendPong_winds_down;
    try apply winds_down_refl.
  wind.
Qed.

Lemma readDataFrameHeader_fields_winds_down
  (r : Buffer) (c : connection) (b : Buffer) :
  flow_winds_down fst c (readDataFrameHeader_fields r c b).
Proof.
  unfold readDataFrameHeader_fields.
  repeat first
    [ progress cbn [flow_bind]
    | match goal with
      | |- context [if ?x then _ else _] => destruct x eqn:?
      end ].
  all: try (simpl; eapply winds_down_trans;
            [|apply dropConnection_winds_down]; wind).
  all: match goal with
       | |- context [readDataFrameHeader_opCode ?r ?c0 ?op] =>
           pose proof (readDataFrameHeader_opCode_winds_down r c0 op) as H;
           destruct (readDataFrameHeader_opCode r c0 op); simpl in *;
           (eapply winds_down_trans; [|eapply winds_down_trans; [exact H|]])
       end.
  all: wind.
Qed.

Lemma after_payload_winds_down (c : connection) (buffer : Buffer) :
  winds_down c (after_payload c buffer).
Proof.
  unfold after_payload, readDataFramePayload_with.
  destruct (isMasked c).
  - destruct (unmask _ _ _) as [u i]. cbv zeta.
    repeat break_if; try apply winds_down_refl;
      try (eapply winds_down_trans; [|apply onFrameComplete_winds_down]);
      wind.
  - cbv zeta.
    repeat break_if; try apply winds_down_refl;
      try (eapply winds_down_trans; [|apply onFrameComplete_winds_down]);
      wind.
Qed.

Lemma readDataFrameHeader_winds_down (r : Buffer) (fuel : nat) :
  forall (c c' : connection) (b : Buffer),
    readDataFrameHeader fuel r c b = Some c' -> winds_down c c'.
Proof.
  induction fuel as [|fuel IH]; intros c c' b H; [discriminate|].
  simpl in H.
  pose proof (readDataFrameHeader_fields_winds_down r c b) as Hf.
  destruct (readDataFrameHeader_fields r c b) as [c1|[c1 idx]]; simpl in Hf.
  - inversion H; subst. exact Hf.
  - rewrite readDataFramePayload_with_steps in H.
    pose proof (after_payload_winds_down c1 (slice_from b idx)) as Hp.
    destruct (reads_on c1 (slice_from b idx)).
    + apply IH in H. eauto using winds_down_trans.
    + inversion H; subst. eauto using winds_down_trans.
Qed.

Lemma onData_winds_down
  (now : Z) (r : Buffer) (buffer : Buffer) (c c' : connection) :
  onData now r buffer c = Some c' -> winds_down c c'.
Proof.
  unfold onData, readDataFramePayload.
  set (c1 := if onSync (set_lastSyncDate now c) then _ else _).
  assert (H1 : winds_down c c1) by (subst c1; wind).
  destruct (remainingLength c1 =? 0).
  - intros H. apply readDataFrameHeader_winds_down in H.
    eauto using winds_down_trans.
  - rewrite readDataFramePayload_with_steps.
    pose proof (after_payload_winds_down c1 buffer) as Hp.
    destruct (reads_on c1 buffer); intros H.
    + apply readDataFrameHeader_winds_down in H.
      eauto using winds_down_trans.
    + inversion H; subst. eauto using winds_down_trans.
Qed.

Lemma handle_winds_down (e : event) (c c' : connection) :
  handle e c = Some c' -> winds_down c c'.
Proof.
  destruct e; simpl; intros H;
    try (apply onData_winds_down in H; exact H);
    inversion H; subst;
    try apply dropConnection_winds_down;
    unfold sendTextMessage, sendBinaryMessage, sendPing; wind.
Qed.

Lemma run_winds_down (events : list event) :
  forall c c', run events c = Some c' -> winds_down c c'.
Proof.
  induction events as [|e rest IH]; intros c c' H; simpl in H.
  - inversion H; subst. apply winds_down_refl.
  - destruct (handle e c) as [c1|] eqn:He; [|discriminate].
    apply handle_winds_down in He. apply IH in H.
    eauto using winds_down_trans.
Qed.

(** Evaluates an execution to exhibit the connection it ends in. *)
Ltac evaluate_run :=
  match goal with
  | |- exists c', ?e = Some c' /\ _ =>
      let v := eval vm_compute in e in
      match v with
      | Some ?x => exists x; split; [vm_compute; reflexivity|]
      end
  end.

(** ** Scenario: one masked text frame *)

(** C1. A server-role connection with a text handler installed that
    receives the masked text frame 81 85 37 fa 21 3d 7f 9f 4d 51 58 as one
    chunk invokes the text handler once, with "Hello", invokes no other
    message handler (only [onSync], when installed, precedes it), writes
    nothing, and stays alive. *)
Theorem hello_frame_delivers_text :
  forall (now date : Z) (r : Buffer) (binary sync end_ : bool),
  exists c',
    onData date r hello_frame (server_with_text now binary sync end_) = Some c'
    /\ trace c' =
         (if sync then [Callback (HostSync date)] else [])
           ++ [Callback (HostText (js "Hello"))]
    /\ deliveries (trace c') = [HostText (js "Hello")]
    /\ isOpen c' = true.
Proof.
  intros now date r binary sync end_.
  destruct binary, sync, end_; evaluate_run; repeat split; reflexivity.
Qed.

(** ** The transport port of a client connection *)

(** C8. With no port in the URL, [createClientConnection] connects to port
    433 when the protocol is [https:] and to port 80 for every other
    protocol, [wss:] included: the default is never 443. *)
Theorem inferredPort_default_never_443 :
  inferredPort "https:" "" = 433
  /\ inferredPort "wss:" "" = 80
  /\ inferredPort "ws:" "" = 80
  /\ forall protocol : string, inferredPort protocol "" <> 443.
Proof.
  repeat split; try reflexivity.
  intros protocol. unfold inferredPort. simpl.
  destruct (isHttps protocol); discriminate.
Qed.

(** ** Termination of a connection *)

Lemma dropConnection_alive (r : Buffer) (statusCode : Z) (appCode : string)
  (error : option string) (c : connection) :
  isAlive c = true ->
  dropConnection r statusCode appCode error c
  = set_trace (trace c ++ drop_effects r statusCode appCode error c)
      (set_isAlive false c).
Proof.
  intros Ha. unfold dropConnection, drop_effects, emit. rewrite Ha. simpl.
  destruct (onEnd c); simpl; rewrite <- ?app_assoc; reflexivity.
Qed.

Lemma dropConnection_dead (r : Buffer) (statusCode : Z) (appCode : string)
  (error : option string) (c : connection) :
  isAlive c = false -> dropConnection r statusCode appCode error c = c.
Proof. intros Ha. unfold dropConnection. rewrite Ha. reflexivity. Qed.

(** C5, as the code has it. [dropConnection] returns the connection
    unchanged when [isAlive] is false; otherwise it sets [isAlive] to
    false, writes a close frame, half-closes the socket and then invokes
    [onEnd], when installed, once. After it, no execution makes the
    connection alive again or invokes [onEnd] again; and along every
    execution of a new connection [onEnd] is invoked at most once, and not
    at all while the connection is alive. *)
Theorem dropConnection_terminal :
  forall (r : Buffer) (statusCode : Z) (appCode : string)
         (error : option string) (c : connection),
    let d := dropConnection r statusCode appCode error c in
    (isAlive c = false -> d = c)
    /\ (isAlive c = true ->
        isOpen d = false
        /\ trace d = trace c ++ drop_effects r statusCode appCode error c
        /\ end_calls (drop_effects r statusCode appCode error c)
           = (if onEnd c then 1%nat else 0%nat))
    /\ (forall events : list event,
        exists c', run events d = Some c'
          /\ isOpen c' = false
          /\ end_calls (trace c') = end_calls (trace d))
    /\ (forall (events : list event) (p m : bool) (now : Z),
        exists c', run events (WebSocketConnection p m now) = Some c'
          /\ (end_calls (trace c') <= 1)%nat
          /\ (isOpen c' = true -> end_calls (trace c') = 0%nat)).
Proof.
  intros r statusCode appCode error c d.
  assert (Hd : isAlive d = false).
  { subst d. unfold dropConnection. destruct (isAlive c) eqn:Ha; simpl;
      [destruct (onEnd c); reflexivity|exact Ha]. }
  split; [|split; [|split]].
  - apply dropConnection_dead.
  - intros Ha. subst d. rewrite (dropConnection_alive _ _ _ _ _ Ha).
    repeat split. unfold drop_effects. destruct (onEnd c); reflexivity.
  - intros events. destruct (run_total events d) as [c' Hc']. exists c'.
    split; [exact Hc'|]. apply run_winds_down in Hc'.
    unfold winds_down, ends_left, isOpen in *. rewrite Hd in Hc'.
    destruct (isAlive c'); split; try reflexivity; lia.
  - intros events p m now.
    destruct (run_total events (WebSocketConnection p m now)) as [c' Hc'].
    exists c'. split; [exact Hc'|]. apply run_winds_down in Hc'.
    unfold winds_down, ends_left, isOpen in *. simpl in Hc'.
    change (end_calls []) with 0%nat in Hc'.
    destruct (isAlive c'); split; try lia; intros; try lia; discriminate.
Qed.

Lemma dropConnection_terminal_witness :
  dropConnection [] 1000 "CLOSED_BY_SELF" None
    (dropConnection [] 1008 "TIMEOUT" None (server 0))
  = dropConnection [] 1008 "TIMEOUT" None (server 0)
  /\ isOpen (dropConnection [] 1000 "CLOSED_BY_SELF" None (server 0)) = false.
Proof.
  split.
  - apply (dropConnection_terminal [] 1000 "CLOSED_BY_SELF"%string None
             (dropConnection [] 1008 "TIMEOUT"%string None (server 0))).
    reflexivity.
  - apply (dropConnection_terminal [] 1000 "CLOSED_BY_SELF"%string None
             (server 0)).
    reflexivity.
Defined.

(** C5 as stated fails on its last clause: the ['data'] listener does not
    look at [isAlive], so a chunk that arrives after the connection was
    dropped is parsed and delivered. A server receives an empty close
    frame and then, in a second chunk, the masked "Hello" frame: the text
    handler is invoked after [onEnd]. *)
Lemma callback_after_onEnd :
  exists c',
    run [SocketOnData 1 [] [136; 128; 0; 0; 0; 0];
         SocketOnData 2 [] hello_frame]
      (server_with_text 0 false false true) = Some c'
    /\ isOpen c' = false
    /\ callbacks (trace c')
       = [HostEnd "CLOSED_BY_PEER" 1000 None; HostText (js "Hello")].
Proof. evaluate_run. repeat split; reflexivity. Qed.

(** ** A header is read from its own bytes only *)

Lemma same_prefix_byte_at (n : Z) (a b : Buffer) (i : Z) :
  same_prefix n a b -> i < n -> byte_at a i = byte_at b i.
Proof.
  unfold same_prefix, byte_at. intros H Hi.
  destruct (i <? 0) eqn:E; [reflexivity|]. zbool.
  assert (Hlt : (Z.to_nat i <? Z.to_nat n)%nat = true)
    by (apply Nat.ltb_lt; lia).
  pose proof (nth_firstn (Z.to_nat n) a (Z.to_nat i) 0) as Ha.
  pose proof (nth_firstn (Z.to_nat n) b (Z.to_nat i) 0) as Hb.
  rewrite Hlt in Ha, Hb. rewrite <- Ha, <- Hb, H. reflexivity.
Qed.

Lemma same_prefix_length (n : Z) (a b : Buffer) :
  same_prefix n a b -> 0 <= n <= byteLength a -> n <= byteLength b.
Proof.
  unfold same_prefix, byteLength. intros H Hn.
  apply (f_equal (@List.length Z)) in H.
  rewrite !length_firstn in H. lia.
Qed.

Lemma same_prefix_slice (n : Z) (a b : Buffer) (s e : Z) :
  same_prefix n a b -> 0 <= s -> s <= e -> e <= n -> n <= byteLength a ->
  slice a s e = slice b s e.
Proof.
  intros H Hs He Hn Ha.
  pose proof (same_prefix_length n a b H ltac:(lia)) as Hb.
  assert (Hslice : forall l : Buffer, n <= byteLength l ->
            slice l s e
            = skipn (Z.to_nat s) (firstn (Z.to_nat e) (firstn (Z.to_nat n) l))).
  { intros l Hl. unfold slice, clamp_index.
    destruct (s <? 0) eqn:Es; [zbool; lia|].
    destruct (e <? 0) eqn:Ee; [zbool; lia|].
    rewrite !Z.min_l by lia.
    rewrite firstn_skipn_comm, firstn_firstn.
    replace (Z.to_nat s + Z.to_nat (e - s))%nat with (Z.to_nat e) by lia.
    rewrite Nat.min_l by lia. reflexivity. }
  rewrite (Hslice a Ha), (Hslice b Hb). unfold same_prefix in H.
  rewrite H. reflexivity.
Qed.

Lemma same_prefix_app (n : Z) (a extra : Buffer) :
  n <= byteLength a -> same_prefix n a (a ++ extra).
Proof.
  unfold same_prefix, byteLength. intros H. rewrite firstn_app.
  replace (Z.to_nat n - List.length a)%nat with 0%nat by lia.
  simpl. rewrite app_nil_r. reflexivity.
Qed.

Lemma header_size_bounds (b : Buffer) :
  2 <= frame_key_index b <= frame_header_size b
  /\ (frame_length7 b = 126 -> 4 <= frame_key_index b)
  /\ (frame_length7 b = 127 -> 10 <= frame_key_index b)
  /\ (frame_masked b = true ->
      frame_header_size b = frame_key_index b + MASKING_KEY_SIZE).
Proof.
  unfold frame_header_size, frame_key_index, MASKING_KEY_SIZE.
  repeat break_if; zbool; repeat split; intros; try lia; try discriminate.
Qed.

Lemma header_same_prefix (c : connection) (a b : Buffer) :
  header_accepted c a = true ->
  same_prefix (frame_header_size a) a b ->
  header_accepted c b = true
  /\ frame_state c b = frame_state c a
  /\ frame_opCode b = frame_opCode a
  /\ frame_payloadLength b = frame_payloadLength a
  /\ frame_header_size b = frame_header_size a.
Proof.
  intros Ha Hp.
  pose proof (header_size_bounds a) as (Hki & H126 & H127 & Hm).
  assert (Hsize : frame_header_size a <= byteLength a).
  { unfold header_accepted in Ha. apply andb_prop in Ha as [Ha _].
    apply andb_prop in Ha as [Ha _]. zbool. exact Ha. }
  pose proof (same_prefix_length _ _ _ Hp ltac:(lia)) as Hlen.
  assert (Hbyte : forall i, i < frame_header_size a ->
                            byte_at b i = byte_at a i).
  { intros i Hi. symmetry. eapply same_prefix_byte_at; eassumption. }
  assert (E7 : frame_length7 b = frame_length7 a)
    by (unfold frame_length7; rewrite Hbyte by lia; reflexivity).
  assert (Emask : frame_masked b = frame_masked a)
    by (unfold frame_masked; rewrite Hbyte by lia; reflexivity).
  assert (Efin : frame_fin b = frame_fin a)
    by (unfold frame_fin; rewrite Hbyte by lia; reflexivity).
  assert (Ersv : frame_reserved b = frame_reserved a)
    by (unfold frame_reserved; rewrite Hbyte by lia; reflexivity).
  assert (Eop : frame_opCode b = frame_opCode a)
    by (unfold frame_opCode; rewrite Hbyte by lia; reflexivity).
  assert (Eki : frame_key_index b = frame_key_index a)
    by (unfold frame_key_index; rewrite E7; reflexivity).
  assert (Ehs : frame_header_size b = frame_header_size a)
    by (unfold frame_header_size; rewrite Emask, Eki; reflexivity).
  assert (Elen : frame_payloadLength b = frame_payloadLength a).
  { unfold frame_payloadLength. rewrite E7.
    destruct (frame_length7 a =? 126) eqn:E126;
      [|destruct (frame_length7 a =? 127) eqn:E127]; zbool.
    - specialize (H126 E126). unfold readUInt16BE.
      rewrite !Hbyte by lia. reflexivity.
    - specialize (H127 E127). unfold readBigUInt64BE. simpl.
      rewrite !Hbyte by lia. reflexivity.
    - reflexivity. }
  repeat split; try assumption.
  - unfold header_accepted in *. rewrite Ehs, Ersv, Emask.
    apply andb_prop in Ha as [Ha Ha3]. apply andb_prop in Ha as [Ha1 Ha2].
    rewrite Ha2, Ha3. rewrite andb_true_r. simpl. rewrite andb_true_r.
    apply Z.leb_le. lia.
  - unfold frame_state. rewrite Efin, Emask, Eki.
    destruct (frame_masked a) eqn:Em; [|reflexivity].
    specialize (Hm eq_refl).
    rewrite (same_prefix_slice (frame_header_size a) a b) by
      (try exact Hp; unfold MASKING_KEY_SIZE in *; lia).
    reflexivity.
Qed.

Lemma readDataFrameHeader_fields_same_prefix
  (r : Buffer) (c : connection) (a b : Buffer) :
  header_accepted c a = true ->
  same_prefix (frame_header_size a) a b ->
  readDataFrameHeader_fields r c b = readDataFrameHeader_fields r c a.
Proof.
  intros Ha Hp.
  destruct (header_same_prefix c a b Ha Hp) as (Hb & Es & Eo & El & Eh).
  rewrite (readDataFrameHeader_fields_accepted _ _ _ Ha).
  rewrite (readDataFrameHeader_fields_accepted _ _ _ Hb).
  rewrite Es, Eo, El, Eh. reflexivity.
Qed.

(** ** Opcode discipline and close frames *)

Ltac header_case c buffer :=
  unfold dropConnection, frame_state, emit, drop_trace, drop_effects,
    sync_effects, isOpen;
  simpl;
  destruct (onSync c), (frame_masked buffer); simpl;
  destruct (isAlive c) eqn:?; simpl;
  destruct (onEnd c); simpl;
  rewrite <- ?app_assoc, ?app_nil_r; repeat split;
  try solve [reflexivity | assumption].

(** C4. In header-expected state, a frame whose header passes the checks
    made before the opcode is looked at (the header is whole in the chunk,
    no reserved bit is set, and the frame is masked when the peer has to
    mask) is held to the fragmentation discipline. A continuation frame
    while no message is being read, and a text or binary frame while one
    is, end [readDataFrameHeader] in
    [dropConnection(1002, 'ERR_BAD_CONTINUE_OPCODE')] and
    [dropConnection(1002, 'ERR_BAD_DATA_OPCODE')]: a live connection
    writes the close frame of 1002, half-closes and invokes [onEnd] with
    that error kind and 1002; no message handler is invoked, and the
    reassembly state is left as it was. This holds wherever the header
    reader is called, at the start of a chunk and on the rest of a chunk
    after a data frame; for a frame at the start of a chunk, [onData]
    invokes [onSync] and nothing else before the drop. *)
Theorem opcode_discipline :
  forall (r : Buffer) (buffer : Buffer) (c : connection),
    header_accepted c buffer = true ->
    (frame_opCode buffer = OPCODE_CONTINUATION_FRAME ->
     isReadingMessage c = false ->
     (forall fuel : nat,
        exists c',
          readDataFrameHeader (S fuel) r c buffer = Some c'
          /\ isOpen c' = false
          /\ trace c' = trace c ++ drop_trace r 1002 "ERR_BAD_CONTINUE_OPCODE" c
          /\ payloadBuffers c' = payloadBuffers c
          /\ isReadingMessage c' = false)
     /\ (forall now : Z,
           remainingLength c = 0 ->
           exists c',
             onData now r buffer c = Some c'
             /\ isOpen c' = false
             /\ trace c' = trace c ++ sync_effects now c
                             ++ drop_trace r 1002 "ERR_BAD_CONTINUE_OPCODE" c
             /\ payloadBuffers c' = payloadBuffers c
             /\ isReadingMessage c' = false))
    /\ (frame_opCode buffer = OPCODE_TEXT_FRAME
        \/ frame_opCode buffer = OPCODE_BINARY_FRAME ->
        isReadingMessage c = true ->
        (forall fuel : nat,
           exists c',
             readDataFrameHeader (S fuel) r c buffer = Some c'
             /\ isOpen c' = false
             /\ trace c' = trace c ++ drop_trace r 1002 "ERR_BAD_DATA_OPCODE" c
             /\ payloadBuffers c' = payloadBuffers c
             /\ payloadOpCode c' = payloadOpCode c
             /\ isReadingMessage c' = true)
        /\ (forall now : Z,
              remainingLength c = 0 ->
              exists c',
                onData now r buffer c = Some c'
                /\ isOpen c' = false
                /\ trace c' = trace c ++ sync_effects now c
                                ++ drop_trace r 1002 "ERR_BAD_DATA_OPCODE" c
                /\ payloadBuffers c' = payloadBuffers c
                /\ payloadOpCode c' = payloadOpCode c
                /\ isReadingMessage c' = true)).
Proof.
  intros r buffer c Hacc.
  assert (Hstate : isReadingMessage (frame_state c buffer)
                   = isReadingMessage c).
  { unfold frame_state. destruct (frame_masked buffer); reflexivity. }
  assert (Hheader : forall fuel c',
            readDataFrameHeader_opCode r (frame_state c buffer)
              (frame_opCode buffer) = Return c' ->
            readDataFrameHeader (S fuel) r c buffer = Some c').
  { intros fuel c' Hop. simpl.
    rewrite (readDataFrameHeader_fields_accepted _ _ _ Hacc), Hop.
    reflexivity. }
  assert (Hchunk : forall now,
            remainingLength c = 0 ->
            let c1 := if onSync (set_lastSyncDate now c)
                      then emit (Callback (HostSync now))
                             (set_lastSyncDate now c)
                      else set_lastSyncDate now c in
            isReadingMessage (frame_state c1 buffer) = isReadingMessage c
            /\ forall c',
                 readDataFrameHeader_opCode r (frame_state c1 buffer)
                   (frame_opCode buffer) = Return c' ->
                 onData now r buffer c = Some c').
  { intros now Hrem c1.
    assert (Hrem1 : (remainingLength c1 =? 0) = true).
    { subst c1. destruct (onSync (set_lastSyncDate now c)); simpl;
        rewrite Hrem; reflexivity. }
    assert (Hacc1 : header_accepted c1 buffer = true).
    { subst c1. unfold header_accepted in *.
      destruct (onSync (set_lastSyncDate now c)); exact Hacc. }
    split.
    - subst c1. unfold frame_state.
      destruct (onSync (set_lastSyncDate now c)), (frame_masked buffer);
        reflexivity.
    - intros c' Hop. unfold onData. fold c1. rewrite Hrem1.
      unfold enough_fuel. simpl.
      rewrite (readDataFrameHeader_fields_accepted _ _ _ Hacc1), Hop.
      reflexivity. }
  split.
  - intros Hop Hmsg. split.
    + intros fuel. eexists. split.
      * apply Hheader. unfold readDataFrameHeader_opCode.
        rewrite Hop, Hstate, Hmsg. reflexivity.
      * unfold dropConnection, frame_state, emit, drop_trace, drop_effects,
          isOpen; simpl;
        destruct (frame_masked buffer); simpl;
        destruct (isAlive c) eqn:?; simpl;
        destruct (onEnd c); simpl;
        rewrite <- ?app_assoc, ?app_nil_r; repeat split;
        solve [reflexivity | assumption].
    + intros now Hrem. destruct (Hchunk now Hrem) as [Hread Hdata].
      eexists. split.
      * apply Hdata. unfold readDataFrameHeader_opCode.
        rewrite Hop, Hread, Hmsg. reflexivity.
      * header_case c buffer.
  - intros Hop Hmsg. split.
    + intros fuel. eexists. split.
      * apply Hheader. unfold readDataFrameHeader_opCode.
        rewrite Hstate, Hmsg. destruct Hop as [-> | ->]; reflexivity.
      * unfold dropConnection, frame_state, emit, drop_trace, drop_effects,
          isOpen; simpl;
        destruct (frame_masked buffer); simpl;
        destruct (isAlive c) eqn:?; simpl;
        destruct (onEnd c); simpl;
        rewrite <- ?app_assoc, ?app_nil_r; repeat split;
        solve [reflexivity | assumption].
    + intros now Hrem. destruct (Hchunk now Hrem) as [Hread Hdata].
      eexists. split.
      * apply Hdata. unfold readDataFrameHeader_opCode.
        rewrite Hread, Hmsg. destruct Hop as [-> | ->]; reflexivity.
      * header_case c buffer.
Qed.

Lemma opcode_discipline_witness :
  (exists c',
     onData 1 [] [128; 128; 0; 0; 0; 0] (server_with_text 0 true true true)
       = Some c'
     /\ isOpen c' = false
     /\ trace c' = [Callback (HostSync 1);
                    SocketWrite [136; 4; 49; 48; 48; 50]; SocketEnd;
                    Callback (HostEnd "ERR_BAD_CONTINUE_OPCODE" 1002 None)]
     /\ payloadBuffers c' = []
     /\ isReadingMessage c' = false)
  /\ (exists c',
        onData 1 [] [129; 128; 0; 0; 0; 0]
          (set_isReadingMessage true (server_with_text 0 true true true))
          = Some c'
        /\ isOpen c' = false
        /\ trace c' = [Callback (HostSync 1);
                       SocketWrite [136; 4; 49; 48; 48; 50]; SocketEnd;
                       Callback (HostEnd "ERR_BAD_DATA_OPCODE" 1002 None)]
        /\ payloadBuffers c' = []
        /\ payloadOpCode c' = 0
        /\ isReadingMessage c' = true)
  /\ (exists c',
        readDataFrameHeader 1 []
          (set_isReadingMessage true (server_with_text 0 true true true))
          [130; 128; 0; 0; 0; 0] = Some c'
        /\ isOpen c' = false
        /\ trace c' = [SocketWrite [136; 4; 49; 48; 48; 50]; SocketEnd;
                       Callback (HostEnd "ERR_BAD_DATA_OPCODE" 1002 None)]
        /\ payloadBuffers c' = []
        /\ payloadOpCode c' = 0
        /\ isReadingMessage c' = true).
Proof.
  split; [|split].
  - apply (proj2 (proj1 (opcode_discipline [] [128; 128; 0; 0; 0; 0]
                           (server_with_text 0 true true true) eq_refl)
                    eq_refl eq_refl) 1).
    reflexivity.
  - apply (proj2 (proj2 (opcode_discipline [] [129; 128; 0; 0; 0; 0]
                           (set_isReadingMessage true
                              (server_with_text 0 true true true)) eq_refl)
                    (or_introl eq_refl) eq_refl) 1).
    reflexivity.
  - apply (proj1 (proj2 (opcode_discipline [] [130; 128; 0; 0; 0; 0]
                           (set_isReadingMessage true
                              (server_with_text 0 true true true)) eq_refl)
                    (or_intror eq_refl) eq_refl) 0%nat).
Defined.

(** C4 as first stated, for every continuation, text or binary frame,
    fails on frames that do not pass the checks made before the opcode is
    looked at. A server with no message open receives a continuation
    frame: without the mask bit it ends in 1008,
    ERR_PEER_MASKING_DISABLED; with a reserved bit set in 1003,
    INVALID_EXTENSION; cut after its first byte in 1002,
    ERR_INAVLID_DATA_FRAME_H2: never in ERR_BAD_CONTINUE_OPCODE. *)
Lemma continuation_frame_rejected_before_opcode :
  isReadingMessage (server_with_text 0 false false true) = false
  /\ frame_opCode [128; 0] = OPCODE_CONTINUATION_FRAME
  /\ frame_opCode [192; 128; 0; 0; 0; 0] = OPCODE_CONTINUATION_FRAME
  /\ option_map (fun c => callbacks (trace c))
       (onData 1 [] [128; 0] (server_with_text 0 false false true))
     = Some [HostEnd "ERR_PEER_MASKING_DISABLED" 1008 None]
  /\ option_map (fun c => callbacks (trace c))
       (onData 1 [] [192; 128; 0; 0; 0; 0]
          (server_with_text 0 false false true))
     = Some [HostEnd "INVALID_EXTENSION" 1003 None]
  /\ option_map (fun c => callbacks (trace c))
       (onData 1 [] [128] (server_with_text 0 false false true))
     = Some [HostEnd "ERR_INAVLID_DATA_FRAME_H2" 1002 None].
Proof. repeat split; vm_compute; reflexivity. Qed.




(** ** Octets *)

Lemma to_uint8_mod (x : Z) : to_uint8 x = x mod 256.
Proof. unfold to_uint8. change 255 with (Z.ones 8). apply Z.land_ones. lia. Qed.

Lemma to_uint8_octet (x : Z) : octet x -> to_uint8 x = x.
Proof. unfold octet. intros H. rewrite to_uint8_mod. apply Z.mod_small. lia. Qed.

(** A property checked on the 256 octets holds of every octet. *)
Lemma forall_octets (P : Z -> bool) :
  forallb P (map Z.of_nat (seq 0 256)) = true ->
  forall x, octet x -> P x = true.
Proof.
  intros H x Hx. rewrite forallb_forall in H. apply H.
  apply in_map_iff. exists (Z.to_nat x). split; [unfold octet in Hx; lia|].
  apply in_seq. unfold octet in Hx. lia.
Qed.

(** ** The length field, in the words of the specification *)

Lemma big_endian_value_app (a : Buffer) (x : Z) :
  big_endian_value (a ++ [x]) = big_endian_value a * 256 + x.
Proof. unfold big_endian_value. rewrite fold_left_app. reflexivity. Qed.

Lemma big_endian_value_big_endian (bytes : nat) :
  forall n, 0 <= n ->
    big_endian_value (big_endian bytes n) = n mod 256 ^ Z.of_nat bytes.
Proof.
  induction bytes as [|k IH]; intros n Hn.
  - simpl. rewrite Z.mod_1_r. reflexivity.
  - cbn [big_endian]. rewrite big_endian_value_app.
    rewrite IH by (apply Z.div_pos; lia).
    rewrite Nat2Z.inj_succ, Z.pow_succ_r by lia.
    rewrite Z.rem_mul_r by lia.
    lia.
Qed.

(** ** The frame [createMessageFrame] builds *)

Lemma shiftr_div (n k : Z) : 0 <= k -> Z.shiftr n k = n / 2 ^ k.
Proof. intros. apply Z.shiftr_div_pow2. assumption. Qed.

Lemma writeUInt16BE_big_endian (n : Z) :
  [to_uint8 (Z.shiftr n 8); to_uint8 n] = big_endian 2 n.
Proof.
  cbn [big_endian app]. rewrite !to_uint8_mod, shiftr_div by lia. reflexivity.
Qed.

Lemma writeBigUInt64BE_big_endian (n : Z) :
  map (fun k => to_uint8 (Z.shiftr n (8 * (7 - k)))) [0; 1; 2; 3; 4; 5; 6; 7]
  = big_endian 8 n.
Proof.
  cbn [big_endian app map]. rewrite !to_uint8_mod.
  rewrite !shiftr_div by lia.
  change (2 ^ (8 * (7 - 7))) with 1. rewrite Z.div_1_r.
  rewrite !Z.div_div by lia.
  reflexivity.
Qed.

Lemma createMessageFrame_bytes
  (opCode : Z) (payload : Buffer) (toMask : bool) (key : Buffer) :
  createMessageFrame opCode payload toMask key
  = [to_uint8 (128 + opCode);
     if toMask
     then to_uint8 (Z.lor (to_uint8 (length_code (byteLength payload))) 128)
     else to_uint8 (length_code (byteLength payload))]
      ++ extended_length (byteLength payload)
      ++ (if toMask then key ++ mask_from key 0 payload else payload).
Proof.
  unfold createMessageFrame, length_code, extended_length.
  rewrite <- writeUInt16BE_big_endian, <- writeBigUInt64BE_big_endian.
  destruct (byteLength payload <? 126);
    [|change (2 ^ 16) with 65536; destruct (byteLength payload <? 65536)];
    destruct toMask; reflexivity.
Qed.

(** ** Reading back a data frame header *)

Lemma slice_inside (b : Buffer) (s e : Z) :
  0 <= s -> s <= e -> e <= byteLength b ->
  slice b s e = firstn (Z.to_nat (e - s)) (skipn (Z.to_nat s) b).
Proof.
  intros Hs He Hb. unfold slice, clamp_index.
  destruct (s <? 0) eqn:Es; [zbool; lia|].
  destruct (e <? 0) eqn:Ee; [zbool; lia|].
  rewrite !Z.min_l by lia. reflexivity.
Qed.

Lemma byte0_bits (opCode : Z) :
  0 <= opCode < 16 ->
  (Z.land (128 + opCode) 128 =? 0) = false
  /\ (Z.land (128 + opCode) 64 =? 0) = true
  /\ (Z.land (128 + opCode) 32 =? 0) = true
  /\ (Z.land (128 + opCode) 16 =? 0) = true
  /\ Z.land (128 + opCode) 15 = opCode.
Proof.
  intros H.
  pose proof (forall_octets
    (fun x => implb (x <? 16)
       (negb (Z.land (128 + x) 128 =? 0) && (Z.land (128 + x) 64 =? 0)
        && (Z.land (128 + x) 32 =? 0) && (Z.land (128 + x) 16 =? 0)
        && (Z.land (128 + x) 15 =? x)))
    eq_refl opCode ltac:(unfold octet; lia)) as Hb.
  cbv beta in Hb. destruct (opCode <? 16) eqn:E; [|zbool; lia].
  simpl in Hb. repeat (apply andb_prop in Hb as [Hb ?]).
  apply negb_true_iff in Hb.
  repeat split; try assumption. apply Z.eqb_eq. assumption.
Qed.

Lemma byte1_bits (toMask : bool) (code : Z) :
  0 <= code < 128 ->
  negb (Z.land (mask_bit toMask + code) 128 =? 0) = toMask
  /\ Z.land (mask_bit toMask + code) 127 = code.
Proof.
  intros H.
  pose proof (forall_octets
    (fun x => implb (x <? 128)
       (negb (Z.land (128 + x) 128 =? 0) && (Z.land (128 + x) 127 =? x)
        && (Z.land x 128 =? 0) && (Z.land x 127 =? x)))
    eq_refl code ltac:(unfold octet; lia)) as Hb.
  cbv beta in Hb. destruct (code <? 128) eqn:E; [|zbool; lia].
  simpl in Hb. repeat (apply andb_prop in Hb as [Hb ?]).
  destruct toMask; unfold mask_bit; simpl (0 + code).
  - split; [assumption|apply Z.eqb_eq; assumption].
  - split; [|apply Z.eqb_eq; assumption].
    apply negb_false_iff. assumption.
Qed.

Lemma length_form_code (code v : Z) :
  length_form_ok code v = true -> 0 <= code < 128.
Proof.
  unfold length_form_ok. repeat break_if; lia.
Qed.

Lemma big_endian_8_value (v : Z) (rest : Buffer) (b0 b1 : Z) :
  0 <= v <= MAX_LENGTH ->
  readBigUInt64BE (b0 :: b1 :: big_endian 8 v ++ rest) 2 = v.
Proof.
  unfold MAX_LENGTH. intros H.
  transitivity (big_endian_value (big_endian 8 v)); [reflexivity|].
  rewrite big_endian_value_big_endian by lia.
  apply Z.mod_small. change (256 ^ Z.of_nat 8) with (2 ^ 64). lia.
Qed.

Lemma big_endian_2_value (v : Z) (rest : Buffer) (b0 b1 : Z) :
  0 <= v < 65536 ->
  readUInt16BE (b0 :: b1 :: big_endian 2 v ++ rest) 2 = v.
Proof.
  intros H.
  transitivity (big_endian_value (big_endian 2 v)).
  - cbn [big_endian app]. unfold readUInt16BE, big_endian_value, byte_at.
    simpl. lia.
  - rewrite big_endian_value_big_endian by lia.
    apply Z.mod_small. change (256 ^ Z.of_nat 2) with 65536. lia.
Qed.

Lemma length_field_length (code v : Z) :
  byteLength (length_field code v)
  = if code =? 126 then 2 else if code =? 127 then 8 else 0.
Proof. unfold length_field. repeat break_if; reflexivity. Qed.

Lemma skipn_exact (a b : Buffer) (n : Z) :
  n = byteLength a -> skipn (Z.to_nat n) (a ++ b) = b.
Proof.
  unfold byteLength. intros ->. rewrite Nat2Z.id, skipn_app, skipn_all.
  rewrite Nat.sub_diag. reflexivity.
Qed.

Lemma firstn_exact (a b : Buffer) (n : Z) :
  n = byteLength a -> firstn (Z.to_nat n) (a ++ b) = a.
Proof.
  unfold byteLength. intros ->. rewrite Nat2Z.id, firstn_app, firstn_all.
  rewrite Nat.sub_diag. simpl. apply app_nil_r.
Qed.

Lemma data_frame_header
  (r : Buffer) (c : connection) (opCode : Z) (toMask : bool) (code v : Z)
  (key rest : Buffer) :
  opCode = OPCODE_TEXT_FRAME \/ opCode = OPCODE_BINARY_FRAME ->
  isReadingMessage c = false ->
  (isPeerMaskingRequired c = true -> toMask = true) ->
  length_form_ok code v = true ->
  byteLength key = (if toMask then MASKING_KEY_SIZE else 0) ->
  readDataFrameHeader_fields r c
    (frame_header opCode toMask code (length_field code v) ++ key ++ rest)
  = Next (data_frame_state c opCode toMask key v,
          2 + byteLength (length_field code v) + byteLength key).
Proof.
  intros Hop Hread Hpeer Hform Hkey.
  pose proof (length_form_code _ _ Hform) as Hcode.
  set (ext := length_field code v).
  set (F := frame_header opCode toMask code ext ++ key ++ rest).
  assert (Hop16 : 0 <= opCode < 16)
    by (unfold OPCODE_TEXT_FRAME, OPCODE_BINARY_FRAME in Hop; lia).
  destruct (byte0_bits opCode Hop16) as (B7 & B6 & B5 & B4 & B03).
  destruct (byte1_bits toMask code Hcode) as (M7 & M06).
  assert (Hfin : frame_fin F = true).
  { unfold frame_fin. change (byte_at F 0) with (128 + opCode).
    change (Z.shiftl 1 7) with 128. rewrite B7. reflexivity. }
  assert (Hrsv : frame_reserved F = false).
  { unfold frame_reserved. change (byte_at F 0) with (128 + opCode).
    change (Z.shiftl 1 6) with 64. change (Z.shiftl 1 5) with 32.
    change (Z.shiftl 1 4) with 16. rewrite B6, B5, B4. reflexivity. }
  assert (Hopc : frame_opCode F = opCode).
  { unfold frame_opCode. change (byte_at F 0) with (128 + opCode).
    exact B03. }
  assert (Hmask : frame_masked F = toMask).
  { unfold frame_masked. change (byte_at F 1) with (mask_bit toMask + code).
    exact M7. }
  assert (H7 : frame_length7 F = code).
  { unfold frame_length7. change (byte_at F 1) with (mask_bit toMask + code).
    exact M06. }
  assert (Hki : frame_key_index F = 2 + byteLength ext).
  { unfold frame_key_index. rewrite H7. subst ext.
    rewrite length_field_length. repeat break_if; reflexivity. }
  assert (Hhs : frame_header_size F = 2 + byteLength ext + byteLength key).
  { unfold frame_header_size. rewrite Hmask, Hki, Hkey.
    destruct toMask; lia. }
  assert (Hlen : byteLength F
                 = 2 + byteLength ext + byteLength key + byteLength rest).
  { subst F. unfold frame_header. rewrite !byteLength_app.
    change (byteLength [128 + opCode; mask_bit toMask + code]) with 2. lia. }
  assert (Hpl : frame_payloadLength F = v).
  { unfold frame_payloadLength. rewrite H7. subst F ext.
    unfold frame_header, length_field, length_form_ok in *.
    destruct (code =? 126) eqn:E126;
      [|destruct (code =? 127) eqn:E127].
    - apply (big_endian_2_value v (key ++ rest)). lia.
    - unfold Number_of_BigInt. rewrite <- app_assoc. cbn [app].
      rewrite (big_endian_8_value v (key ++ rest)) by lia.
      apply to_double_small. lia.
    - lia. }
  assert (Hacc : header_accepted c F = true).
  { unfold header_accepted. rewrite Hhs, Hrsv, Hmask, Hlen.
    pose proof (byteLength_nonneg rest).
    destruct (isPeerMaskingRequired c); [rewrite Hpeer by reflexivity|];
      simpl; rewrite ?andb_true_r; apply Z.leb_le; lia. }
  assert (Hstate : frame_state c F
                   = let c := set_isMasked toMask (set_isFinSet true c) in
                     if toMask then set_maskingKey (Some key) c else c).
  { unfold frame_state. rewrite Hfin, Hmask, Hki.
    destruct toMask; [|reflexivity]. cbv zeta. do 2 f_equal.
    pose proof (byteLength_nonneg ext). pose proof (byteLength_nonneg rest).
    rewrite slice_inside by (unfold MASKING_KEY_SIZE in *; lia).
    subst F. unfold frame_header.
    rewrite skipn_exact
      by (rewrite byteLength_app;
          change (byteLength [128 + opCode; mask_bit true + code]) with 2;
          lia).
    apply firstn_exact. unfold MASKING_KEY_SIZE in *. lia. }
  rewrite (readDataFrameHeader_fields_accepted _ _ _ Hacc).
  rewrite Hstate, Hopc, Hpl, Hhs.
  unfold readDataFrameHeader_opCode, data_frame_state.
  destruct toMask; cbv zeta; simpl isReadingMessage; rewrite Hread;
    destruct Hop as [-> | ->]; reflexivity.
Qed.

Lemma length_code_form (n : Z) :
  0 <= n <= MAX_LENGTH -> length_form_ok (length_code n) n = true.
Proof.
  unfold length_form_ok, length_code, MAX_LENGTH.
  intros H. repeat break_if; zbool; lia.
Qed.

Lemma extended_length_field (n : Z) :
  extended_length n = length_field (length_code n) n.
Proof.
  unfold extended_length, length_field, length_code.
  destruct (n <? 126) eqn:E1; [|destruct (n <? 65536); reflexivity].
  destruct (n =? 126) eqn:E2; [zbool; lia|].
  destruct (n =? 127) eqn:E3; [zbool; lia|]. reflexivity.
Qed.

Lemma length_code_octet (toMask : bool) (code : Z) :
  0 <= code < 128 ->
  (if toMask then to_uint8 (Z.lor (to_uint8 code) 128) else to_uint8 code)
  = mask_bit toMask + code.
Proof.
  intros H.
  pose proof (forall_octets
    (fun x => implb (x <? 128)
       ((to_uint8 (Z.lor (to_uint8 x) 128) =? 128 + x) && (to_uint8 x =? x)))
    eq_refl code ltac:(unfold octet; lia)) as Hb.
  cbv beta in Hb. destruct (code <? 128) eqn:E; [|zbool; lia].
  cbn [implb] in Hb. apply andb_prop in Hb as [H1 H2]. zbool.
  destruct toMask; unfold mask_bit; lia.
Qed.

Lemma createMessageFrame_header
  (opCode : Z) (payload : Buffer) (toMask : bool) (key : Buffer) :
  0 <= opCode < 16 ->
  byteLength payload <= MAX_LENGTH ->
  byteLength key = (if toMask then MASKING_KEY_SIZE else 0) ->
  createMessageFrame opCode payload toMask key
  = frame_header opCode toMask (length_code (byteLength payload))
      (extended_length (byteLength payload))
      ++ key ++ (if toMask then mask_from key 0 payload else payload).
Proof.
  intros Hop Hn Hkey. rewrite createMessageFrame_bytes.
  pose proof (byteLength_nonneg payload) as H0.
  assert (Hcode : 0 <= length_code (byteLength payload) < 128)
    by (unfold length_code; repeat break_if; zbool; lia).
  rewrite (length_code_octet toMask _ Hcode).
  rewrite to_uint8_octet by (unfold octet; lia).
  unfold frame_header. rewrite <- !app_assoc. do 3 f_equal.
  destruct toMask; [reflexivity|].
  destruct key; [reflexivity|].
  unfold byteLength in Hkey. simpl in Hkey. lia.
Qed.

(** ** Sending *)

Lemma createMessageFrame_spelled_out
  (opCode : Z) (payload : Buffer) (toMask : bool) (key : Buffer) :
  0 <= opCode < 16 ->
  createMessageFrame opCode payload toMask key
  = frame_header opCode toMask (length_code (byteLength payload))
      (extended_length (byteLength payload))
      ++ (if toMask then key ++ mask_from key 0 payload else payload).
Proof.
  intros Hop. rewrite createMessageFrame_bytes.
  pose proof (byteLength_nonneg payload) as H0.
  assert (Hcode : 0 <= length_code (byteLength payload) < 128)
    by (unfold length_code; repeat break_if; zbool; lia).
  rewrite (length_code_octet toMask _ Hcode).
  rewrite to_uint8_octet by (unfold octet; lia).
  unfold frame_header. rewrite <- !app_assoc. reflexivity.
Qed.

Lemma dropConnection_role (r : Buffer) (statusCode : Z) (appCode : string)
  (error : option string) (c : connection) :
  toMaskOwnMessages (dropConnection r statusCode appCode error c)
  = toMaskOwnMessages c
  /\ isAlive (dropConnection r statusCode appCode error c) = false.
Proof.
  unfold dropConnection. destruct (isAlive c) eqn:Ha; simpl.
  - destruct (onEnd c); split; reflexivity.
  - split; [reflexivity|exact Ha].
Qed.

(** C10. The send operations do not look at [isAlive]: on every
    connection, alive or not, and in particular on one that
    [dropConnection] has just terminated, [sendTextMessage],
    [sendBinaryMessage] and [sendPing] serialize their frame and write it
    to the socket, and change nothing else. The frame is spelled out byte
    by byte: the FIN bit and the opcode, the mask bit and the length in
    the smallest form, then the payload (the UTF-8 bytes of the string,
    the bytes of the buffer), preceded by the key and masked with it on a
    connection that masks; a ping is the header-only frame of opcode 9,
    with the key 0 0 0 0 on a connection that masks. *)
Theorem sends_ignore_liveness :
  forall (r : Buffer) (s : jsstring) (b : Buffer) (c : connection),
    let m := toMaskOwnMessages c in
    let frame_of (opCode : Z) (payload : Buffer) :=
      frame_header opCode m (length_code (byteLength payload))
        (extended_length (byteLength payload))
        ++ (if m then r ++ mask_from r 0 payload else payload) in
    let text := frame_of OPCODE_TEXT_FRAME (Buffer_from_utf8 s) in
    let binary := frame_of OPCODE_BINARY_FRAME b in
    let ping := if m then [137; 128; 0; 0; 0; 0] else [137; 0] in
    (trace (sendTextMessage r s c) = trace c ++ [SocketWrite text]
     /\ trace (sendBinaryMessage r b c) = trace c ++ [SocketWrite binary]
     /\ trace (sendPing c) = trace c ++ [SocketWrite ping])
    /\ (isAlive (sendTextMessage r s c) = isAlive c
        /\ isAlive (sendBinaryMessage r b c) = isAlive c
        /\ isAlive (sendPing c) = isAlive c)
    /\ forall (r' : Buffer) (statusCode : Z) (appCode : string)
              (error : option string),
         let d := dropConnection r' statusCode appCode error c in
         isAlive d = false
         /\ trace (sendTextMessage r s d) = trace d ++ [SocketWrite text]
         /\ trace (sendBinaryMessage r b d) = trace d ++ [SocketWrite binary]
         /\ trace (sendPing d) = trace d ++ [SocketWrite ping].
Proof.
  intros r s b c m frame_of text binary ping.
  assert (Hsend : forall d : connection,
            toMaskOwnMessages d = m ->
            trace (sendTextMessage r s d) = trace d ++ [SocketWrite text]
            /\ trace (sendBinaryMessage r b d)
               = trace d ++ [SocketWrite binary]
            /\ trace (sendPing d) = trace d ++ [SocketWrite ping]).
  { intros d Hd.
    unfold sendTextMessage, sendBinaryMessage, sendPing, createTextFrame,
      createBinaryFrame, frameDataPing, emit. cbn [trace set_trace].
    rewrite Hd.
    rewrite !createMessageFrame_spelled_out
      by (unfold OPCODE_TEXT_FRAME, OPCODE_BINARY_FRAME; lia).
    repeat split. }
  split; [apply Hsend; reflexivity|].
  split; [repeat split|].
  intros r' statusCode appCode error d.
  destruct (dropConnection_role r' statusCode appCode error c) as [Hm Ha].
  split; [exact Ha|]. apply Hsend. exact Hm.
Qed.

Lemma sends_ignore_liveness_witness :
  let d := dropConnection [] 1000 "CLOSED_BY_SELF" None (server 0) in
  let e := dropConnection [9; 9; 9; 9] 1008 "TIMEOUT" None (client 0) in
  (isAlive d = false
   /\ trace (sendTextMessage [] (js "Hello") d)
      = trace d ++ [SocketWrite [129; 5; 72; 101; 108; 108; 111]]
   /\ trace (sendBinaryMessage [] [1; 2; 3] d)
      = trace d ++ [SocketWrite [130; 3; 1; 2; 3]]
   /\ trace (sendPing d) = trace d ++ [SocketWrite [137; 0]])
  /\ (isAlive e = false
      /\ trace (sendTextMessage [55; 250; 33; 61] (js "Hello") e)
         = trace e
             ++ [SocketWrite
                   [129; 133; 55; 250; 33; 61; 127; 159; 77; 81; 88]]
      /\ trace (sendBinaryMessage [55; 250; 33; 61] [1; 2; 3] e)
         = trace e ++ [SocketWrite [130; 131; 55; 250; 33; 61; 54; 248; 34]]
      /\ trace (sendPing e) = trace e ++ [SocketWrite [137; 128; 0; 0; 0; 0]]).
Proof.
  split.
  - exact (proj2 (proj2 (sends_ignore_liveness [] (js "Hello") [1; 2; 3]
                           (server 0)))
             [] 1000 "CLOSED_BY_SELF"%string None).
  - exact (proj2 (proj2 (sends_ignore_liveness [55; 250; 33; 61] (js "Hello")
                           [1; 2; 3] (client 0)))
             [9; 9; 9; 9] 1008 "TIMEOUT"%string None).
Defined.

(** ** Length encodings *)

(** C7. For a payload of [n] bytes, [createMessageFrame] writes the
    smallest of the three length forms that holds [n]: [n] itself in the
    seven-bit field when [n < 126], else the code 126 and [n] on two bytes
    big-endian when [n < 65536], else the code 127 and [n] on eight bytes
    big-endian. [readDataFrameHeader] reads the length of such a frame
    back as [n]; and it reads every length written in the 126 or the 127
    form back as that length, also one that a shorter form could hold. *)
Theorem length_encoding_round_trip :
  forall (opCode : Z) (payload : Buffer) (toMask : bool) (key : Buffer),
    opCode = OPCODE_TEXT_FRAME \/ opCode = OPCODE_BINARY_FRAME ->
    byteLength payload <= MAX_LENGTH ->
    byteLength key = (if toMask then MASKING_KEY_SIZE else 0) ->
    let n := byteLength payload in
    let frame := createMessageFrame opCode payload toMask key in
    frame
    = frame_header opCode toMask (length_code n) (extended_length n)
        ++ key ++ (if toMask then mask_from key 0 payload else payload)
    /\ (forall (r : Buffer) (c : connection),
          isReadingMessage c = false ->
          (isPeerMaskingRequired c = true -> toMask = true) ->
          exists c',
            readDataFrameHeader_fields r c frame
            = Next (c', 2 + byteLength (extended_length n) + byteLength key)
            /\ remainingLength c' = n)
    /\ (forall (r : Buffer) (c : connection) (code v : Z) (rest : Buffer),
          isReadingMessage c = false ->
          (isPeerMaskingRequired c = true -> toMask = true) ->
          length_form_ok code v = true ->
          exists c',
            readDataFrameHeader_fields r c
              (frame_header opCode toMask code (length_field code v)
                 ++ key ++ rest)
            = Next (c', 2 + byteLength (length_field code v) + byteLength key)
            /\ remainingLength c' = v).
Proof.
  intros opCode payload toMask key Hop Hn Hkey n frame.
  assert (Hop16 : 0 <= opCode < 16)
    by (unfold OPCODE_TEXT_FRAME, OPCODE_BINARY_FRAME in Hop; lia).
  pose proof (byteLength_nonneg payload) as H0.
  pose proof (createMessageFrame_header opCode payload toMask key
                Hop16 Hn Hkey) as Hframe.
  split; [exact Hframe|]. split.
  - intros r c Hread Hpeer. subst frame n. rewrite Hframe.
    rewrite extended_length_field.
    rewrite (data_frame_header r c opCode toMask _ (byteLength payload) key)
      by (try assumption; apply length_code_form; lia).
    eexists. split; reflexivity.
  - intros r c code v rest Hread Hpeer Hform.
    rewrite (data_frame_header r c opCode toMask code v key rest)
      by assumption.
    eexists. split; reflexivity.
Qed.

Lemma length_encoding_round_trip_witness :
  firstn 4 (createMessageFrame 2 (repeat 7 126%nat) true [1; 2; 3; 4])
  = [130; 254; 0; 126]
  /\ (exists c',
        readDataFrameHeader_fields [] (server 0)
          (createMessageFrame 2 (repeat 7 126%nat) true [1; 2; 3; 4])
        = Next (c', 8)
        /\ remainingLength c' = 126)
  /\ (exists c',
        readDataFrameHeader_fields [] (server 0)
          ([130; 254; 0; 125; 1; 2; 3; 4] ++ repeat 7 125%nat)
        = Next (c', 8)
        /\ remainingLength c' = 125).
Proof.
  destruct (length_encoding_round_trip 2 (repeat 7 126%nat) true [1; 2; 3; 4])
    as (Hframe & Hread & Hany).
  - right. reflexivity.
  - vm_compute. discriminate.
  - reflexivity.
  - split; [rewrite Hframe; reflexivity|]. split.
    + apply (Hread [] (server 0)); reflexivity.
    + apply (Hany [] (server 0) 126 125 (repeat 7 125%nat)); reflexivity.
Defined.

(** ** Connections that differ in chunking only *)

Lemma similar_refl (a : connection) : similar a a.
Proof. unfold similar. auto. Qed.

Lemma similar_sym (a b : connection) : similar a b -> similar b a.
Proof. unfold similar. intuition congruence. Qed.

Lemma similar_trans (a b c : connection) :
  similar a b -> similar b c -> similar a c.
Proof. unfold similar. intuition congruence. Qed.

Lemma unsynced_app (t u : list effect) :
  unsynced (t ++ u) = unsynced t ++ unsynced u.
Proof. unfold unsynced. apply filter_app. Qed.

(** Brings two similar connections to two records that share every field
    but [payloadBuffers], [lastSyncDate] and [trace]. *)
Ltac similar_records a b H :=
  destruct a, b;
  let Hc := fresh "Hcore" in
  let Hp := fresh "Hpieces" in
  let Ht := fresh "Htrace" in
  destruct H as (Hc & Hp & Ht);
  unfold core in Hc; simpl in Hc, Hp, Ht;
  injection Hc as ? ? ? ? ? ? ? ? ? ? ? ? ? ?; subst.

Ltac similar_done :=
  unfold similar, core, emit; simpl;
  rewrite ?unsynced_app, ?concat_app; simpl;
  repeat split;
  first [ congruence
        | unfold unsynced; simpl; rewrite ?app_nil_r; congruence ].

Lemma dropConnection_similar (r : Buffer) (sc : Z) (ac : string)
  (err : option string) (a b : connection) :
  similar a b ->
  similar (dropConnection r sc ac err a) (dropConnection r sc ac err b).
Proof.
  intros H. similar_records a b H. unfold dropConnection. simpl.
  repeat break_if; similar_done.
Qed.

Lemma sendPong_similar (a b : connection) :
  similar a b -> similar (sendPong a) (sendPong b).
Proof.
  intros H. similar_records a b H. unfold sendPong, frameDataPong.
  similar_done.
Qed.

Lemma onFrameComplete_similar (a b : connection) :
  similar a b -> similar (onFrameComplete a) (onFrameComplete b).
Proof.
  intros H. similar_records a b H. unfold onFrameComplete. simpl.
  rewrite Hpieces. repeat break_if; similar_done.
Qed.

Lemma readDataFrameHeader_opCode_similar
  (r : Buffer) (opCode : Z) (a b : connection) :
  similar a b ->
  similar_flow (fun c => c) (fun _ => 0)
    (readDataFrameHeader_opCode r a opCode)
    (readDataFrameHeader_opCode r b opCode).
Proof.
  intros H. unfold readDataFrameHeader_opCode.
  assert (Hread : isReadingMessage a = isReadingMessage b).
  { destruct H as (Hc & _). apply (f_equal isReadingMessage) in Hc.
    exact Hc. }
  rewrite Hread.
  repeat break_if; simpl;
    try (apply dropConnection_similar; assumption);
    try (apply sendPong_similar; assumption);
    try assumption;
    try (split; [|reflexivity]; try assumption).
  similar_records a b H. similar_done.
Qed.

Lemma payload_start_similar (v : Z) (a b : connection) :
  similar a b ->
  similar (set_remainingLength v (set_maskingIndex 0 a))
    (set_remainingLength v (set_maskingIndex 0 b)).
Proof. intros H. similar_records a b H. similar_done. Qed.

Lemma readDataFrameHeader_fields_similar
  (r : Buffer) (buffer : Buffer) (a b : connection) :
  similar a b ->
  similar_flow fst snd
    (readDataFrameHeader_fields r a buffer)
    (readDataFrameHeader_fields r b buffer).
Proof.
  intros H.
  assert (Hop : forall v idx x y, similar x y ->
            similar_flow fst snd
              (c <- readDataFrameHeader_opCode r x (frame_opCode buffer) ;;
               Next (set_remainingLength v (set_maskingIndex 0 c), idx))
              (c <- readDataFrameHeader_opCode r y (frame_opCode buffer) ;;
               Next (set_remainingLength v (set_maskingIndex 0 c), idx))).
  { intros v idx x y Hxy.
    pose proof (readDataFrameHeader_opCode_similar r (frame_opCode buffer)
                  x y Hxy) as Hs.
    destruct (readDataFrameHeader_opCode r x (frame_opCode buffer)),
      (readDataFrameHeader_opCode r y (frame_opCode buffer));
      simpl in *; try contradiction; try assumption.
    destruct Hs as [Hs _]. split; [|reflexivity].
    apply payload_start_similar. assumption. }
  similar_records a b H.
  unfold readDataFrameHeader_fields. fold (frame_opCode buffer). simpl.
  repeat first
    [ progress cbn [flow_bind]
    | match goal with
      | |- context [if ?x then _ else _] => destruct x eqn:?
      end ].
  all: try (simpl; apply dropConnection_similar; similar_done).
  all: apply Hop; similar_done.
Qed.

Lemma similar_remainingLength (a b : connection) :
  similar a b -> remainingLength a = remainingLength b.
Proof. intros (Hc & _). apply (f_equal remainingLength) in Hc. exact Hc. Qed.

Lemma payload_length_similar (buffer : Buffer) (a b : connection) :
  similar a b -> payload_length a buffer = payload_length b buffer.
Proof.
  intros H. unfold payload_length.
  rewrite (similar_remainingLength a b H). reflexivity.
Qed.

Lemma after_payload_similar (buffer : Buffer) (a b : connection) :
  similar a b -> similar (after_payload a buffer) (after_payload b buffer).
Proof.
  intros H. similar_records a b H.
  unfold after_payload, readDataFramePayload_with. simpl.
  destruct isMasked1.
  - destruct (unmask _ _ _) as [u i]. simpl.
    repeat break_if; try apply onFrameComplete_similar; similar_done.
  - cbv beta iota zeta. simpl.
    repeat break_if; try apply onFrameComplete_similar; similar_done.
Qed.

Lemma reads_on_similar (buffer : Buffer) (a b : connection) :
  similar a b -> reads_on a buffer = reads_on b buffer.
Proof.
  intros H. unfold reads_on.
  rewrite (similar_remainingLength _ _ (after_payload_similar buffer a b H)).
  rewrite (payload_length_similar buffer a b H). reflexivity.
Qed.

Lemma readDataFrameHeader_similar (r : Buffer) (fuel : nat) :
  forall (buffer : Buffer) (a b : connection),
    similar a b ->
    (List.length buffer < fuel)%nat ->
    similar_result (readDataFrameHeader fuel r a buffer)
      (readDataFrameHeader fuel r b buffer).
Proof.
  induction fuel as [|fuel IH]; intros buffer a b H Hfuel; [lia|].
  simpl.
  pose proof (readDataFrameHeader_fields_similar r buffer a b H) as Hf.
  destruct (readDataFrameHeader_fields r a buffer) as [a'|[a' i]] eqn:Ea,
    (readDataFrameHeader_fields r b buffer) as [b'|[b' j]] eqn:Eb;
    simpl in Hf; try contradiction; [exact Hf|].
  destruct Hf as [Hs Hij]. simpl in Hij. subst j.
  apply readDataFrameHeader_fields_index in Ea as [_ Hidx].
  rewrite !readDataFramePayload_with_steps.
  rewrite <- (reads_on_similar _ a' b' Hs).
  rewrite <- (payload_length_similar _ a' b' Hs).
  pose proof (after_payload_similar (slice_from buffer i) a' b' Hs) as Hp.
  destruct (reads_on a' (slice_from buffer i)); [|exact Hp].
  apply IH; [exact Hp|].
  pose proof (slice_from_length_le buffer i ltac:(lia) ltac:(lia)).
  pose proof (slice_length_le (slice_from buffer i)
                (payload_length a' (slice_from buffer i))
                (byteLength (slice_from buffer i))).
  unfold slice_from at 1. lia.
Qed.

Lemma feed_similar (r : Buffer) (fuel : nat) (buffer : Buffer)
  (a b : connection) :
  similar a b ->
  (List.length buffer < fuel)%nat ->
  similar_result (feed fuel r a buffer) (feed fuel r b buffer).
Proof.
  intros H Hfuel. unfold feed, readDataFramePayload.
  rewrite <- (similar_remainingLength a b H).
  destruct (remainingLength a =? 0).
  - apply readDataFrameHeader_similar; assumption.
  - rewrite !readDataFramePayload_with_steps.
    rewrite <- (reads_on_similar _ a b H).
    rewrite <- (payload_length_similar _ a b H).
    pose proof (after_payload_similar buffer a b H) as Hp.
    destruct (reads_on a buffer); [|exact Hp].
    apply readDataFrameHeader_similar; [exact Hp|].
    pose proof (slice_length_le buffer (payload_length a buffer)
                  (byteLength buffer)).
    unfold slice_from. lia.
Qed.

Lemma onData_feed (now : Z) (r : Buffer) (buffer : Buffer) (c : connection) :
  onData now r buffer c = feed (enough_fuel buffer) r (synced now c) buffer.
Proof. reflexivity. Qed.

Lemma synced_similar (now : Z) (a : connection) : similar (synced now a) a.
Proof.
  unfold synced. destruct a. simpl. destruct onSync0; similar_done.
Qed.

Lemma onData_similar (now now' : Z) (r : Buffer) (buffer : Buffer)
  (a b : connection) :
  similar a b ->
  similar_result (onData now r buffer a) (onData now' r buffer b).
Proof.
  intros H. rewrite !onData_feed. apply feed_similar.
  - eapply similar_trans; [apply synced_similar|].
    eapply similar_trans; [exact H|]. apply similar_sym, synced_similar.
  - unfold enough_fuel. lia.
Qed.

(** ** The payload reader, spelled out *)

Lemma set_maskingIndex_same (c : connection) :
  set_maskingIndex (maskingIndex c) c = c.
Proof. destruct c. reflexivity. Qed.

Lemma after_payload_taken (c : connection) (buffer : Buffer) :
  0 <= remainingLength c ->
  after_payload c buffer = frame_done (payload_taken c buffer).
Proof.
  intros HR.
  pose proof (byteLength_nonneg buffer) as Hb.
  assert (Hn : 0 <= payload_length c buffer <= byteLength buffer)
    by (unfold payload_length; lia).
  unfold after_payload, readDataFramePayload_with, payload_taken,
    payload_bytes, frame_done.
  fold (payload_length c buffer).
  set (n := payload_length c buffer) in *.
  destruct (isMasked c).
  - pose proof (unmask_length (key_bytes (maskingKey c)) (maskingIndex c)
                  (firstn (Z.to_nat n) buffer)) as Hlen.
    destruct (unmask (key_bytes (maskingKey c)) (maskingIndex c)
                (firstn (Z.to_nat n) buffer)) as [u i].
    simpl in Hlen. rewrite length_firstn in Hlen.
    rewrite slice_prefix by lia.
    rewrite firstn_exact by (unfold byteLength in *; lia).
    cbv zeta. simpl.
    repeat break_if; reflexivity.
  - cbv beta iota zeta. simpl fst. simpl snd.
    rewrite slice_prefix by lia. rewrite set_maskingIndex_same. simpl.
    repeat break_if; reflexivity.
Qed.

Lemma unmask_app (key : Buffer) (a b : Buffer) :
  forall i,
    unmask key i (a ++ b)
    = (fst (unmask key i a) ++ fst (unmask key (snd (unmask key i a)) b),
       snd (unmask key (snd (unmask key i a)) b)).
Proof.
  induction a as [|x a IH]; intros i.
  - simpl. destruct (unmask key i b). reflexivity.
  - simpl. rewrite IH.
    destruct (unmask key (Z.rem (i + 1) MASKING_KEY_SIZE) a) as [ua ia].
    simpl. reflexivity.
Qed.

(** ** Cutting a chunk inside a payload *)

(** Evaluates setters applied to a record, innermost first. *)
Ltac unfold_setters :=
  cbv [set_onTextMessage set_onBinaryMessage set_onSync set_onEnd
       set_isAlive set_lastSyncDate set_isReadingMessage set_isFinSet
       set_isMasked set_payloadOpCode set_maskingKey set_maskingIndex
       set_remainingLength set_payloadBuffers set_trace
       isPeerMaskingRequired toMaskOwnMessages onTextMessage onBinaryMessage
       onSync onEnd isAlive lastSyncDate isReadingMessage isFinSet isMasked
       payloadOpCode maskingKey maskingIndex remainingLength payloadBuffers
       trace].

Lemma frame_done_similar (a b : connection) :
  similar a b -> similar (frame_done a) (frame_done b).
Proof.
  intros H. unfold frame_done.
  rewrite <- (similar_remainingLength a b H).
  assert (Hfin : isFinSet a = isFinSet b).
  { destruct H as (Hc & _). apply (f_equal isFinSet) in Hc. exact Hc. }
  rewrite <- Hfin. repeat break_if; try assumption.
  apply onFrameComplete_similar.
  similar_records a b H. similar_done.
Qed.

Lemma frame_done_remainingLength (c : connection) :
  remainingLength (frame_done c) = remainingLength c.
Proof.
  unfold frame_done. repeat break_if; try reflexivity.
  rewrite onFrameComplete_remainingLength. reflexivity.
Qed.

Lemma firstn_app_exact (a b : Buffer) (n : Z) :
  0 <= n ->
  firstn (Z.to_nat (byteLength a + n)) (a ++ b) = a ++ firstn (Z.to_nat n) b.
Proof.
  intros Hn. unfold byteLength.
  replace (Z.to_nat (Z.of_nat (List.length a) + n))
    with (List.length a + Z.to_nat n)%nat by lia.
  apply firstn_app_2.
Qed.

Lemma firstn_app_within (a b : Buffer) (n : Z) :
  n <= byteLength a ->
  firstn (Z.to_nat n) (a ++ b) = firstn (Z.to_nat n) a.
Proof.
  unfold byteLength. intros Hn. rewrite firstn_app.
  replace (Z.to_nat n - List.length a)%nat with 0%nat by lia.
  simpl. apply app_nil_r.
Qed.

(** A chunk cut before the end of the payload: the two parts leave what
    the whole chunk leaves, up to the cutting of [payloadBuffers]. *)
Lemma payload_taken_split (c : connection) (b1 b2 : Buffer) :
  byteLength b1 < remainingLength c ->
  remainingLength c <= MAX_LENGTH ->
  similar (payload_taken (payload_taken c b1) b2) (payload_taken c (b1 ++ b2))
  /\ payload_length c (b1 ++ b2)
     = byteLength b1 + payload_length (payload_taken c b1) b2
  /\ payload_length c b1 = byteLength b1
  /\ remainingLength (payload_taken c b1) = remainingLength c - byteLength b1.
Proof.
  intros Hlt Hmax.
  pose proof (byteLength_nonneg b1) as H1.
  pose proof (byteLength_nonneg b2) as H2.
  destruct c. unfold payload_taken, payload_bytes, payload_length in *.
  simpl in *. rewrite byteLength_app.
  rewrite (Z.min_l (byteLength b1)) by lia.
  rewrite (js_sub_small remainingLength0 (byteLength b1)) by lia.
  set (n2 := Z.min (byteLength b2) (remainingLength0 - byteLength b1)).
  replace (Z.min (byteLength b1 + byteLength b2) remainingLength0)
    with (byteLength b1 + n2) by (subst n2; lia).
  assert (Hn2 : 0 <= n2) by (subst n2; lia).
  rewrite firstn_app_exact by lia.
  replace (firstn (Z.to_nat (byteLength b1)) b1) with b1
    by (unfold byteLength; rewrite Nat2Z.id, firstn_all; reflexivity).
  rewrite (js_sub_small (remainingLength0 - byteLength b1) n2)
    by (subst n2; lia).
  rewrite (js_sub_small remainingLength0 (byteLength b1 + n2))
    by (subst n2; lia).
  split; [|repeat split; subst n2; lia].
  destruct isMasked0; simpl.
  - rewrite unmask_app.
    destruct (unmask (key_bytes maskingKey0) maskingIndex0 b1) as [u1 i1].
    simpl.
    destruct (unmask (key_bytes maskingKey0) i1 (firstn (Z.to_nat n2) b2))
      as [u2 i2].
    simpl. unfold similar, core. simpl.
    rewrite !concat_app. simpl. rewrite !app_nil_r, <- ?app_assoc.
    repeat split; try reflexivity. unfold_setters. f_equal. lia.
  - unfold similar, core. simpl.
    rewrite !concat_app. simpl. rewrite !app_nil_r, <- ?app_assoc.
    repeat split; try reflexivity. unfold_setters. f_equal. lia.
Qed.

(** A chunk that reaches the end of the payload: what follows the payload
    does not change what the payload reader leaves. *)
Lemma payload_taken_beyond (c : connection) (b1 b2 : Buffer) :
  0 <= remainingLength c <= byteLength b1 ->
  payload_taken c (b1 ++ b2) = payload_taken c b1
  /\ payload_length c (b1 ++ b2) = remainingLength c
  /\ payload_length c b1 = remainingLength c
  /\ remainingLength (payload_taken c b1) = 0.
Proof.
  intros HR. pose proof (byteLength_nonneg b2) as H2.
  unfold payload_taken, payload_bytes, payload_length.
  rewrite byteLength_app.
  rewrite !Z.min_r by lia.
  rewrite firstn_app_within by lia.
  repeat split. simpl. apply js_sub_diag.
Qed.

(** ** Chunks that end inside a data payload *)

Lemma slice_from_app (a b : Buffer) (n : Z) :
  0 <= n <= byteLength a -> slice_from (a ++ b) n = slice_from a n ++ b.
Proof.
  intros Hn. rewrite !slice_from_skipn by lia. rewrite skipn_app.
  replace (Z.to_nat n - List.length a)%nat with 0%nat
    by (unfold byteLength in Hn; lia).
  reflexivity.
Qed.

Lemma slice_from_app_beyond (a b : Buffer) (n : Z) :
  0 <= n -> slice_from (a ++ b) (byteLength a + n) = slice_from b n.
Proof.
  intros Hn. pose proof (byteLength_nonneg a).
  rewrite !slice_from_skipn by lia. rewrite skipn_app.
  rewrite skipn_all2 by (unfold byteLength; lia).
  replace (Z.to_nat (byteLength a + n) - List.length a)%nat
    with (Z.to_nat n) by (unfold byteLength; lia).
  reflexivity.
Qed.

Lemma slice_from_app_exact (a b : Buffer) :
  slice_from (a ++ b) (byteLength a) = b.
Proof.
  pose proof (byteLength_nonneg a).
  rewrite slice_from_skipn by lia. apply skipn_exact. reflexivity.
Qed.

Lemma readDataFrameHeader_similar_fuel (r : Buffer) (f f' : nat)
  (buffer : Buffer) (a b : connection) :
  similar a b ->
  (List.length buffer < f)%nat -> (List.length buffer < f')%nat ->
  similar_result (readDataFrameHeader f r a buffer)
    (readDataFrameHeader f' r b buffer).
Proof.
  intros H Hf Hf'.
  rewrite (readDataFrameHeader_enough r f a buffer Hf).
  rewrite (readDataFrameHeader_enough r f' b buffer Hf').
  apply readDataFrameHeader_similar; [exact H|unfold enough_fuel; lia].
Qed.

Section Split.

Variable r : Buffer.
Variable b2 : Buffer.
Hypothesis b2_nonempty : b2 <> [].

Lemma b2_length : 0 < byteLength b2.
Proof.
  unfold byteLength. destruct b2; [contradiction|]. simpl. lia.
Qed.

Lemma splits_payload (fuel : nat) :
  (forall c b1,
      ends_in_payload_header fuel r c b1 = true ->
      splits r b2 (fun f => readDataFrameHeader f r) c b1) ->
  forall c b1,
    ends_in_payload_with (ends_in_payload_header fuel r) c b1 = true ->
    splits r b2 (fun f => readDataFramePayload f r) c b1.
Proof.
  intros IH c b1 Hends f1 f2 f Hf1 Hf2 Hf.
  pose proof b2_length as Hb2.
  pose proof (byteLength_nonneg b1) as Hb1.
  unfold readDataFramePayload. rewrite !readDataFramePayload_with_steps.
  unfold ends_in_payload_with in Hends.
  destruct (byteLength b1 <=? remainingLength c) eqn:Hle; zbool.
  - (* the first part lies within the payload *)
    assert (HR : 0 <= remainingLength c) by lia.
    assert (Hoff : reads_on c b1 = false).
    { unfold reads_on, payload_length.
      rewrite Z.min_l by lia. rewrite Z.gtb_ltb, Z.ltb_irrefl.
      apply andb_false_r. }
    rewrite Hoff. eexists. split; [reflexivity|].
    rewrite !after_payload_taken by assumption.
    destruct (Z.eq_dec (byteLength b1) (remainingLength c)) as [Heq|Hne].
    + (* the first part ends where the payload ends *)
      destruct (payload_taken_beyond c b1 b2 ltac:(lia))
        as (Et & El & _ & Er).
      rewrite Et.
      assert (Hon : reads_on c (b1 ++ b2) = true).
      { unfold reads_on. rewrite after_payload_taken by assumption.
        rewrite Et, frame_done_remainingLength, Er, El.
        rewrite byteLength_app. simpl. apply Z.gtb_lt. lia. }
      rewrite Hon, El, <- Heq.
      rewrite slice_from_app_exact.
      unfold feed. rewrite frame_done_remainingLength, Er. simpl.
      apply readDataFrameHeader_similar_fuel;
        [apply similar_refl|lia|rewrite length_app in Hf; lia].
    + (* the first part ends before the payload does *)
      destruct (payload_taken_split c b1 b2 ltac:(lia) ltac:(lia))
        as (Hs & El & El1 & Er).
      assert (Hp : frame_done (payload_taken c b1) = payload_taken c b1).
      { unfold frame_done. destruct (_ =? 0) eqn:E0; [zbool; lia|].
        reflexivity. }
      rewrite Hp. unfold feed, readDataFramePayload.
      destruct (remainingLength (payload_taken c b1) =? 0) eqn:E0;
        [zbool; lia|].
      rewrite readDataFramePayload_with_steps.
      assert (HR1 : 0 <= remainingLength (payload_taken c b1)) by lia.
      pose proof (frame_done_similar _ _ Hs) as Hd.
      assert (Hon : reads_on (payload_taken c b1) b2
                    = reads_on c (b1 ++ b2)).
      { unfold reads_on. rewrite !after_payload_taken by assumption.
        rewrite (similar_remainingLength _ _ Hd).
        f_equal. rewrite El, byteLength_app, !Z.gtb_ltb.
        destruct (Z.ltb_spec (payload_length (payload_taken c b1) b2)
                    (byteLength b2));
          destruct (Z.ltb_spec
                      (byteLength b1 + payload_length (payload_taken c b1) b2)
                      (byteLength b1 + byteLength b2));
          try reflexivity; lia. }
      rewrite Hon, !after_payload_taken by assumption.
      destruct (reads_on c (b1 ++ b2)); [|exact Hd].
      rewrite El.
      rewrite slice_from_app_beyond
        by (unfold payload_length; lia).
      pose proof (slice_length_le b2
                    (payload_length (payload_taken c b1) b2)
                    (byteLength b2)) as Hsl.
      apply readDataFrameHeader_similar_fuel; [exact Hd| |];
        unfold slice_from; rewrite ?length_app in *; lia.
  - (* the first part goes beyond the payload *)
    apply andb_prop in Hends as [HR Hk]. zbool.
    destruct (payload_taken_beyond c b1 b2 ltac:(lia))
      as (Et & El & El1 & Er).
    assert (Hon1 : reads_on c b1 = true).
    { unfold reads_on. rewrite after_payload_taken by assumption.
      rewrite frame_done_remainingLength, Er, El1. simpl.
      apply Z.gtb_lt. lia. }
    assert (Hon : reads_on c (b1 ++ b2) = true).
    { unfold reads_on. rewrite after_payload_taken by assumption.
      rewrite Et, frame_done_remainingLength, Er, El.
      rewrite byteLength_app. simpl. apply Z.gtb_lt. lia. }
    rewrite Hon1, Hon, El, El1.
    rewrite (after_payload_taken c (b1 ++ b2)) by assumption.
    rewrite Et, <- (after_payload_taken c b1) by assumption.
    rewrite slice_from_app by lia.
    pose proof (slice_length_le b1 (remainingLength c) (byteLength b1))
      as Hsl.
    apply (IH _ _ Hk); unfold slice_from; rewrite ?length_app in *; lia.
Qed.

Lemma splits_header (fuel : nat) :
  forall c b1,
    ends_in_payload_header fuel r c b1 = true ->
    splits r b2 (fun f => readDataFrameHeader f r) c b1.
Proof.
  induction fuel as [|fuel IH]; intros c b1 Hends; [discriminate|].
  intros f1 f2 f Hf1 Hf2 Hf.
  simpl in Hends.
  destruct (readDataFrameHeader_fields r c b1) as [|[c' idx]] eqn:Hfields;
    [discriminate|].
  pose proof (readDataFrameHeader_fields_next _ _ _ _ _ Hfields) as Hacc.
  destruct (readDataFrameHeader_fields_index _ _ _ _ _ Hfields)
    as [Hidx Hrange].
  assert (Hwhole : readDataFrameHeader_fields r c (b1 ++ b2)
                   = Next (c', idx)).
  { rewrite (readDataFrameHeader_fields_same_prefix r c b1 (b1 ++ b2) Hacc).
    - exact Hfields.
    - apply same_prefix_app. lia. }
  destruct f1 as [|f1]; [lia|]. destruct f as [|f]; [lia|].
  simpl. rewrite Hfields, Hwhole.
  rewrite slice_from_app by lia.
  pose proof (slice_from_length_le b1 idx ltac:(lia) ltac:(lia)) as Hsl.
  apply (splits_payload fuel IH c' (slice_from b1 idx) Hends);
    rewrite ?length_app in *; lia.
Qed.

(** A chunk [b1 ++ b2] cut after [b1], where [b1] ends inside a data
    payload: the two parts leave what the whole chunk leaves. *)
Lemma feed_split (c : connection) (b1 : Buffer) (f1 f2 f : nat) :
  ends_in_payload r c b1 = true ->
  (List.length b1 < f1)%nat -> (List.length b2 < f2)%nat ->
  (List.length (b1 ++ b2) < f)%nat ->
  exists p,
    feed f1 r c b1 = Some p
    /\ similar_result (feed f2 r p b2) (feed f r c (b1 ++ b2)).
Proof.
  unfold ends_in_payload, feed. intros Hends Hf1 Hf2 Hf.
  destruct (remainingLength c =? 0).
  - apply (splits_header _ _ _ Hends); assumption.
  - apply (splits_payload _ (splits_header _) _ _ Hends); assumption.
Qed.

End Split.

Lemma ends_in_payload_header_similar (r : Buffer) (fuel : nat) :
  forall (buffer : Buffer) (a b : connection),
    similar a b ->
    ends_in_payload_header fuel r a buffer
    = ends_in_payload_header fuel r b buffer.
Proof.
  induction fuel as [|fuel IH]; intros buffer a b H; [reflexivity|].
  simpl.
  pose proof (readDataFrameHeader_fields_similar r buffer a b H) as Hf.
  destruct (readDataFrameHeader_fields r a buffer) as [a'|[a' i]],
    (readDataFrameHeader_fields r b buffer) as [b'|[b' j]];
    simpl in Hf; try contradiction; [reflexivity|].
  destruct Hf as [Hs Hij]. simpl in Hij. subst j.
  unfold ends_in_payload_with.
  rewrite <- (similar_remainingLength a' b' Hs).
  repeat break_if; try reflexivity.
  f_equal. apply IH. apply after_payload_similar. exact Hs.
Qed.

Lemma ends_in_payload_similar (r : Buffer) (buffer : Buffer)
  (a b : connection) :
  similar a b -> ends_in_payload r a buffer = ends_in_payload r b buffer.
Proof.
  intros H. unfold ends_in_payload, ends_in_payload_with.
  rewrite <- (similar_remainingLength a b H).
  repeat break_if; try reflexivity.
  - apply ends_in_payload_header_similar. exact H.
  - f_equal. apply ends_in_payload_header_similar.
    apply after_payload_similar. exact H.
Qed.

Lemma similar_result_trans (x y z : option connection) :
  similar_result x y -> similar_result y z -> similar_result x z.
Proof.
  destruct x, y, z; simpl; try contradiction; apply similar_trans.
Qed.

(** A chunk cut in two where the first part ends inside a data payload:
    the two ['data'] events leave what the single one leaves. *)
Lemma onData_split (r : Buffer) (c : connection) (b1 b2 : Buffer)
  (t1 t2 t : Z) :
  b2 <> [] ->
  ends_in_payload r c b1 = true ->
  exists p,
    onData t1 r b1 c = Some p
    /\ similar_result (onData t2 r b2 p) (onData t r (b1 ++ b2) c).
Proof.
  intros Hb2 Hends. rewrite !onData_feed.
  rewrite (ends_in_payload_similar r b1 c (synced t1 c)) in Hends
    by (apply similar_sym, synced_similar).
  destruct (feed_split r b2 Hb2 (synced t1 c) b1
              (enough_fuel b1) (enough_fuel b2) (enough_fuel (b1 ++ b2))
              Hends)
    as (p & Hp & Hsim); try (unfold enough_fuel; lia).
  exists p. split; [exact Hp|].
  rewrite onData_feed.
  eapply similar_result_trans;
    [apply feed_similar;
     [apply synced_similar|unfold enough_fuel; lia]|].
  eapply similar_result_trans; [exact Hsim|].
  apply feed_similar; [|unfold enough_fuel; lia].
  eapply similar_trans; [apply synced_similar|].
  apply similar_sym, synced_similar.
Qed.

(** ** Any number of chunks *)

Lemma run_chunks_similar (r : Buffer) (chunks : list (Z * Buffer)) :
  forall a b,
    similar a b ->
    similar_result (run (chunk_events r chunks) a)
      (run (chunk_events r chunks) b).
Proof.
  induction chunks as [|[t chunk] rest IH]; intros a b H; simpl.
  - exact H.
  - pose proof (onData_similar t t r chunk a b H) as Hs.
    destruct (onData t r chunk a), (onData t r chunk b);
      simpl in Hs; try contradiction.
    apply IH. exact Hs.
Qed.

Lemma run_chunks_whole (r : Buffer) (c : connection)
  (rest : list (Z * Buffer)) :
  forall (first : Buffer) (t1 t : Z),
    cuts_in_payload r c first (map snd rest) = true ->
    similar_result
      (run (chunk_events r ((t1, first) :: rest)) c)
      (onData t r (first ++ List.concat (map snd rest)) c).
Proof.
  induction rest as [|[t2 b] rest IH]; intros first t1 t Hcuts.
  - simpl. rewrite app_nil_r.
    pose proof (onData_similar t1 t r first c c (similar_refl c)) as Hs.
    destruct (onData t1 r first c); [exact Hs|].
    destruct (onData t r first c); contradiction.
  - simpl in Hcuts.
    apply andb_prop in Hcuts as [Hcuts Hrest].
    apply andb_prop in Hcuts as [Hends Hb].
    assert (Hne : b <> []).
    { intros ->. discriminate. }
    destruct (onData_split r c first b t1 t2 t2 Hne Hends) as (p & Hp & Hs).
    specialize (IH (first ++ b) t2 t Hrest).
    simpl in *. rewrite Hp. rewrite app_assoc.
    destruct (onData t2 r b p) as [parts|],
      (onData t2 r (first ++ b) c) as [whole|];
      simpl in Hs; try contradiction.
    eapply similar_result_trans; [|exact IH].
    apply run_chunks_similar. exact Hs.
Qed.

Lemma callbacks_unsynced (t : list effect) :
  deliveries t = callbacks (unsynced t).
Proof.
  unfold deliveries, unsynced.
  induction t as [|e t IH]; [reflexivity|].
  destruct e as [data| |[date|data|data|appCode statusCode error]];
    simpl; rewrite ?IH; reflexivity.
Qed.

Lemma socket_calls_unsynced (t : list effect) :
  socket_calls t = socket_calls (unsynced t).
Proof.
  unfold socket_calls, unsynced.
  induction t as [|e t IH]; [reflexivity|].
  destruct e as [data| |[date|data|data|appCode statusCode error]];
    simpl; rewrite ?IH; reflexivity.
Qed.

Lemma similar_observations (a b : connection) :
  similar a b ->
  deliveries (trace a) = deliveries (trace b)
  /\ socket_calls (trace a) = socket_calls (trace b)
  /\ isOpen a = isOpen b
  /\ remainingLength a = remainingLength b
  /\ isReadingMessage a = isReadingMessage b
  /\ List.concat (payloadBuffers a) = List.concat (payloadBuffers b).
Proof.
  intros (Hc & Hp & Ht). rewrite !callbacks_unsynced.
  rewrite (socket_calls_unsynced (trace a)), (socket_calls_unsynced (trace b)).
  rewrite Ht. repeat split; try assumption.
  - apply (f_equal isAlive) in Hc. exact Hc.
  - apply (f_equal remainingLength) in Hc. exact Hc.
  - apply (f_equal isReadingMessage) in Hc. exact Hc.
Qed.

(** ** Chunk boundaries *)

(** C2, as the code has it. Take a byte sequence cut into chunks so that
    every cut falls inside the payload of a data frame the parser accepts,
    or at its end, and no chunk after a cut is empty. Feeding the chunks
    one by one leaves the connection that feeding the whole sequence as
    one chunk leaves, up to the cutting of [payloadBuffers]: the same
    text, binary and end callbacks in the same order, the same writes, the
    same liveness and parser state. ([onSync] is invoked once per chunk.)
    In particular the masked "Hello" frame cut after its sixth byte
    delivers nothing after the first chunk and one text callback,
    "Hello", after the second. *)
Theorem chunks_cut_in_payloads :
  (forall (r : Buffer) (c : connection) (first : Buffer) (t1 t : Z)
          (rest : list (Z * Buffer)),
      cuts_in_payload r c first (map snd rest) = true ->
      exists parts whole,
        run (chunk_events r ((t1, first) :: rest)) c = Some parts
        /\ onData t r (first ++ List.concat (map snd rest)) c = Some whole
        /\ similar parts whole
        /\ deliveries (trace parts) = deliveries (trace whole)
        /\ socket_calls (trace parts) = socket_calls (trace whole)
        /\ isOpen parts = isOpen whole)
  /\ (forall (now t1 t2 : Z) (r : Buffer) (binary sync end_ : bool),
      exists p parts,
        onData t1 r (firstn 6 hello_frame)
          (server_with_text now binary sync end_) = Some p
        /\ deliveries (trace p) = []
        /\ onData t2 r (skipn 6 hello_frame) p = Some parts
        /\ deliveries (trace parts) = [HostText (js "Hello")]
        /\ isOpen parts = true).
Proof.
  split.
  - intros r c first t1 t rest Hcuts.
    pose proof (run_chunks_whole r c rest first t1 t Hcuts) as Hs.
    destruct (run (chunk_events r ((t1, first) :: rest)) c) as [parts|];
      [|contradiction].
    destruct (onData t r (first ++ List.concat (map snd rest)) c)
      as [whole|]; [|contradiction].
    simpl in Hs. exists parts, whole.
    destruct (similar_observations parts whole Hs) as (Hd & Hw & Ho & _).
    split; [reflexivity|]. split; [reflexivity|]. split; [exact Hs|].
    split; [exact Hd|]. split; [exact Hw|exact Ho].
  - intros now t1 t2 r binary sync end_.
    destruct binary, sync, end_;
      (eexists; eexists; split; [vm_compute; reflexivity|];
       split; [reflexivity|]; split; [vm_compute; reflexivity|];
       split; reflexivity).
Qed.

Lemma chunks_cut_in_payloads_witness :
  exists parts whole,
    run (chunk_events []
           [(1, firstn 8 hello_frame); (2, skipn 8 hello_frame)])
      (server_with_text 0 true true true) = Some parts
    /\ onData 3 [] (firstn 8 hello_frame
                      ++ List.concat [skipn 8 hello_frame])
         (server_with_text 0 true true true) = Some whole
    /\ similar parts whole
    /\ deliveries (trace parts) = deliveries (trace whole)
    /\ socket_calls (trace parts) = socket_calls (trace whole)
    /\ isOpen parts = isOpen whole.
Proof.
  destruct chunks_cut_in_payloads as [Hcut _].
  apply (Hcut [] (server_with_text 0 true true true) (firstn 8 hello_frame)
           1 3 [(2, skipn 8 hello_frame)]).
  vm_compute. reflexivity.
Defined.

(** C2 as stated fails where a cut falls inside a frame header:
    [readDataFrameHeader] drops the connection when a chunk is shorter
    than the header. The "Hello" frame cut after its first byte ends the
    connection with ERR_INAVLID_DATA_FRAME_H2 and delivers no text, where
    the whole frame delivers "Hello". *)
Lemma header_cut_changes_callbacks :
  exists parts whole,
    run (chunk_events [] [(1, firstn 1 hello_frame);
                          (2, skipn 1 hello_frame)])
      (server_with_text 0 false false true) = Some parts
    /\ onData 1 [] hello_frame (server_with_text 0 false false true)
       = Some whole
    /\ callbacks (trace parts)
       = [HostEnd "ERR_INAVLID_DATA_FRAME_H2" 1002 None]
    /\ callbacks (trace whole) = [HostText (js "Hello")]
    /\ callbacks (trace parts) <> callbacks (trace whole).
Proof.
  eexists. eexists.
  split; [vm_compute; reflexivity|]. split; [vm_compute; reflexivity|].
  repeat split. discriminate.
Qed.

(** ** Masking *)

Lemma xor_twice (b k : Z) :
  octet b -> to_uint8 (Z.lxor (to_uint8 (Z.lxor b k)) k) = b.
Proof.
  intros Hb. rewrite <- (to_uint8_octet b Hb) at 2.
  unfold to_uint8. apply Z.bits_inj'. intros n Hn.
  rewrite !Z.land_spec, !Z.lxor_spec, !Z.land_spec, !Z.lxor_spec.
  destruct (Z.testbit b n), (Z.testbit k n), (Z.testbit 255 n); reflexivity.
Qed.

Lemma mask_from_length (key : Buffer) (payload : Buffer) :
  forall i, byteLength (mask_from key i payload) = byteLength payload.
Proof.
  unfold byteLength. induction payload as [|b rest IH]; intros i;
    [reflexivity|].
  simpl List.length. specialize (IH (i + 1)). lia.
Qed.


Lemma rem_succ (i : Z) :
  0 <= i ->
  Z.rem (Z.rem i MASKING_KEY_SIZE + 1) MASKING_KEY_SIZE
  = Z.rem (i + 1) MASKING_KEY_SIZE.
Proof.
  unfold MASKING_KEY_SIZE. intros Hi.
  pose proof (Z.rem_bound_pos i 4 Hi ltac:(lia)).
  rewrite !Z.rem_mod_nonneg by lia.
  rewrite Z.add_mod_idemp_l by lia. reflexivity.
Qed.

(** The streaming unmasking of the parser undoes the masking of
    [createMessageFrame], from any index on. *)
Lemma unmask_mask_from (key : Buffer) (payload : Buffer) :
  Forall octet payload ->
  forall i, 0 <= i ->
    unmask key (Z.rem i MASKING_KEY_SIZE) (mask_from key i payload)
    = (payload, Z.rem (i + byteLength payload) MASKING_KEY_SIZE).
Proof.
  induction 1 as [|b rest Hb Hrest IH]; intros i Hi.
  - simpl. rewrite Z.add_0_r. reflexivity.
  - simpl. rewrite xor_twice by assumption.
    rewrite rem_succ by assumption. rewrite IH by lia.
    unfold byteLength. simpl List.length.
    do 2 f_equal. lia.
Qed.

(** ** A whole binary frame in one chunk *)




(** ** A masked frame cut anywhere in its payload *)







(** ** After a frame, in the same chunk *)

Lemma readDataFrameHeader_close
  (fuel : nat) (r : Buffer) (c : connection) (buffer : Buffer) :
  header_accepted c buffer = true ->
  frame_opCode buffer = OPCODE_CONNECTION_CLOSE ->
  readDataFrameHeader (S fuel) r c buffer
  = Some (dropConnection r 1000 "CLOSED_BY_PEER" None (frame_state c buffer)).
Proof.
  intros Hacc Hop. simpl.
  rewrite (readDataFrameHeader_fields_accepted _ _ _ Hacc).
  unfold readDataFrameHeader_opCode. rewrite Hop. reflexivity.
Qed.

(** C6, as the code has it. When a chunk holds the header of a data frame
    that the parser accepts (text, binary or continuation), all of its
    payload, and further bytes, [readDataFrameHeader] takes the payload,
    completes the frame, and goes on to read the bytes that follow the
    frame as the next header; so does [readDataFramePayload] for a chunk
    that holds the end of a payload and further bytes. A close frame is
    the end of parsing: whatever follows its header in the chunk, the
    result is that of the header alone. *)
Theorem data_frame_then_next_header :
  forall (fuel : nat) (r : Buffer) (c : connection) (buffer : Buffer),
    (forall c' idx,
        readDataFrameHeader_fields r c buffer = Next (c', idx) ->
        0 <= remainingLength c' < byteLength buffer - idx ->
        (frame_opCode buffer = OPCODE_CONTINUATION_FRAME
         \/ frame_opCode buffer = OPCODE_TEXT_FRAME
         \/ frame_opCode buffer = OPCODE_BINARY_FRAME)
        /\ remainingLength (after_payload c' (slice_from buffer idx)) = 0
        /\ readDataFrameHeader (S fuel) r c buffer
           = readDataFrameHeader fuel r
               (after_payload c' (slice_from buffer idx))
               (slice_from buffer (idx + remainingLength c')))
    /\ (0 <= remainingLength c < byteLength buffer ->
        remainingLength (after_payload c buffer) = 0
        /\ readDataFramePayload fuel r c buffer
           = readDataFrameHeader fuel r (after_payload c buffer)
               (slice_from buffer (remainingLength c)))
    /\ (header_accepted c buffer = true ->
        frame_opCode buffer = OPCODE_CONNECTION_CLOSE ->
        forall more : Buffer,
          readDataFrameHeader (S fuel) r c (buffer ++ more)
          = readDataFrameHeader (S fuel) r c buffer).
Proof.
  intros fuel r c buffer.
  assert (Hpayload : forall c0 b,
            0 <= remainingLength c0 < byteLength b ->
            remainingLength (after_payload c0 b) = 0
            /\ readDataFramePayload_with (readDataFrameHeader fuel r) c0 b
               = readDataFrameHeader fuel r (after_payload c0 b)
                   (slice_from b (remainingLength c0))).
  { intros c0 b HR.
    destruct (payload_taken_beyond c0 b [] ltac:(lia)) as (_ & _ & El & Er).
    assert (Hz : remainingLength (after_payload c0 b) = 0).
    { rewrite after_payload_taken by lia.
      rewrite frame_done_remainingLength. exact Er. }
    split; [exact Hz|].
    rewrite readDataFramePayload_with_steps.
    unfold reads_on. rewrite Hz, El. simpl.
    destruct (Z.gtb_spec (byteLength b) (remainingLength c0)); [|lia].
    reflexivity. }
  split; [|split].
  - intros c' idx Hfields HR.
    destruct (readDataFrameHeader_fields_index _ _ _ _ _ Hfields)
      as [Hidx Hrange].
    pose proof (readDataFrameHeader_fields_next _ _ _ _ _ Hfields) as Hacc.
    split.
    + rewrite (readDataFrameHeader_fields_accepted _ _ _ Hacc) in Hfields.
      destruct (readDataFrameHeader_opCode r (frame_state c buffer)
                  (frame_opCode buffer)) as [|c0] eqn:Hop;
        [discriminate|].
      apply readDataFrameHeader_opCode_next in Hop.
      destruct Hop as [(Ho & _) | (Ho & _)]; auto.
    + assert (Hlen : byteLength (slice_from buffer idx)
                     = byteLength buffer - idx).
      { rewrite slice_from_skipn by lia. unfold byteLength in *.
        rewrite length_skipn. lia. }
      destruct (Hpayload c' (slice_from buffer idx) ltac:(lia)) as [Hz Hgo].
      split; [exact Hz|].
      simpl. rewrite Hfields, Hgo.
      rewrite !slice_from_skipn by lia. rewrite skipn_skipn.
      do 2 f_equal. lia.
  - intros HR. apply Hpayload. exact HR.
  - intros Hacc Hop more.
    assert (Hp : same_prefix (frame_header_size buffer) buffer
                   (buffer ++ more)).
    { apply same_prefix_app. unfold header_accepted in Hacc.
      apply andb_prop in Hacc as [Hacc _].
      apply andb_prop in Hacc as [Hacc _]. zbool. exact Hacc. }
    destruct (header_same_prefix c buffer (buffer ++ more) Hacc Hp)
      as (Hb & Es & Eo & _ & _).
    rewrite !readDataFrameHeader_close by congruence.
    rewrite Es. reflexivity.
Qed.

Lemma data_frame_then_next_header_witness :
  readDataFrameHeader 23 [] (server_with_text 0 true true true)
    (hello_frame ++ hello_frame)
  = readDataFrameHeader 22 []
      (after_payload
         (data_frame_state (server_with_text 0 true true true)
            OPCODE_TEXT_FRAME true [55; 250; 33; 61] 5)
         (slice_from (hello_frame ++ hello_frame) 6))
      (slice_from (hello_frame ++ hello_frame) (6 + 5))
  /\ readDataFrameHeader 1 [] (server_with_text 0 true true true)
       ([136; 128; 0; 0; 0; 0] ++ hello_frame)
     = readDataFrameHeader 1 [] (server_with_text 0 true true true)
         [136; 128; 0; 0; 0; 0].
Proof.
  split.
  - destruct (data_frame_then_next_header 22 []
                (server_with_text 0 true true true)
                (hello_frame ++ hello_frame)) as (Hdata & _ & _).
    assert (Hfields :
      readDataFrameHeader_fields [] (server_with_text 0 true true true)
        (hello_frame ++ hello_frame)
      = Next (data_frame_state (server_with_text 0 true true true)
                OPCODE_TEXT_FRAME true [55; 250; 33; 61] 5, 6))
      by (vm_compute; reflexivity).
    assert (Hrange :
      0 <= remainingLength
             (data_frame_state (server_with_text 0 true true true)
                OPCODE_TEXT_FRAME true [55; 250; 33; 61] 5)
        < byteLength (hello_frame ++ hello_frame) - 6)
      by (vm_compute; split; [discriminate|reflexivity]).
    destruct (Hdata _ _ Hfields Hrange) as (_ & _ & Hgo).
    exact Hgo.
  - destruct (data_frame_then_next_header 0 []
                (server_with_text 0 true true true)
                [136; 128; 0; 0; 0; 0]) as (_ & _ & Hclose).
    exact (Hclose eq_refl eq_refl hello_frame).
Defined.

(** C6 as stated fails on control frames: after a ping or a pong
    [readDataFrameHeader] returns, and after a close frame it drops the
    connection, without looking at the rest of the chunk. A server
    receives, in one chunk, an empty masked ping or close frame followed
    by the masked "Hello" frame: the result is that of the control frame
    alone and "Hello" is not delivered. *)
Lemma control_frame_discards_rest_of_chunk :
  onData 1 [] ([137; 128; 0; 0; 0; 0] ++ hello_frame)
    (server_with_text 0 false false true)
  = onData 1 [] [137; 128; 0; 0; 0; 0] (server_with_text 0 false false true)
  /\ option_map trace
       (onData 1 [] ([137; 128; 0; 0; 0; 0] ++ hello_frame)
          (server_with_text 0 false false true))
     = Some [SocketWrite [138; 0]]
  /\ option_map (fun c => callbacks (trace c))
       (onData 1 [] ([136; 128; 0; 0; 0; 0] ++ hello_frame)
          (server_with_text 0 false false true))
     = Some [HostEnd "CLOSED_BY_PEER" 1000 None]
  /\ option_map (fun c => callbacks (trace c))
       (onData 1 [] hello_frame (server_with_text 0 false false true))
     = Some [HostText (js "Hello")].
Proof.
  split; [vm_compute; reflexivity|].
  split; [vm_compute; reflexivity|].
  split; vm_compute; reflexivity.
Qed.

(** ** The masking key in payload-expected state *)

Lemma dropConnection_frame (r : Buffer) (sc : Z) (ac : string)
  (err : option string) (c : connection) :
  remainingLength (dropConnection r sc ac err c) = remainingLength c
  /\ isMasked (dropConnection r sc ac err c) = isMasked c
  /\ maskingKey (dropConnection r sc ac err c) = maskingKey c.
Proof. unfold dropConnection. repeat break_if; auto. Qed.

Lemma readDataFrameHeader_opCode_return
  (r : Buffer) (c c' : connection) (opCode : Z) :
  readDataFrameHeader_opCode r c opCode = Return c' ->
  remainingLength c' = remainingLength c.
Proof.
  unfold readDataFrameHeader_opCode.
  repeat break_if; intros H; inversion H; subst;
    try apply dropConnection_frame; reflexivity.
Qed.

Lemma readDataFrameHeader_fields_return
  (r : Buffer) (c c' : connection) (b : Buffer) :
  readDataFrameHeader_fields r c b = Return c' ->
  remainingLength c' = remainingLength c.
Proof.
  unfold readDataFrameHeader_fields.
  repeat first
    [ progress cbn [flow_bind]
    | match goal with
      | |- context [if ?x then _ else _] => destruct x eqn:?
      end ].
  all: try (intros H; inversion H; subst;
            rewrite (proj1 (dropConnection_frame _ _ _ _ _)); reflexivity).
  all: match goal with
       | |- context [readDataFrameHeader_opCode ?r ?c0 ?op] =>
           pose proof (readDataFrameHeader_opCode_return r c0) as Hop;
           destruct (readDataFrameHeader_opCode r c0 op) eqn:E;
           simpl; intros H; inversion H; subst;
           rewrite (Hop _ _ E); reflexivity
       end.
Qed.

Lemma readDataFrameHeader_fields_key
  (r : Buffer) (c c' : connection) (b : Buffer) (idx : Z) :
  readDataFrameHeader_fields r c b = Next (c', idx) -> key_present c'.
Proof.
  intros H. pose proof (readDataFrameHeader_fields_next _ _ _ _ _ H) as Ha.
  rewrite (readDataFrameHeader_fields_accepted _ _ _ Ha) in H.
  destruct (readDataFrameHeader_opCode r (frame_state c b) (frame_opCode b))
    as [|c0] eqn:Hop; [discriminate|].
  simpl in H. inversion H; subst.
  apply readDataFrameHeader_opCode_next in Hop.
  unfold key_present, frame_state in *.
  destruct Hop as [(_ & _ & ->) | (_ & _ & ->)];
    destruct (frame_masked b); simpl; congruence.
Qed.

Lemma after_payload_keyed (c : connection) (buffer : Buffer) :
  key_present c -> keyed (after_payload c buffer).
Proof.
  unfold key_present, keyed, after_payload, readDataFramePayload_with.
  intros Hkey. destruct (isMasked c) eqn:Hm.
  - destruct (unmask _ _ _) as [u i]. cbv zeta.
    repeat break_if; simpl;
      rewrite ?onFrameComplete_remainingLength; simpl;
      try rewrite Hm; zbool; simpl in *; auto; try congruence.
  - cbv beta iota zeta.
    repeat break_if; simpl;
      rewrite ?onFrameComplete_remainingLength; simpl;
      zbool; simpl in *; try congruence.
Qed.

Lemma readDataFrameHeader_keyed (r : Buffer) (fuel : nat) :
  forall (c c' : connection) (b : Buffer),
    remainingLength c = 0 ->
    readDataFrameHeader fuel r c b = Some c' -> keyed c'.
Proof.
  induction fuel as [|fuel IH]; intros c c' b Hrem H; [discriminate|].
  simpl in H.
  destruct (readDataFrameHeader_fields r c b) as [c1|[c1 idx]] eqn:Hf.
  - inversion H; subst.
    apply readDataFrameHeader_fields_return in Hf.
    unfold keyed. congruence.
  - apply readDataFrameHeader_fields_key in Hf.
    rewrite readDataFramePayload_with_steps in H.
    destruct (reads_on c1 (slice_from b idx)) eqn:Hon.
    + unfold reads_on in Hon. apply andb_prop in Hon as [Hz _]. zbool.
      apply (IH _ _ _ Hz H).
    + inversion H; subst. apply after_payload_keyed. exact Hf.
Qed.

Lemma onData_keyed (now : Z) (r : Buffer) (buffer : Buffer)
  (c c' : connection) :
  keyed c -> onData now r buffer c = Some c' -> keyed c'.
Proof.
  rewrite onData_feed. unfold feed, readDataFramePayload.
  assert (Hs : remainingLength (synced now c) = remainingLength c
               /\ isMasked (synced now c) = isMasked c
               /\ maskingKey (synced now c) = maskingKey c).
  { unfold synced. simpl. destruct (onSync c); auto. }
  destruct Hs as (Hr & Hm & Hk). intros Hkeyed.
  destruct (remainingLength (synced now c) =? 0) eqn:E; zbool.
  - apply readDataFrameHeader_keyed. exact E.
  - rewrite readDataFramePayload_with_steps.
    assert (Hp : key_present (synced now c)).
    { unfold key_present, keyed in *. rewrite Hm, Hk. apply Hkeyed. lia. }
    destruct (reads_on (synced now c) buffer) eqn:Hon.
    + unfold reads_on in Hon. apply andb_prop in Hon as [Hz _]. zbool.
      apply readDataFrameHeader_keyed. exact Hz.
    + intros H. inversion H; subst. apply after_payload_keyed. exact Hp.
Qed.

Lemma handle_keyed (e : event) (c c' : connection) :
  keyed c -> handle e c = Some c' -> keyed c'.
Proof.
  destruct e; simpl; intros Hk H;
    try (eapply onData_keyed; eassumption);
    inversion H; subst; unfold keyed in *;
    try (destruct (dropConnection_frame randomBytes 1000
                     "CONNECTION_CLOSED" None c) as (-> & -> & ->));
    try (destruct (dropConnection_frame randomBytes 1011
                     "NETWORK_ERROR" (Some error) c) as (-> & -> & ->));
    try (destruct (dropConnection_frame randomBytes 1008
                     "TIMEOUT" None c) as (-> & -> & ->));
    try (destruct (dropConnection_frame randomBytes 1000
                     "CLOSED_BY_SELF" None c) as (-> & -> & ->));
    exact Hk.
Qed.

Lemma run_keyed (events : list event) :
  forall c c',
    keyed c -> run events c = Some c' -> keyed c'.
Proof.
  induction events as [|e rest IH]; intros c c' Hk H; simpl in H.
  - inversion H; subst. exact Hk.
  - destruct (handle e c) as [c1|] eqn:He; [|discriminate].
    apply (IH c1 c'); [|exact H]. eapply handle_keyed; eassumption.
Qed.

(** Along every execution of a new connection, a connection that expects
    the payload of a masked frame holds its masking key: the unmasking
    loop never reads a key that is [null]. *)
Lemma masked_payload_has_key
  (events : list event) (p m : bool) (now : Z) (c' : connection) :
  run events (WebSocketConnection p m now) = Some c' -> keyed c'.
Proof.
  apply run_keyed. unfold keyed. simpl. congruence.
Qed.

Lemma readDataFrameHeader_opCode_shape
  (r : Buffer) (c : connection) (opCode : Z) :
  match readDataFrameHeader_opCode r c opCode with
  | Return c' => header_return r c c'
  | Next c' => public_state c' = public_state c
  end.
Proof.
  unfold readDataFrameHeader_opCode.
  repeat break_if; try reflexivity;
    solve [ apply ReturnsBare; reflexivity
          | apply ReturnsPong; reflexivity
          | eapply ReturnsDrop; reflexivity ].
Qed.

Lemma readDataFrameHeader_fields_shape
  (r : Buffer) (c : connection) (b : Buffer) :
  match readDataFrameHeader_fields r c b with
  | Return c' =>
      exists c0, public_state c0 = public_state c /\ header_return r c0 c'
  | Next (c', _) => public_state c' = public_state c
  end.
Proof.
  unfold readDataFrameHeader_fields.
  repeat first
    [ progress cbn [flow_bind]
    | match goal with
      | |- context [if ?x then _ else _] => destruct x eqn:?
      end ].
  all: try solve [eexists; split; [|eapply ReturnsDrop; reflexivity];
                  reflexivity].
  all: match goal with
       | |- context [readDataFrameHeader_opCode ?r ?c0 ?op] =>
           pose proof (readDataFrameHeader_opCode_shape r c0 op) as H;
           destruct (readDataFrameHeader_opCode r c0 op); simpl in *
       end.
  all: try solve [eexists; split; [|exact H]; reflexivity].
  all: etransitivity; [|etransitivity; [exact H|]]; reflexivity.
Qed.

Lemma delivers_refl (c : connection) : delivers c c.
Proof.
  exists []. simpl. rewrite app_nil_r. destruct c. repeat split. lia.
Qed.

Lemma onFrameComplete_delivers (c : connection) :
  delivers c (onFrameComplete c).
Proof.
  unfold onFrameComplete.
  destruct (payloadOpCode (set_isReadingMessage false c) =? OPCODE_BINARY_FRAME).
  - destruct (onBinaryMessage (set_isReadingMessage false c)) eqn:E.
    + eexists [_]. repeat split. simpl. lia.
    + exists []. simpl. rewrite app_nil_r. repeat split. lia.
  - destruct (payloadOpCode (set_isReadingMessage false c) =? OPCODE_TEXT_FRAME).
    + destruct (onTextMessage (set_isReadingMessage false c)) eqn:E.
      * eexists [_]. repeat split. simpl. lia.
      * exists []. simpl. rewrite app_nil_r. repeat split. lia.
    + exists []. simpl. rewrite app_nil_r. repeat split. lia.
Qed.

Lemma delivers_public (a b c : connection) :
  public_state b = public_state a -> delivers b c -> delivers a c.
Proof.
  intros H (calls & Hc & Hm & Hl). exists calls. repeat split; try assumption.
  rewrite Hc. unfold public_state in *. simpl. congruence.
Qed.

Lemma after_payload_delivers (c : connection) (buffer : Buffer) :
  delivers c (after_payload c buffer).
Proof.
  unfold after_payload, readDataFramePayload_with.
  destruct (isMasked c).
  - destruct (unmask _ _ _) as [u i]. cbv zeta.
    repeat break_if;
      first [ apply delivers_refl
            | eapply delivers_public;
              [|apply onFrameComplete_delivers]; reflexivity
            | eapply delivers_public; [|apply delivers_refl]; reflexivity ].
  - cbv beta iota zeta.
    repeat break_if;
      first [ apply delivers_refl
            | eapply delivers_public;
              [|apply onFrameComplete_delivers]; reflexivity
            | eapply delivers_public; [|apply delivers_refl]; reflexivity ].
Qed.

(** ** Properties kept from header to header *)

Section Stepwise.

Variables I M F : connection -> Prop.
Variable r : Buffer.

Hypothesis fields_step :
  forall c b, I c ->
    match readDataFrameHeader_fields r c b with
    | Return c' => F c'
    | Next (c', _) => M c'
    end.
Hypothesis payload_step : forall c b, M c -> I (after_payload c b).
Hypothesis settled : forall c, I c -> F c.

Lemma readDataFramePayload_with_stepwise
  (k : connection -> Buffer -> option connection) :
  (forall c c' b, I c -> k c b = Some c' -> F c') ->
  forall c c' b, M c -> readDataFramePayload_with k c b = Some c' -> F c'.
Proof.
  intros Hk c c' b Hm. rewrite readDataFramePayload_with_steps.
  pose proof (payload_step c b Hm) as Hi.
  destruct (reads_on c b); intros H.
  - eapply Hk; eassumption.
  - inversion H; subst. apply settled. exact Hi.
Qed.

Lemma readDataFrameHeader_stepwise (fuel : nat) :
  forall c c' b, I c -> readDataFrameHeader fuel r c b = Some c' -> F c'.
Proof.
  induction fuel as [|fuel IH]; intros c c' b Hi H; [discriminate|].
  simpl in H. pose proof (fields_step c b Hi) as Hf.
  destruct (readDataFrameHeader_fields r c b) as [c1|[c1 idx]].
  - inversion H; subst. exact Hf.
  - eapply readDataFramePayload_with_stepwise; eassumption.
Qed.

Hypothesis resumes : forall c, I c -> remainingLength c <> 0 -> M c.

Lemma feed_stepwise (fuel : nat) (c c' : connection) (b : Buffer) :
  I c -> feed fuel r c b = Some c' -> F c'.
Proof.
  unfold feed, readDataFramePayload. intros Hi.
  destruct (remainingLength c =? 0) eqn:E; zbool.
  - apply readDataFrameHeader_stepwise. exact Hi.
  - apply readDataFramePayload_with_stepwise.
    + apply readDataFrameHeader_stepwise.
    + apply resumes; assumption.
Qed.

End Stepwise.

Lemma run_invariant (P : connection -> Prop) :
  (forall e c c', P c -> handle e c = Some c' -> P c') ->
  forall events c c', P c -> run events c = Some c' -> P c'.
Proof.
  intros Hstep events.
  induction events as [|e rest IH]; intros c c' Hp H; simpl in H.
  - inversion H; subst. exact Hp.
  - destruct (handle e c) as [c1|] eqn:He; [|discriminate].
    eapply IH; [|exact H]. eapply Hstep; eassumption.
Qed.

(** ** The mask bit of the frames a connection writes *)

Lemma createMessageFrame_masked
  (opCode : Z) (payload : Buffer) (toMask : bool) (key : Buffer) :
  frame_masked (createMessageFrame opCode payload toMask key) = toMask.
Proof.
  rewrite createMessageFrame_bytes. unfold frame_masked.
  cbn [app]. change (byte_at (?a :: ?b :: ?l) 1) with b.
  pose proof (byteLength_nonneg payload) as Hn.
  assert (Hcode : 0 <= length_code (byteLength payload) < 128)
    by (unfold length_code; repeat break_if; zbool; lia).
  rewrite (length_code_octet toMask _ Hcode).
  apply (byte1_bits toMask _ Hcode).
Qed.

Lemma written_frames_app (t u : list effect) :
  written_frames (t ++ u) = written_frames t ++ written_frames u.
Proof. unfold written_frames. apply flat_map_app. Qed.

Lemma written_frames_callbacks (calls : list callback) :
  written_frames (map Callback calls) = [].
Proof. induction calls as [|call calls IH]; [reflexivity|exact IH]. Qed.

Lemma masks_as_public (m : bool) (c c' : connection) :
  public_state c' = public_state c -> masks_as m c -> masks_as m c'.
Proof.
  unfold public_state, masks_as. intros H. inversion H. congruence.
Qed.

Lemma masks_as_emit (m : bool) (w : Buffer) (c : connection) :
  frame_masked w = m -> masks_as m c -> masks_as m (emit (SocketWrite w) c).
Proof.
  unfold masks_as, emit. simpl. intros Hw [Hm Hf]. split; [exact Hm|].
  rewrite written_frames_app. apply Forall_app. split; [exact Hf|].
  repeat constructor. exact Hw.
Qed.

Lemma frameDataPing_masked (c : connection) :
  frame_masked (frameDataPing c) = toMaskOwnMessages c.
Proof. unfold frameDataPing. destruct (toMaskOwnMessages c); reflexivity. Qed.

Lemma frameDataPong_masked (c : connection) :
  frame_masked (frameDataPong c) = toMaskOwnMessages c.
Proof. unfold frameDataPong. destruct (toMaskOwnMessages c); reflexivity. Qed.

Lemma masks_as_dropConnection
  (m : bool) (r : Buffer) (sc : Z) (ac : string) (err : option string)
  (c : connection) :
  masks_as m c -> masks_as m (dropConnection r sc ac err c).
Proof.
  intros H. unfold dropConnection. destruct (negb (isAlive c)); [exact H|].
  assert (H1 : masks_as m
            (emit (SocketWrite
                     (createCloseFrame sc
                        (toMaskOwnMessages (set_isAlive false c)) r))
               (set_isAlive false c))).
  { apply masks_as_emit.
    - unfold createCloseFrame. rewrite createMessageFrame_masked.
      apply H.
    - exact H. }
  cbv zeta.
  match goal with
  | |- masks_as m (if ?b then _ else _) => destruct b
  end.
  all: destruct H1 as [Hm Hf]; split; [exact Hm|].
  all: unfold emit in *; simpl in *; rewrite !written_frames_app in *.
  all: simpl; rewrite ?app_nil_r; exact Hf.
Qed.

Lemma masks_as_header_return (m : bool) (r : Buffer) (c c' : connection) :
  header_return r c c' -> masks_as m c -> masks_as m c'.
Proof.
  intros [-> | -> | sc ac ->] H.
  - exact H.
  - apply masks_as_emit; [|exact H]. rewrite frameDataPong_masked. apply H.
  - apply masks_as_dropConnection. exact H.
Qed.

Lemma masks_as_delivers (m : bool) (c c' : connection) :
  delivers c c' -> masks_as m c -> masks_as m c'.
Proof.
  intros (calls & Hc & _ & _) [Hm Hf]. unfold public_state in Hc.
  inversion Hc as [[H1 H2 H3 H4 H5 H6 H7 H8 H9]]. simpl in H9.
  split; [congruence|]. rewrite H9, written_frames_app.
  rewrite written_frames_callbacks, app_nil_r. exact Hf.
Qed.

Lemma onData_masks_as
  (m : bool) (now : Z) (r : Buffer) (buffer : Buffer) (c c' : connection) :
  masks_as m c -> onData now r buffer c = Some c' -> masks_as m c'.
Proof.
  rewrite onData_feed. intros H.
  apply (feed_stepwise (masks_as m) (masks_as m) (masks_as m) r).
  - intros c0 b Hc0.
    pose proof (readDataFrameHeader_fields_shape r c0 b) as Hs.
    destruct (readDataFrameHeader_fields r c0 b) as [c1|[c1 idx]].
    + destruct Hs as (c2 & Hp & Hr).
      eapply masks_as_header_return; [exact Hr|].
      eapply masks_as_public; eassumption.
    + eapply masks_as_public; eassumption.
  - intros c0 b. apply masks_as_delivers, after_payload_delivers.
  - auto.
  - auto.
  - unfold synced. destruct (onSync (set_lastSyncDate now c)).
    + destruct H as [Hm Hf]. split; [exact Hm|].
      unfold emit. simpl. rewrite written_frames_app, app_nil_r. exact Hf.
    + exact H.
Qed.

Lemma handle_masks_as (m : bool) (e : event) (c c' : connection) :
  masks_as m c -> handle e c = Some c' -> masks_as m c'.
Proof.
  destruct e; simpl; intros Hm H;
    try (eapply onData_masks_as; eassumption);
    inversion H; subst;
    try (apply masks_as_dropConnection; exact Hm);
    try exact Hm.
  - apply masks_as_emit; [|exact Hm].
    unfold createTextFrame. rewrite createMessageFrame_masked. apply Hm.
  - apply masks_as_emit; [|exact Hm].
    unfold createBinaryFrame. rewrite createMessageFrame_masked. apply Hm.
  - apply masks_as_emit; [|exact Hm].
    rewrite frameDataPing_masked. apply Hm.
Qed.

(** X1. Along every execution of a connection, every frame given to
    [socket.write] carries the mask bit of the connection's role: set on
    each frame of a connection constructed with [toMaskOwnMessages] (the
    client of [createClientConnection]), clear on each frame of one
    constructed without (the server of [serverUpgradeRequest]). This
    holds of the messages, the pings, the pongs and the close frames. *)
Theorem frames_masked_by_role :
  forall (events : list event) (p m : bool) (now : Z) (c' : connection),
    run events (WebSocketConnection p m now) = Some c' ->
    Forall (fun w => frame_masked w = m) (written_frames (trace c')).
Proof.
  intros events p m now c' H.
  apply (run_invariant (masks_as m) (handle_masks_as m) events _ _) in H.
  - apply H.
  - split; [reflexivity|constructor].
Qed.

Lemma frames_masked_by_role_witness :
  Forall (fun w => frame_masked w = true)
    [[129; 130; 1; 2; 3; 4; 105; 107]; [138; 128; 0; 0; 0; 0];
     [136; 132; 5; 6; 7; 8; 52; 54; 55; 56]].
Proof.
  apply (frames_masked_by_role
           [CallSendTextMessage [1; 2; 3; 4] (js "hi");
            SocketOnData 1 [] [137; 0];
            CallEnd [5; 6; 7; 8]]
           false true 0
           (set_trace
              [SocketWrite [129; 130; 1; 2; 3; 4; 105; 107];
               SocketWrite [138; 128; 0; 0; 0; 0];
               SocketWrite [136; 132; 5; 6; 7; 8; 52; 54; 55; 56];
               SocketEnd]
              (set_maskingKey None
                 (set_isFinSet true
                    (set_lastSyncDate 1 (set_isAlive false (client 0))))))).
  vm_compute. reflexivity.
Defined.

(** ** The date of the last chunk *)

Lemma dropConnection_lastSyncDate
  (r : Buffer) (sc : Z) (ac : string) (err : option string) (c : connection) :
  lastSyncDate (dropConnection r sc ac err c) = lastSyncDate c.
Proof. unfold dropConnection. repeat break_if; reflexivity. Qed.

Lemma header_return_lastSyncDate (r : Buffer) (c c' : connection) :
  header_return r c c' -> lastSyncDate c' = lastSyncDate c.
Proof.
  intros [-> | -> | sc ac ->]; try reflexivity.
  apply dropConnection_lastSyncDate.
Qed.

Lemma public_state_lastSyncDate (c c' : connection) :
  public_state c' = public_state c -> lastSyncDate c' = lastSyncDate c.
Proof. unfold public_state. intros H. inversion H. congruence. Qed.

Lemma onData_lastSyncDate
  (now : Z) (r : Buffer) (buffer : Buffer) (c c' : connection) :
  onData now r buffer c = Some c' -> lastSyncDate c' = now.
Proof.
  rewrite onData_feed.
  apply (feed_stepwise (fun c => lastSyncDate c = now)
           (fun c => lastSyncDate c = now) (fun c => lastSyncDate c = now) r).
  - intros c0 b Hc0.
    pose proof (readDataFrameHeader_fields_shape r c0 b) as Hs.
    destruct (readDataFrameHeader_fields r c0 b) as [c1|[c1 idx]].
    + destruct Hs as (c2 & Hp & Hr).
      rewrite (header_return_lastSyncDate _ _ _ Hr).
      rewrite (public_state_lastSyncDate _ _ Hp). exact Hc0.
    + rewrite (public_state_lastSyncDate _ _ Hs). exact Hc0.
  - intros c0 b Hc0.
    destruct (after_payload_delivers c0 b) as (calls & Hc & _).
    rewrite (public_state_lastSyncDate _ _ Hc). exact Hc0.
  - auto.
  - auto.
  - unfold synced. destruct (onSync (set_lastSyncDate now c)); reflexivity.
Qed.

(** X2. [getLastSyncDate()] is the date of the last chunk the socket
    delivered, or the date of construction when there was none: every
    ['data'] event sets it, whatever the chunk holds (a frame the parser
    rejects, bytes received after the connection was dropped), and no
    other event or operation changes it. *)
Theorem getLastSyncDate_last_chunk :
  forall (events : list event) (c c' : connection),
    run events c = Some c' ->
    getLastSyncDate c' = last_chunk_date (getLastSyncDate c) events.
Proof.
  unfold getLastSyncDate.
  induction events as [|e rest IH]; intros c c' H; simpl in H.
  - inversion H; subst. reflexivity.
  - destruct (handle e c) as [c1|] eqn:He; [|discriminate].
    rewrite (IH _ _ H). clear IH H.
    destruct e; simpl in *;
      try (apply onData_lastSyncDate in He; rewrite He; reflexivity);
      inversion He; subst;
      rewrite ?dropConnection_lastSyncDate; reflexivity.
Qed.

Lemma getLastSyncDate_last_chunk_witness :
  exists c',
    run [SocketOnData 5 [] [1]; CallSendPing; SocketOnData 9 [] [];
         SocketOnTimeout []] (server 0) = Some c'
    /\ getLastSyncDate c' = 9.
Proof.
  evaluate_run.
  apply (getLastSyncDate_last_chunk
           [SocketOnData 5 [] [1]; CallSendPing; SocketOnData 9 [] [];
            SocketOnTimeout []]
           (server 0)).
  vm_compute. reflexivity.
Defined.

(** ** What a chunk makes the parser do to the socket *)

Lemma socket_calls_app (t u : list effect) :
  socket_calls (t ++ u) = socket_calls t ++ socket_calls u.
Proof. unfold socket_calls. apply filter_app. Qed.

Lemma socket_calls_callbacks (calls : list callback) :
  socket_calls (map Callback calls) = [].
Proof. induction calls as [|call calls IH]; [reflexivity|exact IH]. Qed.

Lemma frameDataPong_public (c c' : connection) :
  toMaskOwnMessages c' = toMaskOwnMessages c ->
  frameDataPong c' = frameDataPong c.
Proof. unfold frameDataPong. intros ->. reflexivity. Qed.

Lemma header_return_socket_calls (r : Buffer) (c c' : connection) :
  header_return r c c' ->
  exists calls,
    socket_calls (trace c') = socket_calls (trace c) ++ calls
    /\ chunk_socket_calls r c c' calls.
Proof.
  intros [-> | -> | sc ac ->].
  - exists []. rewrite app_nil_r. split; [reflexivity|].
    apply ChunkSilent. reflexivity.
  - eexists. split; [|apply ChunkPong; reflexivity].
    unfold sendPong, emit. simpl. apply socket_calls_app.
  - destruct (isAlive c) eqn:Ha.
    + rewrite dropConnection_alive by exact Ha.
      eexists. split; [|apply (ChunkDrop r c _ sc); [exact Ha|reflexivity]].
      simpl. rewrite socket_calls_app. f_equal.
      unfold drop_effects. destruct (onEnd c); reflexivity.
    + rewrite dropConnection_dead by exact Ha.
      exists []. rewrite app_nil_r. split; [reflexivity|].
      apply ChunkSilent. reflexivity.
Qed.

Lemma chunk_socket_calls_public (r : Buffer) (c0 c c' : connection)
  (calls : list effect) :
  toMaskOwnMessages c = toMaskOwnMessages c0 ->
  isAlive c = isAlive c0 ->
  chunk_socket_calls r c c' calls -> chunk_socket_calls r c0 c' calls.
Proof.
  intros Hm Ha [H | H | sc H1 H2].
  - apply ChunkSilent. congruence.
  - rewrite (frameDataPong_public c0 c Hm). apply ChunkPong. congruence.
  - rewrite Hm. apply ChunkDrop; congruence.
Qed.

(** X3. A chunk makes the parser call the socket in one of three ways
    only: not at all; one write of the header-only pong frame, the
    connection staying as alive as it was; or, on a connection that was
    alive, one write of a close frame followed by [socket.end()], the
    connection being dead afterwards. However many frames the chunk
    holds, there is at most one write. *)
Theorem chunk_calls_the_socket_at_most_once :
  forall (now : Z) (r : Buffer) (buffer : Buffer) (c c' : connection),
    onData now r buffer c = Some c' ->
    exists calls,
      socket_calls (trace c') = socket_calls (trace c) ++ calls
      /\ chunk_socket_calls r c c' calls.
Proof.
  intros now r buffer c c'. rewrite onData_feed.
  set (I := fun c1 => socket_calls (trace c1) = socket_calls (trace c)
                      /\ toMaskOwnMessages c1 = toMaskOwnMessages c
                      /\ isAlive c1 = isAlive c).
  set (F := fun c1 => exists calls,
                socket_calls (trace c1) = socket_calls (trace c) ++ calls
                /\ chunk_socket_calls r c c1 calls).
  assert (Hpublic : forall a b, public_state b = public_state a -> I a -> I b).
  { unfold public_state, I. intros a b H. inversion H. intuition congruence. }
  apply (feed_stepwise I I F r).
  - intros c0 b Hc0.
    pose proof (readDataFrameHeader_fields_shape r c0 b) as Hs.
    destruct (readDataFrameHeader_fields r c0 b) as [c1|[c1 idx]].
    + destruct Hs as (c2 & Hp & Hr).
      apply (Hpublic _ _ Hp) in Hc0. destruct Hc0 as (Ht & Hm & Ha).
      destruct (header_return_socket_calls r c2 c1 Hr) as (calls & H1 & H2).
      exists calls. split; [congruence|].
      eapply chunk_socket_calls_public; eassumption.
    + eapply Hpublic; eassumption.
  - intros c0 b Hc0.
    destruct (after_payload_delivers c0 b) as (calls & Hc & _).
    apply (Hpublic _ _ Hc). destruct Hc0 as (Ht & Hm & Ha).
    unfold I. simpl. rewrite socket_calls_app, socket_calls_callbacks.
    rewrite app_nil_r. auto.
  - intros c0 (Ht & Hm & Ha). exists []. rewrite app_nil_r.
    split; [exact Ht|]. apply ChunkSilent. exact Ha.
  - auto.
  - unfold synced, I. destruct (onSync (set_lastSyncDate now c)); simpl.
    + rewrite socket_calls_app, app_nil_r. auto.
    + auto.
Qed.

Lemma chunk_calls_the_socket_at_most_once_witness :
  exists c',
    onData 1 []
      ([137; 128; 0; 0; 0; 0] ++ [137; 128; 0; 0; 0; 0] ++ hello_frame)
      (server 0) = Some c'
    /\ exists calls,
         socket_calls (trace c') = socket_calls (trace (server 0)) ++ calls
         /\ chunk_socket_calls [] (server 0) c' calls.
Proof.
  evaluate_run.
  eapply (chunk_calls_the_socket_at_most_once 1 []
            ([137; 128; 0; 0; 0; 0] ++ [137; 128; 0; 0; 0; 0] ++ hello_frame)
            (server 0)).
  vm_compute. reflexivity.
Defined.

(** ** Close frames and [socket.end] *)

Lemma socket_ends_app (t u : list effect) :
  socket_ends (t ++ u) = (socket_ends t + socket_ends u)%nat.
Proof. unfold socket_ends. rewrite filter_app, length_app. reflexivity. Qed.

Lemma close_frames_app (t u : list effect) :
  close_frames (t ++ u) = (close_frames t + close_frames u)%nat.
Proof. unfold close_frames. rewrite filter_app, length_app. reflexivity. Qed.

Lemma createMessageFrame_opCode
  (opCode : Z) (payload : Buffer) (toMask : bool) (key : Buffer) :
  frame_opCode (createMessageFrame opCode payload toMask key)
  = Z.land (to_uint8 (128 + opCode)) 15.
Proof. rewrite createMessageFrame_bytes. reflexivity. Qed.

Lemma ended_when_dead_public (c c' : connection) :
  public_state c' = public_state c -> ended_when_dead c -> ended_when_dead c'.
Proof.
  unfold public_state, ended_when_dead. intros H. inversion H. congruence.
Qed.

Lemma ended_when_dead_emit (e : effect) (c : connection) :
  is_socket_end e = false -> is_close_frame e = false ->
  ended_when_dead c -> ended_when_dead (emit e c).
Proof.
  unfold ended_when_dead, emit. cbn [trace set_trace isAlive].
  intros He Hc [H1 H2].
  rewrite socket_ends_app, close_frames_app.
  assert (E1 : socket_ends [e] = 0%nat)
    by (unfold socket_ends; simpl; rewrite He; reflexivity).
  assert (E2 : close_frames [e] = 0%nat)
    by (unfold close_frames; simpl; rewrite Hc; reflexivity).
  lia.
Qed.

Lemma ended_when_dead_dropConnection
  (r : Buffer) (sc : Z) (ac : string) (err : option string) (c : connection) :
  ended_when_dead c -> ended_when_dead (dropConnection r sc ac err c).
Proof.
  intros H. destruct (isAlive c) eqn:Ha.
  - rewrite dropConnection_alive by exact Ha.
    unfold ended_when_dead in *. simpl. rewrite Ha in H.
    rewrite socket_ends_app, close_frames_app. destruct H as [H1 H2].
    rewrite H1 in *. rewrite H2.
    unfold drop_effects, socket_ends, close_frames. simpl.
    unfold createCloseFrame. rewrite createMessageFrame_opCode.
    destruct (onEnd c); split; reflexivity.
  - rewrite dropConnection_dead by exact Ha. exact H.
Qed.

Lemma ended_when_dead_header_return (r : Buffer) (c c' : connection) :
  header_return r c c' -> ended_when_dead c -> ended_when_dead c'.
Proof.
  intros [-> | -> | sc ac ->] H.
  - exact H.
  - apply ended_when_dead_emit; [reflexivity| |exact H].
    unfold frameDataPong. destruct (toMaskOwnMessages c); reflexivity.
  - apply ended_when_dead_dropConnection. exact H.
Qed.

Lemma ended_when_dead_delivers (c c' : connection) :
  delivers c c' -> ended_when_dead c -> ended_when_dead c'.
Proof.
  intros (calls & Hc & _ & _) [H1 H2]. unfold public_state in Hc.
  inversion Hc as [[E1 E2 E3 E4 E5 E6 E7 E8 E9]]. simpl in E9.
  unfold ended_when_dead. rewrite E7, E9.
  rewrite socket_ends_app, close_frames_app.
  assert (Hn : socket_ends (map Callback calls) = 0%nat
               /\ close_frames (map Callback calls) = 0%nat).
  { clear. induction calls as [|call calls IH]; [split; reflexivity|].
    exact IH. }
  destruct Hn as [-> ->]. lia.
Qed.

Lemma onData_ended_when_dead
  (now : Z) (r : Buffer) (buffer : Buffer) (c c' : connection) :
  ended_when_dead c -> onData now r buffer c = Some c' -> ended_when_dead c'.
Proof.
  rewrite onData_feed. intros H.
  apply (feed_stepwise ended_when_dead ended_when_dead ended_when_dead r).
  - intros c0 b Hc0.
    pose proof (readDataFrameHeader_fields_shape r c0 b) as Hs.
    destruct (readDataFrameHeader_fields r c0 b) as [c1|[c1 idx]].
    + destruct Hs as (c2 & Hp & Hr).
      eapply ended_when_dead_header_return; [exact Hr|].
      eapply ended_when_dead_public; eassumption.
    + eapply ended_when_dead_public; eassumption.
  - intros c0 b. apply ended_when_dead_delivers, after_payload_delivers.
  - auto.
  - auto.
  - unfold synced. destruct (onSync (set_lastSyncDate now c)).
    + apply ended_when_dead_emit; [reflexivity|reflexivity|exact H].
    + exact H.
Qed.

Lemma handle_ended_when_dead (e : event) (c c' : connection) :
  ended_when_dead c -> handle e c = Some c' -> ended_when_dead c'.
Proof.
  destruct e; simpl; intros Hd H;
    try (eapply onData_ended_when_dead; eassumption);
    inversion H; subst;
    try (apply ended_when_dead_dropConnection; exact Hd);
    try exact Hd.
  - apply ended_when_dead_emit; [reflexivity| |exact Hd].
    unfold is_close_frame, createTextFrame.
    rewrite createMessageFrame_opCode. reflexivity.
  - apply ended_when_dead_emit; [reflexivity| |exact Hd].
    unfold is_close_frame, createBinaryFrame.
    rewrite createMessageFrame_opCode. reflexivity.
  - apply ended_when_dead_emit; [reflexivity| |exact Hd].
    unfold is_close_frame, frameDataPing.
    destruct (toMaskOwnMessages c); reflexivity.
Qed.

(** X4. Along every execution of a new connection, [socket.end()] has
    been called exactly once when the connection is dead and not at all
    while it is alive, and as many close frames were written as
    [socket.end()] was called: a live connection has sent no close frame,
    a dead one exactly one, whatever was sent or received after it
    died. *)
Theorem one_close_frame_and_one_end :
  forall (events : list event) (p m : bool) (now : Z) (c' : connection),
    run events (WebSocketConnection p m now) = Some c' ->
    socket_ends (trace c') = (if isOpen c' then 0 else 1)%nat
    /\ close_frames (trace c') = socket_ends (trace c').
Proof.
  intros events p m now c' H.
  apply (run_invariant ended_when_dead handle_ended_when_dead events _ _) in H.
  - exact H.
  - split; reflexivity.
Qed.

Lemma one_close_frame_and_one_end_witness :
  exists c',
    run [SocketOnTimeout []; CallEnd []; SocketOnData 1 [] [136; 128];
         SocketOnData 2 [] [137; 128; 0; 0; 0; 0]; CallSendPing;
         SocketOnClose []] (server 0) = Some c'
    /\ socket_ends (trace c') = (if isOpen c' then 0 else 1)%nat
    /\ close_frames (trace c') = socket_ends (trace c').
Proof.
  evaluate_run.
  eapply (one_close_frame_and_one_end
            [SocketOnTimeout []; CallEnd []; SocketOnData 1 [] [136; 128];
             SocketOnData 2 [] [137; 128; 0; 0; 0; 0]; CallSendPing;
             SocketOnClose []] true false 0).
  vm_compute. reflexivity.
Defined.

(** ** The reassembly state *)

Lemma dropConnection_message
  (r : Buffer) (sc : Z) (ac : string) (err : option string) (c : connection) :
  message_state (dropConnection r sc ac err c) = message_state c.
Proof. unfold dropConnection. repeat break_if; reflexivity. Qed.

Lemma readDataFrameHeader_opCode_message
  (r : Buffer) (c : connection) (opCode : Z) :
  match readDataFrameHeader_opCode r c opCode with
  | Return c' => message_state c' = message_state c
  | Next c' => isReadingMessage c' = true
  end.
Proof.
  unfold readDataFrameHeader_opCode.
  repeat break_if; try reflexivity; try apply dropConnection_message.
  apply negb_false_iff. assumption.
Qed.

Lemma readDataFrameHeader_fields_message
  (r : Buffer) (c : connection) (b : Buffer) :
  match readDataFrameHeader_fields r c b with
  | Return c' => message_state c' = message_state c
  | Next (c', _) => isReadingMessage c' = true
  end.
Proof.
  unfold readDataFrameHeader_fields.
  repeat first
    [ progress cbn [flow_bind]
    | match goal with
      | |- context [if ?x then _ else _] => destruct x eqn:?
      end ].
  all: try solve [rewrite dropConnection_message; reflexivity].
  all: match goal with
       | |- context [readDataFrameHeader_opCode ?r ?c0 ?op] =>
           pose proof (readDataFrameHeader_opCode_message r c0 op) as H;
           destruct (readDataFrameHeader_opCode r c0 op); simpl in *
       end.
  all: solve [exact H | rewrite H; reflexivity].
Qed.

Lemma idle_is_empty_message (c c' : connection) :
  message_state c' = message_state c -> idle_is_empty c -> idle_is_empty c'.
Proof.
  unfold message_state, idle_is_empty. intros H.
  inversion H as [[E1 E2 E3 E4]]. rewrite E1, E3, E4. auto.
Qed.

Lemma after_payload_idle (c : connection) (buffer : Buffer) :
  isReadingMessage c = true -> idle_is_empty (after_payload c buffer).
Proof.
  unfold idle_is_empty, after_payload, readDataFramePayload_with.
  intros Hread. destruct (isMasked c).
  - destruct (unmask _ _ _) as [u i]. cbv zeta.
    repeat break_if; unfold onFrameComplete; simpl;
      repeat break_if; simpl; zbool; simpl in *; auto; congruence.
  - cbv beta iota zeta.
    repeat break_if; unfold onFrameComplete; simpl;
      repeat break_if; simpl; zbool; simpl in *; auto; congruence.
Qed.

Lemma onData_idle_is_empty
  (now : Z) (r : Buffer) (buffer : Buffer) (c c' : connection) :
  idle_is_empty c -> onData now r buffer c = Some c' -> idle_is_empty c'.
Proof.
  rewrite onData_feed. intros H.
  apply (feed_stepwise idle_is_empty (fun c => isReadingMessage c = true)
           idle_is_empty r).
  - intros c0 b Hc0.
    pose proof (readDataFrameHeader_fields_message r c0 b) as Hs.
    destruct (readDataFrameHeader_fields r c0 b) as [c1|[c1 idx]].
    + eapply idle_is_empty_message; eassumption.
    + exact Hs.
  - intros c0 b. apply after_payload_idle.
  - auto.
  - unfold idle_is_empty. intros c0 Hc0 Hrem.
    destruct (isReadingMessage c0); [reflexivity|].
    destruct (Hc0 eq_refl). contradiction.
  - eapply idle_is_empty_message; [|exact H].
    unfold synced. destruct (onSync (set_lastSyncDate now c)); reflexivity.
Qed.

Lemma handle_idle_is_empty (e : event) (c c' : connection) :
  idle_is_empty c -> handle e c = Some c' -> idle_is_empty c'.
Proof.
  destruct e; simpl; intros Hd H;
    try (eapply onData_idle_is_empty; eassumption);
    inversion H; subst;
    try (eapply idle_is_empty_message; [|exact Hd];
         apply dropConnection_message);
    exact Hd.
Qed.

(** X5. Along every execution of a new connection, whenever no message
    is being read ([isReadingMessage] is false), [payloadBuffers] is
    empty and no payload byte is awaited: the payload of a message is
    released when its last frame completes, also when no handler is
    installed for it, and [payloadBuffers.length = 0] at the start of a
    text or binary message finds the array empty already. *)
Theorem nothing_buffered_outside_a_message :
  forall (events : list event) (p m : bool) (now : Z) (c' : connection),
    run events (WebSocketConnection p m now) = Some c' ->
    isReadingMessage c' = false ->
    payloadBuffers c' = [] /\ remainingLength c' = 0.
Proof.
  intros events p m now c' H.
  apply (run_invariant idle_is_empty handle_idle_is_empty events _ _) in H.
  - exact H.
  - split; reflexivity.
Qed.

Lemma nothing_buffered_outside_a_message_witness :
  exists c',
    run [SocketOnData 1 [] [1; 131; 1; 2; 3; 4; 73; 103; 111];
         SocketOnData 2 [] [137; 128; 0; 0; 0; 0];
         SocketOnData 3 [] [128; 129; 0; 0; 0; 0; 33]]
      (server 0) = Some c'
    /\ payloadBuffers c' = [] /\ remainingLength c' = 0.
Proof.
  evaluate_run.
  eapply (nothing_buffered_outside_a_message
            [SocketOnData 1 [] [1; 131; 1; 2; 3; 4; 73; 103; 111];
             SocketOnData 2 [] [137; 128; 0; 0; 0; 0];
             SocketOnData 3 [] [128; 129; 0; 0; 0; 0; 33]]
            true false 0).
  - vm_compute. reflexivity.
  - reflexivity.
Defined.

(** ** The masking key *)

(** X6. The unmasking loop of [readDataFramePayload] never reads a
    masking key that is [null]. The payload reader is called after a
    header, and then a masked frame has its key; or at the start of a
    chunk, when [remainingLength] is not zero, and along every execution
    of a new connection a connection that awaits the payload of a masked
    frame holds its key. *)
Theorem unmasking_has_a_key :
  (forall (r : Buffer) (c c' : connection) (buffer : Buffer) (idx : Z),
      readDataFrameHeader_fields r c buffer = Next (c', idx) ->
      isMasked c' = true -> maskingKey c' <> None)
  /\ (forall (events : list event) (p m : bool) (now : Z) (c' : connection),
        run events (WebSocketConnection p m now) = Some c' ->
        remainingLength c' <> 0 -> isMasked c' = true ->
        maskingKey c' <> None).
Proof.
  split.
  - intros r c c' buffer idx H.
    apply (readDataFrameHeader_fields_key _ _ _ _ _ H).
  - intros events p m now c' H.
    apply (run_keyed events (WebSocketConnection p m now) c'); [|exact H].
    unfold keyed. simpl. congruence.
Qed.

Lemma unmasking_has_a_key_witness :
  exists c',
    run [SocketOnData 1 [] [130; 133; 55; 250; 33; 61; 127; 159]]
      (server 0) = Some c'
    /\ maskingKey c' <> None.
Proof.
  evaluate_run.
  eapply (proj2 unmasking_has_a_key
            [SocketOnData 1 [] [130; 133; 55; 250; 33; 61; 127; 159]]
            true false 0).
  - vm_compute. reflexivity.
  - vm_compute. discriminate.
  - reflexivity.
Defined.

(** ** Chunks that the header reader answers or rejects *)

Lemma synced_public (now : Z) (c : connection) :
  remainingLength (synced now c) = remainingLength c
  /\ message_state (synced now c) = message_state c
  /\ isPeerMaskingRequired (synced now c) = isPeerMaskingRequired c
  /\ toMaskOwnMessages (synced now c) = toMaskOwnMessages c
  /\ isAlive (synced now c) = isAlive c
  /\ onEnd (synced now c) = onEnd c
  /\ trace (synced now c) = trace c ++ sync_effects now c.
Proof.
  unfold synced, sync_effects. simpl.
  destruct (onSync c); simpl; rewrite ?app_nil_r; repeat split.
Qed.

Lemma onData_header_return
  (now : Z) (r : Buffer) (buffer : Buffer) (c c' : connection) :
  remainingLength c = 0 ->
  readDataFrameHeader_fields r (synced now c) buffer = Return c' ->
  onData now r buffer c = Some c'.
Proof.
  intros Hrem H. rewrite onData_feed. unfold feed, enough_fuel.
  rewrite (proj1 (synced_public now c)), Hrem. simpl. rewrite H. reflexivity.
Qed.

Lemma dropConnection_public
  (r : Buffer) (sc : Z) (ac : string) (c0 c : connection) :
  public_state c0 = public_state c ->
  isOpen (dropConnection r sc ac None c0) = false
  /\ trace (dropConnection r sc ac None c0) = trace c ++ drop_trace r sc ac c.
Proof.
  unfold public_state. intros H.
  inversion H as [[E1 E2 E3 E4 E5 E6 E7 E8 E9]].
  unfold drop_trace, isOpen. destruct (isAlive c) eqn:Ha.
  - rewrite dropConnection_alive by congruence. simpl.
    unfold drop_effects. rewrite E2, E6, E9. split; reflexivity.
  - rewrite dropConnection_dead by congruence.
    rewrite app_nil_r. split; congruence.
Qed.

Lemma onData_dropped
  (now : Z) (r : Buffer) (buffer : Buffer) (c c0 : connection)
  (sc : Z) (ac : string) :
  remainingLength c = 0 ->
  readDataFrameHeader_fields r (synced now c) buffer
  = Return (dropConnection r sc ac None c0) ->
  public_state c0 = public_state (synced now c) ->
  message_state c0 = message_state (synced now c) ->
  exists c',
    onData now r buffer c = Some c' /\ dropped_with now r sc ac c c'.
Proof.
  intros Hrem Hf Hp Hm. eexists.
  split; [apply onData_header_return; eassumption|].
  destruct (synced_public now c) as (_ & Hms & _ & Hmask & Ha & He & Ht).
  destruct (dropConnection_public r sc ac c0 _ Hp) as [Hopen Htrace].
  unfold dropped_with. split; [exact Hopen|]. split.
  - rewrite Htrace, Ht, <- app_assoc. do 2 f_equal.
    unfold drop_trace, drop_effects. rewrite Ha, He, Hmask. reflexivity.
  - rewrite dropConnection_message. congruence.
Qed.

Lemma readDataFrameHeader_fields_cut
  (now : Z) (r : Buffer) (buffer : Buffer) (c : connection) :
  byteLength buffer < 2
  \/ (frame_reserved buffer = false
      /\ (isPeerMaskingRequired c = true -> frame_masked buffer = true)
      /\ byteLength buffer < frame_header_size buffer) ->
  exists c0,
    readDataFrameHeader_fields r (synced now c) buffer
    = Return (dropConnection r 1002 (cut_header_error buffer) None c0)
    /\ public_state c0 = public_state (synced now c)
    /\ message_state c0 = message_state (synced now c).
Proof.
  intros Hcut.
  destruct (synced_public now c) as (_ & _ & Hpeer & _).
  unfold readDataFrameHeader_fields, cut_header_error.
  destruct (byteLength buffer <? 2) eqn:E2.
  - eexists. repeat split.
  - destruct Hcut as [Hcut | (Hrsv & Hmask & Hsize)]; [zbool; lia|].
    fold (frame_fin buffer). fold (frame_reserved buffer).
    rewrite Hrsv. fold (frame_opCode buffer). fold (frame_masked buffer).
    fold (frame_length7 buffer).
    unfold frame_header_size, frame_key_index, MASKING_KEY_SIZE in Hsize.
    cbn [isPeerMaskingRequired set_isMasked set_isFinSet isMasked].
    rewrite Hpeer.
    assert (Hpm : isPeerMaskingRequired c && negb (frame_masked buffer)
                  = false).
    { destruct (isPeerMaskingRequired c); [|reflexivity].
      rewrite Hmask by reflexivity. reflexivity. }
    rewrite Hpm. unfold MASKING_KEY_SIZE.
    destruct (frame_length7 buffer =? 126) eqn:E126,
             (frame_length7 buffer =? 127) eqn:E127,
             (frame_masked buffer) eqn:Em; cbn [andb flow_bind];
      repeat (match goal with
              | |- context [byteLength buffer <? ?y] =>
                  destruct (byteLength buffer <? y) eqn:?
              end; cbn [andb flow_bind]);
      zbool; try lia; eexists; repeat split.
Qed.

Lemma readDataFrameHeader_fields_rejected
  (now : Z) (r : Buffer) (buffer : Buffer) (c : connection) :
  2 <= byteLength buffer ->
  (frame_reserved buffer = true ->
   readDataFrameHeader_fields r (synced now c) buffer
   = Return (dropConnection r 1003 "INVALID_EXTENSION" None
               (set_isFinSet (frame_fin buffer) (synced now c))))
  /\ (frame_reserved buffer = false ->
      isPeerMaskingRequired c = true ->
      frame_masked buffer = false ->
      readDataFrameHeader_fields r (synced now c) buffer
      = Return (dropConnection r 1008 "ERR_PEER_MASKING_DISABLED" None
                  (set_isMasked false
                     (set_isFinSet (frame_fin buffer) (synced now c))))).
Proof.
  intros Hlen.
  destruct (synced_public now c) as (_ & _ & Hpeer & _).
  assert (E2 : (byteLength buffer <? 2) = false) by (apply Z.ltb_ge; lia).
  split.
  - intros Hrsv. unfold readDataFrameHeader_fields. rewrite E2.
    fold (frame_fin buffer). fold (frame_reserved buffer).
    rewrite Hrsv. reflexivity.
  - intros Hrsv Hp Hm. unfold readDataFrameHeader_fields. rewrite E2.
    fold (frame_fin buffer). fold (frame_reserved buffer).
    rewrite Hrsv. fold (frame_masked buffer).
    cbn [isPeerMaskingRequired set_isMasked set_isFinSet isMasked].
    rewrite Hpeer, Hp, Hm. reflexivity.
Qed.

(** X7. In header-expected state, a chunk that ends inside the frame
    header it starts always drops the connection: the header reader does
    not wait for the rest of a header. When the chunk has less than two
    bytes, the status is 1002 with ERR_INAVLID_DATA_FRAME_H2. Otherwise
    the checks on the first two bytes come first: a reserved bit gives
    1003, INVALID_EXTENSION, and a missing mask bit on a connection that
    requires its peer to mask gives 1008, ERR_PEER_MASKING_DISABLED. A
    chunk that passes them gets 1002 with the error kind of the first
    part that is cut: the extended length (P16, P64) or the masking
    key. The opcode plays no part. *)
Theorem header_cut_by_chunk_end :
  forall (now : Z) (r : Buffer) (buffer : Buffer) (c : connection),
    remainingLength c = 0 ->
    byteLength buffer < 2 \/ byteLength buffer < frame_header_size buffer ->
    exists (c' : connection) (statusCode : Z) (appCode : string),
      onData now r buffer c = Some c'
      /\ dropped_with now r statusCode appCode c c'
      /\ (statusCode, appCode)
         = if byteLength buffer <? 2
           then (1002, "ERR_INAVLID_DATA_FRAME_H2"%string)
           else if frame_reserved buffer
           then (1003, "INVALID_EXTENSION"%string)
           else if isPeerMaskingRequired c && negb (frame_masked buffer)
           then (1008, "ERR_PEER_MASKING_DISABLED"%string)
           else (1002, cut_header_error buffer).
Proof.
  intros now r buffer c Hrem Hcut.
  assert (Hdrop : forall sc ac,
            (exists c0,
               readDataFrameHeader_fields r (synced now c) buffer
               = Return (dropConnection r sc ac None c0)
               /\ public_state c0 = public_state (synced now c)
               /\ message_state c0 = message_state (synced now c)) ->
            exists c',
              onData now r buffer c = Some c'
              /\ dropped_with now r sc ac c c').
  { intros sc ac (c0 & Hf & Hp & Hm). eapply onData_dropped; eassumption. }
  destruct (byteLength buffer <? 2) eqn:E2.
  - zbool.
    destruct (Hdrop 1002 (cut_header_error buffer)
                (readDataFrameHeader_fields_cut now r buffer c
                   (or_introl E2))) as (c' & Hd & Hw).
    exists c', 1002, (cut_header_error buffer).
    split; [exact Hd|]. split; [exact Hw|].
    unfold cut_header_error.
    replace (byteLength buffer <? 2) with true
      by (symmetry; apply Z.ltb_lt; exact E2).
    reflexivity.
  - zbool. destruct Hcut as [Hcut|Hcut]; [lia|].
    destruct (readDataFrameHeader_fields_rejected now r buffer c
                ltac:(lia)) as [Hreserved Hunmasked].
    destruct (frame_reserved buffer) eqn:Hrsv.
    + destruct (Hdrop 1003 "INVALID_EXTENSION"%string)
        as (c' & Hd & Hw).
      { eexists. split; [apply Hreserved; reflexivity|].
        split; reflexivity. }
      exists c', 1003, "INVALID_EXTENSION"%string. auto.
    + destruct (isPeerMaskingRequired c && negb (frame_masked buffer))
        eqn:Hpm.
      * apply andb_prop in Hpm as [Hp Hm]. apply negb_true_iff in Hm.
        destruct (Hdrop 1008 "ERR_PEER_MASKING_DISABLED"%string)
          as (c' & Hd & Hw).
        { eexists. split; [apply Hunmasked; [reflexivity|exact Hp|exact Hm]|].
          split; reflexivity. }
        exists c', 1008, "ERR_PEER_MASKING_DISABLED"%string. auto.
      * destruct (Hdrop 1002 (cut_header_error buffer))
          as (c' & Hd & Hw).
        { apply readDataFrameHeader_fields_cut. right.
          split; [exact Hrsv|]. split; [|exact Hcut].
          intros Hp. rewrite Hp in Hpm. cbn [andb] in Hpm.
          apply negb_false_iff in Hpm. exact Hpm. }
        exists c', 1002, (cut_header_error buffer). auto.
Qed.

Lemma header_cut_by_chunk_end_witness :
  (exists c',
     onData 1 [] [129; 254; 1] (server_with_text 0 true true true) = Some c'
     /\ dropped_with 1 [] 1002 "ERR_INAVLID_DATA_FRAME_P16"
          (server_with_text 0 true true true) c')
  /\ (exists c',
        onData 1 [] [193; 254; 1] (server_with_text 0 true true true)
        = Some c'
        /\ dropped_with 1 [] 1003 "INVALID_EXTENSION"
             (server_with_text 0 true true true) c')
  /\ (exists c',
        onData 1 [] [129; 126; 1] (server_with_text 0 true true true)
        = Some c'
        /\ dropped_with 1 [] 1008 "ERR_PEER_MASKING_DISABLED"
             (server_with_text 0 true true true) c').
Proof.
  split; [|split].
  - destruct (header_cut_by_chunk_end 1 [] [129; 254; 1]
                (server_with_text 0 true true true) eq_refl
                (or_intror eq_refl)) as (c' & sc & ac & Hd & Hw & Hc).
    vm_compute in Hc. inversion Hc. subst. exists c'. split; assumption.
  - destruct (header_cut_by_chunk_end 1 [] [193; 254; 1]
                (server_with_text 0 true true true) eq_refl
                (or_intror eq_refl)) as (c' & sc & ac & Hd & Hw & Hc).
    vm_compute in Hc. inversion Hc. subst. exists c'. split; assumption.
  - destruct (header_cut_by_chunk_end 1 [] [129; 126; 1]
                (server_with_text 0 true true true) eq_refl
                (or_intror eq_refl)) as (c' & sc & ac & Hd & Hw & Hc).
    vm_compute in Hc. inversion Hc. subst. exists c'. split; assumption.
Defined.

(** X8. The two checks that [readDataFrameHeader] makes on the first two
    bytes come before everything else. A frame with a reserved bit set
    drops the connection with status 1003, INVALID_EXTENSION; a frame
    without the mask bit, on a connection that requires its peer to mask,
    drops it with status 1008, ERR_PEER_MASKING_DISABLED. This holds
    whatever the opcode and the length of the frame are: an unmasked
    close frame sent to a server ends in 1008, not in CLOSED_BY_PEER. *)
Theorem reserved_bits_and_unmasked_frames :
  forall (now : Z) (r : Buffer) (buffer : Buffer) (c : connection),
    remainingLength c = 0 ->
    2 <= byteLength buffer ->
    (frame_reserved buffer = true ->
     exists c',
       onData now r buffer c = Some c'
       /\ dropped_with now r 1003 "INVALID_EXTENSION" c c')
    /\ (frame_reserved buffer = false ->
        isPeerMaskingRequired c = true ->
        frame_masked buffer = false ->
        exists c',
          onData now r buffer c = Some c'
          /\ dropped_with now r 1008 "ERR_PEER_MASKING_DISABLED" c c').
Proof.
  intros now r buffer c Hrem Hlen.
  destruct (synced_public now c) as (_ & _ & Hpeer & _).
  assert (E2 : (byteLength buffer <? 2) = false) by (apply Z.ltb_ge; lia).
  split.
  - intros Hrsv.
    eapply (onData_dropped now r buffer c _ 1003 "INVALID_EXTENSION" Hrem).
    + unfold readDataFrameHeader_fields. rewrite E2.
      fold (frame_fin buffer). fold (frame_reserved buffer).
      rewrite Hrsv. reflexivity.
    + reflexivity.
    + reflexivity.
  - intros Hrsv Hp Hm.
    eapply (onData_dropped now r buffer c _ 1008 "ERR_PEER_MASKING_DISABLED"
              Hrem).
    + unfold readDataFrameHeader_fields. rewrite E2.
      fold (frame_fin buffer). fold (frame_reserved buffer).
      rewrite Hrsv. fold (frame_masked buffer).
      cbn [isPeerMaskingRequired set_isMasked set_isFinSet isMasked].
      rewrite Hpeer, Hp, Hm. reflexivity.
    + reflexivity.
    + reflexivity.
Qed.

Lemma reserved_bits_and_unmasked_frames_witness :
  (exists c',
     onData 1 [] [193; 133; 55; 250; 33; 61; 127; 159; 77; 81; 88]
       (server 0) = Some c'
     /\ dropped_with 1 [] 1003 "INVALID_EXTENSION" (server 0) c')
  /\ (exists c',
        onData 1 [] [136; 0] (server 0) = Some c'
        /\ dropped_with 1 [] 1008 "ERR_PEER_MASKING_DISABLED" (server 0) c').
Proof.
  split.
  - apply (reserved_bits_and_unmasked_frames 1 []
             [193; 133; 55; 250; 33; 61; 127; 159; 77; 81; 88] (server 0));
      try reflexivity.
    vm_compute. discriminate.
  - apply (reserved_bits_and_unmasked_frames 1 [] [136; 0] (server 0));
      reflexivity.
Defined.

(** X9. A frame whose header passes the checks made before the opcode is
    looked at and whose opcode is none of continuation, text, binary,
    close, ping and pong (3 to 7 and 11 to 15) drops the connection with
    status 1003, ERR_UNSUPPORTED_OPCODE. *)
Theorem unsupported_opcode_drops :
  forall (now : Z) (r : Buffer) (buffer : Buffer) (c : connection),
    remainingLength c = 0 ->
    header_accepted c buffer = true ->
    ~ In (frame_opCode buffer)
        [OPCODE_CONTINUATION_FRAME; OPCODE_TEXT_FRAME; OPCODE_BINARY_FRAME;
         OPCODE_CONNECTION_CLOSE; OPCODE_PING; OPCODE_PONG] ->
    exists c',
      onData now r buffer c = Some c'
      /\ dropped_with now r 1003 "ERR_UNSUPPORTED_OPCODE" c c'.
Proof.
  intros now r buffer c Hrem Hacc Hop.
  assert (Hacc1 : header_accepted (synced now c) buffer = true).
  { unfold header_accepted in *.
    rewrite (proj1 (proj2 (proj2 (synced_public now c)))). exact Hacc. }
  eapply (onData_dropped now r buffer c (frame_state (synced now c) buffer)
            1003 "ERR_UNSUPPORTED_OPCODE" Hrem).
  - rewrite (readDataFrameHeader_fields_accepted _ _ _ Hacc1).
    unfold readDataFrameHeader_opCode.
    repeat match goal with
    | |- context [frame_opCode buffer =? ?op] =>
        destruct (Z.eqb_spec (frame_opCode buffer) op) as [e|_];
        [exfalso; apply Hop; rewrite e; simpl; tauto|]
    end.
    reflexivity.
  - unfold frame_state. destruct (frame_masked buffer); reflexivity.
  - unfold frame_state. destruct (frame_masked buffer); reflexivity.
Qed.

Lemma unsupported_opcode_drops_witness :
  exists c',
    onData 1 [] [131; 128; 0; 0; 0; 0] (server 0) = Some c'
    /\ dropped_with 1 [] 1003 "ERR_UNSUPPORTED_OPCODE" (server 0) c'.
Proof.
  apply (unsupported_opcode_drops 1 [] [131; 128; 0; 0; 0; 0] (server 0));
    try reflexivity.
  vm_compute. intuition discriminate.
Defined.




(** ** Reading a wire frame *)

Lemma fin_byte_bits (fin : bool) (opCode : Z) :
  0 <= opCode < 16 ->
  let byte0 := (if fin then 128 else 0) + opCode in
  negb (Z.land byte0 128 =? 0) = fin
  /\ (Z.land byte0 64 =? 0) = true
  /\ (Z.land byte0 32 =? 0) = true
  /\ (Z.land byte0 16 =? 0) = true
  /\ Z.land byte0 15 = opCode.
Proof.
  intros H. destruct fin; cbv zeta.
  - destruct (byte0_bits opCode H) as (B7 & B6 & B5 & B4 & B03).
    rewrite B7. auto.
  - pose proof (forall_octets
      (fun x => implb (x <? 16)
         ((Z.land x 128 =? 0) && (Z.land x 64 =? 0) && (Z.land x 32 =? 0)
          && (Z.land x 16 =? 0) && (Z.land x 15 =? x)))
      eq_refl opCode ltac:(unfold octet; lia)) as Hb.
    cbv beta in Hb. destruct (opCode <? 16) eqn:E; [|zbool; lia].
    cbn [implb] in Hb. repeat (apply andb_prop in Hb as [Hb ?]).
    simpl (0 + opCode). rewrite Hb. repeat split; try assumption.
    apply Z.eqb_eq. assumption.
Qed.

Lemma wire_frame_header
  (c : connection) (fin : bool) (opCode : Z) (toMask : bool)
  (key payload rest : Buffer) :
  0 <= opCode < 16 ->
  (isPeerMaskingRequired c = true -> toMask = true) ->
  byteLength payload <= MAX_LENGTH ->
  byteLength key = (if toMask then MASKING_KEY_SIZE else 0) ->
  header_accepted c (wire_frame fin opCode toMask key payload ++ rest) = true
  /\ frame_opCode (wire_frame fin opCode toMask key payload ++ rest) = opCode
  /\ frame_state c (wire_frame fin opCode toMask key payload ++ rest)
     = wire_frame_state c fin toMask key
  /\ frame_payloadLength (wire_frame fin opCode toMask key payload ++ rest)
     = byteLength payload
  /\ slice_from (wire_frame fin opCode toMask key payload ++ rest)
       (frame_header_size (wire_frame fin opCode toMask key payload ++ rest))
     = wire_payload toMask key payload ++ rest.
Proof.
  intros Hop16 Hpeer Hmax Hkey.
  set (F := wire_frame fin opCode toMask key payload ++ rest).
  pose proof (byteLength_nonneg payload) as Hn.
  set (n := byteLength payload) in *.
  set (wp := wire_payload toMask key payload) in *.
  assert (Hcode : 0 <= length_code n < 128)
    by (unfold length_code; repeat break_if; zbool; lia).
  assert (Hform : length_form_ok (length_code n) n = true)
    by (apply length_code_form; lia).
  set (ext := extended_length n).
  assert (HF : F = (if fin then 128 else 0) + opCode
                    :: mask_bit toMask + length_code n
                    :: ext ++ key ++ wp ++ rest).
  { subst F. unfold wire_frame. fold n. fold ext. fold wp.
    rewrite <- !app_assoc. reflexivity. }
  destruct (fin_byte_bits fin opCode Hop16) as (B7 & B6 & B5 & B4 & B03).
  destruct (byte1_bits toMask (length_code n) Hcode) as (M7 & M06).
  assert (Hfin : frame_fin F = fin).
  { unfold frame_fin. rewrite HF.
    change (byte_at (?a :: ?l) 0) with a.
    change (Z.shiftl 1 7) with 128. exact B7. }
  assert (Hrsv : frame_reserved F = false).
  { unfold frame_reserved. rewrite HF.
    change (byte_at (?a :: ?l) 0) with a.
    change (Z.shiftl 1 6) with 64. change (Z.shiftl 1 5) with 32.
    change (Z.shiftl 1 4) with 16. rewrite B6, B5, B4. reflexivity. }
  assert (Hopc : frame_opCode F = opCode).
  { unfold frame_opCode. rewrite HF.
    change (byte_at (?a :: ?l) 0) with a. exact B03. }
  assert (Hmask : frame_masked F = toMask).
  { unfold frame_masked. rewrite HF.
    change (byte_at (?a :: ?b :: ?l) 1) with b. exact M7. }
  assert (H7 : frame_length7 F = length_code n).
  { unfold frame_length7. rewrite HF.
    change (byte_at (?a :: ?b :: ?l) 1) with b. exact M06. }
  assert (Hext : byteLength ext
                 = if length_code n =? 126 then 2
                   else if length_code n =? 127 then 8 else 0).
  { subst ext. rewrite extended_length_field. apply length_field_length. }
  assert (Hki : frame_key_index F = 2 + byteLength ext).
  { unfold frame_key_index. rewrite H7, Hext. repeat break_if; reflexivity. }
  assert (Hhs : frame_header_size F = 2 + byteLength ext + byteLength key).
  { unfold frame_header_size. rewrite Hmask, Hki, Hkey.
    destruct toMask; lia. }
  assert (Hlen : byteLength F
                 = 2 + byteLength ext + byteLength key
                   + byteLength (wp ++ rest)).
  { rewrite HF. unfold byteLength. simpl List.length.
    rewrite !length_app. lia. }
  assert (Hpl : frame_payloadLength F = n).
  { unfold frame_payloadLength. rewrite H7, HF. subst ext.
    rewrite extended_length_field.
    unfold length_field, length_form_ok in *.
    destruct (length_code n =? 126) eqn:E126;
      [|destruct (length_code n =? 127) eqn:E127].
    - apply (big_endian_2_value n (key ++ wp ++ rest)). lia.
    - unfold Number_of_BigInt.
      rewrite (big_endian_8_value n (key ++ wp ++ rest)) by lia.
      apply to_double_small. lia.
    - lia. }
  pose proof (byteLength_nonneg ext) as Hext0.
  pose proof (byteLength_nonneg (wp ++ rest)) as Hrest0.
  assert (Hacc : header_accepted c F = true).
  { unfold header_accepted. rewrite Hhs, Hrsv, Hmask, Hlen.
    destruct (isPeerMaskingRequired c); [rewrite Hpeer by reflexivity|];
      simpl; rewrite ?andb_true_r; apply Z.leb_le; lia. }
  assert (Hsplit : F = ([(if fin then 128 else 0) + opCode;
                         mask_bit toMask + length_code n] ++ ext)
                         ++ key ++ wp ++ rest)
    by (rewrite HF, <- app_assoc; reflexivity).
  assert (Hhead : byteLength ([(if fin then 128 else 0) + opCode;
                               mask_bit toMask + length_code n] ++ ext)
                  = 2 + byteLength ext).
  { rewrite byteLength_app. reflexivity. }
  repeat split; try assumption.
  - unfold frame_state, wire_frame_state. rewrite Hfin, Hmask, Hki.
    destruct toMask; [|reflexivity]. cbv zeta. do 2 f_equal.
    rewrite slice_inside by (unfold MASKING_KEY_SIZE in *; lia).
    rewrite Hsplit, skipn_exact by (symmetry; exact Hhead).
    apply firstn_exact. unfold MASKING_KEY_SIZE in *. lia.
  - rewrite Hhs.
    replace F with (([(if fin then 128 else 0) + opCode;
                      mask_bit toMask + length_code n] ++ ext ++ key)
                      ++ wp ++ rest)
      by (rewrite HF, <- !app_assoc; reflexivity).
    replace (2 + byteLength ext + byteLength key)
      with (byteLength ([(if fin then 128 else 0) + opCode;
                         mask_bit toMask + length_code n] ++ ext ++ key)).
    + apply slice_from_app_exact.
    + rewrite !byteLength_app. change (byteLength [_; _]) with 2. lia.
Qed.

Lemma wire_frame_read
  (r : Buffer) (fuel : nat) (c : connection) (fin : bool) (opCode : Z)
  (toMask : bool) (key payload rest : Buffer) :
  opCode_fits c opCode ->
  (isPeerMaskingRequired c = true -> toMask = true) ->
  piece_ok toMask (key, payload) ->
  let taken := frame_taken c fin opCode toMask key payload in
  let done :=
    if fin then onFrameComplete (set_maskingKey None taken) else taken in
  readDataFrameHeader (S fuel) r c
    (wire_frame fin opCode toMask key payload ++ rest)
  = if byteLength rest >? 0 then readDataFrameHeader fuel r done rest
    else Some done.
Proof.
  intros Hfits Hpeer (Hoct & Hmax & Hkey) taken done. simpl in Hoct, Hmax, Hkey.
  pose proof (byteLength_nonneg payload) as Hn.
  assert (Hop16 : 0 <= opCode < 16).
  { unfold opCode_fits, OPCODE_CONTINUATION_FRAME, OPCODE_TEXT_FRAME,
      OPCODE_BINARY_FRAME in Hfits. lia. }
  destruct (wire_frame_header c fin opCode toMask key payload rest
              Hop16 Hpeer Hmax Hkey) as (Hacc & Hopc & Hstate & Hpl & Hbody).
  cbn [readDataFrameHeader].
  rewrite (readDataFrameHeader_fields_accepted _ _ _ Hacc).
  rewrite Hopc, Hstate, Hpl.
  set (wp := wire_payload toMask key payload) in *.
  assert (Hwp : byteLength wp = byteLength payload).
  { subst wp. unfold wire_payload.
    destruct toMask; [apply mask_from_length|reflexivity]. }
  set (c0 := wire_frame_state c fin toMask key).
  assert (Hc0 : isReadingMessage c0 = isReadingMessage c).
  { subst c0. unfold wire_frame_state. destruct toMask; reflexivity. }
  set (c1 := if opCode =? OPCODE_CONTINUATION_FRAME then c0
             else set_payloadBuffers []
                    (set_payloadOpCode opCode (set_isReadingMessage true c0))).
  assert (Hop : readDataFrameHeader_opCode r c0 opCode = Next c1).
  { unfold readDataFrameHeader_opCode. subst c1. rewrite Hc0.
    destruct Hfits as [(-> & ->) | ([-> | ->] & ->)]; reflexivity. }
  rewrite Hop. cbn [flow_bind].
  set (c2 := set_remainingLength (byteLength payload) (set_maskingIndex 0 c1)).
  rewrite Hbody, readDataFramePayload_with_steps.
  assert (Hc2 : remainingLength c2 = byteLength payload) by reflexivity.
  destruct (payload_taken_beyond c2 wp rest ltac:(lia))
    as (Htaken & Hlen & Hlen1 & Hzero).
  assert (Hmasked : isMasked c2 = toMask
                    /\ (toMask = true -> maskingKey c2 = Some key)
                    /\ maskingIndex c2 = 0 /\ isFinSet c2 = fin).
  { subst c2 c1 c0. unfold wire_frame_state.
    destruct (opCode =? OPCODE_CONTINUATION_FRAME), toMask; simpl;
      repeat split; congruence. }
  destruct Hmasked as (Hm & Hk & Hi & Hfin).
  assert (Hbytes : payload_bytes c2 wp
                   = (payload,
                      if toMask
                      then Z.rem (byteLength payload) MASKING_KEY_SIZE
                      else 0)).
  { assert (Hfirst : firstn (Z.to_nat (byteLength payload)) wp = wp).
    { rewrite <- Hwp. unfold byteLength. rewrite Nat2Z.id.
      apply firstn_all. }
    unfold payload_bytes. rewrite Hlen1, Hc2, Hfirst.
    rewrite Hm, Hi. subst wp. unfold wire_payload.
    destruct toMask; [|reflexivity].
    rewrite (Hk eq_refl). simpl key_bytes.
    apply (unmask_mask_from key payload Hoct 0). lia. }
  assert (Hpt : payload_taken c2 wp = taken).
  { unfold payload_taken. rewrite Hbytes, Hlen1, Hc2, js_sub_diag.
    subst taken c2 c1 c0. unfold frame_taken.
    destruct (opCode =? OPCODE_CONTINUATION_FRAME); reflexivity. }
  assert (Hafter : after_payload c2 (wp ++ rest) = done).
  { rewrite after_payload_taken by lia. rewrite Htaken, Hpt.
    assert (Hf : isFinSet taken = fin).
    { subst taken. unfold frame_taken, wire_frame_state.
      destruct (opCode =? OPCODE_CONTINUATION_FRAME), toMask; reflexivity. }
    unfold frame_done. subst done.
    change (remainingLength taken) with 0. rewrite Hf. reflexivity. }
  assert (Hdone : remainingLength done = 0).
  { subst done. destruct fin; [|reflexivity].
    rewrite onFrameComplete_remainingLength. reflexivity. }
  unfold reads_on. rewrite Hafter, Hdone, Hlen, Hc2.
  rewrite byteLength_app, Hwp. simpl andb.
  replace (byteLength payload + byteLength rest >? byteLength payload)
    with (byteLength rest >? 0)
    by (rewrite !Z.gtb_ltb; destruct (Z.ltb_spec 0 (byteLength rest));
        symmetry; [apply Z.ltb_lt|apply Z.ltb_ge]; lia).
  rewrite <- Hwp, slice_from_app_exact. reflexivity.
Qed.

(** ** Fragmented messages *)

Lemma public_state_fields (a b : connection) :
  public_state a = public_state b ->
  isPeerMaskingRequired a = isPeerMaskingRequired b
  /\ toMaskOwnMessages a = toMaskOwnMessages b
  /\ onTextMessage a = onTextMessage b
  /\ onBinaryMessage a = onBinaryMessage b
  /\ onSync a = onSync b
  /\ onEnd a = onEnd b
  /\ isAlive a = isAlive b
  /\ lastSyncDate a = lastSyncDate b
  /\ trace a = trace b.
Proof.
  unfold public_state. intros H.
  inversion H as [[E1 E2 E3 E4 E5 E6 E7 E8 E9]]. repeat split; assumption.
Qed.

Lemma onFrameComplete_message (c : connection) :
  trace (onFrameComplete c)
  = trace c
      ++ message_effects c (payloadOpCode c) (List.concat (payloadBuffers c))
  /\ isAlive (onFrameComplete c) = isAlive c
  /\ isReadingMessage (onFrameComplete c) = false
  /\ payloadBuffers (onFrameComplete c) = []
  /\ remainingLength (onFrameComplete c) = remainingLength c.
Proof.
  unfold onFrameComplete, message_effects. simpl.
  destruct (payloadOpCode c =? OPCODE_BINARY_FRAME).
  - destruct (onBinaryMessage c); simpl; rewrite ?app_nil_r; auto.
  - destruct (payloadOpCode c =? OPCODE_TEXT_FRAME).
    + destruct (onTextMessage c); simpl; rewrite ?app_nil_r; auto.
    + simpl. rewrite app_nil_r. auto.
Qed.

Lemma frame_taken_state
  (c : connection) (fin : bool) (opCode : Z) (toMask : bool)
  (key payload : Buffer) :
  opCode_fits c opCode ->
  let taken := frame_taken c fin opCode toMask key payload in
  public_state taken = public_state c
  /\ isReadingMessage taken = true
  /\ payloadOpCode taken = message_opCode c opCode
  /\ List.concat (payloadBuffers taken) = message_prefix c opCode ++ payload
  /\ remainingLength taken = 0.
Proof.
  intros Hfits. unfold frame_taken, wire_frame_state, message_opCode,
    message_prefix.
  destruct Hfits as [(-> & Hr) | ([-> | ->] & Hr)]; destruct toMask; simpl;
    rewrite ?concat_app; simpl; rewrite ?app_nil_r; auto.
Qed.

Lemma message_effects_public (c c' : connection) (opCode : Z) (data : Buffer) :
  public_state c' = public_state c ->
  message_effects c' opCode data = message_effects c opCode data.
Proof.
  intros H. apply public_state_fields in H.
  destruct H as (_ & _ & E3 & E4 & _).
  unfold message_effects. rewrite E3, E4. reflexivity.
Qed.

(** What the last frame of a message leaves. *)
Lemma frame_taken_complete
  (c : connection) (opCode : Z) (toMask : bool) (key payload : Buffer) :
  opCode_fits c opCode ->
  let done :=
    onFrameComplete
      (set_maskingKey None (frame_taken c true opCode toMask key payload)) in
  trace done
  = trace c
      ++ message_effects c (message_opCode c opCode)
           (message_prefix c opCode ++ payload)
  /\ isAlive done = isAlive c
  /\ isReadingMessage done = false
  /\ payloadBuffers done = []
  /\ remainingLength done = 0.
Proof.
  intros Hfits done.
  destruct (frame_taken_state c true opCode toMask key payload Hfits)
    as (Hp & Hr & Ho & Hc & Hz).
  destruct (onFrameComplete_message
              (set_maskingKey None
                 (frame_taken c true opCode toMask key payload)))
    as (Ht & Ha & Hd & Hb & Hl).
  fold done in Ht, Ha, Hd, Hb, Hl.
  rewrite Ht, Ha, Hd, Hb, Hl.
  change (payloadOpCode (set_maskingKey None ?x)) with (payloadOpCode x).
  change (payloadBuffers (set_maskingKey None ?x)) with (payloadBuffers x).
  change (trace (set_maskingKey None ?x)) with (trace x).
  change (isAlive (set_maskingKey None ?x)) with (isAlive x).
  change (remainingLength (set_maskingKey None ?x)) with (remainingLength x).
  rewrite Ho, Hc, Hz.
  rewrite (message_effects_public c (set_maskingKey None _)) by exact Hp.
  apply public_state_fields in Hp.
  destruct Hp as (_ & _ & _ & _ & _ & _ & E7 & _ & E9).
  rewrite E7, E9. repeat split.
Qed.

Lemma wire_frame_length
  (fin : bool) (opCode : Z) (toMask : bool) (key payload : Buffer) :
  (2 <= List.length (wire_frame fin opCode toMask key payload))%nat.
Proof. unfold wire_frame. simpl. lia. Qed.

Lemma fragments_length (opCode : Z) (toMask : bool)
  (pieces : list (Buffer * Buffer)) :
  pieces <> [] -> 0 < byteLength (fragments opCode toMask pieces).
Proof.
  destruct pieces as [|[key payload] rest]; [congruence|]. intros _.
  cbn [fragments]. rewrite byteLength_app.
  pose proof (wire_frame_length
                (match rest with [] => true | _ => false end)
                opCode toMask key payload).
  pose proof (byteLength_nonneg
                (fragments OPCODE_CONTINUATION_FRAME toMask rest)).
  unfold byteLength in *. lia.
Qed.

Lemma fragments_read (r : Buffer) (toMask : bool)
  (pieces : list (Buffer * Buffer)) :
  pieces <> [] ->
  Forall (piece_ok toMask) pieces ->
  forall (fuel : nat) (c : connection) (opCode : Z),
    opCode_fits c opCode ->
    (isPeerMaskingRequired c = true -> toMask = true) ->
    (List.length (fragments opCode toMask pieces) < fuel)%nat ->
    exists c',
      readDataFrameHeader fuel r c (fragments opCode toMask pieces) = Some c'
      /\ trace c'
         = trace c
             ++ message_effects c (message_opCode c opCode)
                  (message_prefix c opCode ++ List.concat (map snd pieces))
      /\ isAlive c' = isAlive c
      /\ isReadingMessage c' = false
      /\ payloadBuffers c' = []
      /\ remainingLength c' = 0.
Proof.
  induction pieces as [|[key payload] rest IH]; [congruence|].
  intros _ Hok fuel c opCode Hfits Hpeer Hfuel.
  inversion Hok as [|? ? Hpiece Hrest]; subst.
  destruct fuel as [|fuel]; [lia|].
  cbn [fragments] in *.
  rewrite wire_frame_read by assumption.
  destruct rest as [|next rest].
  - cbn [fragments map List.concat]. rewrite app_nil_r.
    change (byteLength [] >? 0) with false. cbv iota.
    eexists. split; [reflexivity|].
    apply frame_taken_complete. exact Hfits.
  - set (more := fragments OPCODE_CONTINUATION_FRAME toMask (next :: rest))
      in *.
    pose proof (fragments_length OPCODE_CONTINUATION_FRAME toMask
                  (next :: rest) ltac:(congruence)) as Hmore.
    fold more in Hmore.
    destruct (Z.gtb_spec (byteLength more) 0) as [_|]; [|lia].
    destruct (frame_taken_state c false opCode toMask key payload Hfits)
      as (Hp & Hr & Ho & Hc & Hz).
    set (taken := frame_taken c false opCode toMask key payload) in *.
    assert (Hfits' : opCode_fits taken OPCODE_CONTINUATION_FRAME)
      by (left; auto).
    assert (Hpeer' : isPeerMaskingRequired taken = true -> toMask = true).
    { intros H. apply Hpeer. rewrite <- H. symmetry.
      apply (public_state_fields _ _ Hp). }
    assert (Hfuel' : (List.length more < fuel)%nat).
    { rewrite length_app in Hfuel.
      pose proof (wire_frame_length false opCode toMask key payload). lia. }
    destruct (IH ltac:(congruence) Hrest fuel taken
                OPCODE_CONTINUATION_FRAME Hfits' Hpeer' Hfuel')
      as (c' & Hread & Ht & Ha & Hd & Hb & Hl).
    exists c'. split; [exact Hread|].
    unfold message_opCode, message_prefix in Ht. simpl Z.eqb in Ht.
    cbv iota in Ht. rewrite Ho, Hc in Ht.
    rewrite (message_effects_public c taken) in Ht by exact Hp.
    apply public_state_fields in Hp.
    destruct Hp as (_ & _ & _ & _ & _ & _ & E7 & _ & E9).
    rewrite Ht, Ha, E7, E9. cbn [map List.concat snd].
    rewrite <- app_assoc. repeat split; assumption.
Qed.

Lemma unsynced_message_effects (c : connection) (opCode : Z) (data : Buffer) :
  unsynced (message_effects c opCode data) = message_effects c opCode data.
Proof. unfold message_effects. repeat break_if; reflexivity. Qed.

Lemma synced_state (now : Z) (c : connection) (opCode : Z) :
  remainingLength (synced now c) = remainingLength c
  /\ unsynced (trace (synced now c)) = unsynced (trace c)
  /\ isAlive (synced now c) = isAlive c
  /\ isPeerMaskingRequired (synced now c) = isPeerMaskingRequired c
  /\ message_opCode (synced now c) opCode = message_opCode c opCode
  /\ message_prefix (synced now c) opCode = message_prefix c opCode
  /\ (opCode_fits c opCode -> opCode_fits (synced now c) opCode)
  /\ forall op data,
       message_effects (synced now c) op data = message_effects c op data.
Proof.
  unfold synced, message_opCode, message_prefix, opCode_fits, message_effects.
  simpl. destruct (onSync c); simpl; rewrite ?unsynced_app; simpl;
    rewrite ?app_nil_r; repeat split; auto.
Qed.

Lemma fragment_chunks_run (r : Buffer) (toMask : bool)
  (pieces : list (Z * (Buffer * Buffer))) :
  pieces <> [] ->
  Forall (piece_ok toMask) (map snd pieces) ->
  forall (c : connection) (opCode : Z),
    remainingLength c = 0 ->
    opCode_fits c opCode ->
    (isPeerMaskingRequired c = true -> toMask = true) ->
    exists c',
      run (chunk_events r (fragment_chunks opCode toMask pieces)) c = Some c'
      /\ unsynced (trace c')
         = unsynced (trace c)
             ++ message_effects c (message_opCode c opCode)
                  (message_prefix c opCode
                     ++ List.concat (map snd (map snd pieces)))
      /\ isAlive c' = isAlive c
      /\ isReadingMessage c' = false
      /\ payloadBuffers c' = []
      /\ remainingLength c' = 0.
Proof.
  induction pieces as [|[date [key payload]] rest IH]; [congruence|].
  intros _ Hok c opCode Hrem Hfits Hpeer.
  inversion Hok as [|? ? Hpiece Hrest]; subst.
  destruct (synced_state date c opCode)
    as (Srem & Strace & Salive & Speer & Sop & Spre & Sfits & Seff).
  specialize (Sfits Hfits).
  assert (Hpeer1 : isPeerMaskingRequired (synced date c) = true ->
                   toMask = true) by (rewrite Speer; exact Hpeer).
  cbn [fragment_chunks chunk_events map run handle fst snd].
  set (fin := match rest with [] => true | _ => false end).
  rewrite onData_feed. unfold feed. rewrite Srem, Hrem. simpl Z.eqb.
  cbv iota. unfold enough_fuel.
  generalize (List.length (wire_frame fin opCode toMask key payload)).
  intros fuel.
  rewrite <- (app_nil_r (wire_frame fin opCode toMask key payload)).
  rewrite wire_frame_read by assumption.
  change (byteLength [] >? 0) with false. cbv iota.
  destruct rest as [|next rest]; subst fin.
  - cbn [map List.concat chunk_events fragment_chunks run].
    rewrite app_nil_r.
    eexists. split; [reflexivity|].
    destruct (frame_taken_complete (synced date c) opCode toMask key payload
                Sfits) as (Ht & Ha & Hd & Hb & Hl).
    rewrite Ht, Ha, unsynced_app, unsynced_message_effects.
    rewrite Strace, Seff, Sop, Spre, Salive. repeat split; assumption.
  - destruct (frame_taken_state (synced date c) false opCode toMask key
                payload Sfits) as (Hp & Hr & Ho & Hc & Hz).
    set (taken := frame_taken (synced date c) false opCode toMask key payload)
      in *.
    pose proof (public_state_fields _ _ Hp)
      as (E1 & _ & _ & _ & _ & _ & E7 & _ & E9).
    assert (Hfits' : opCode_fits taken OPCODE_CONTINUATION_FRAME)
      by (left; auto).
    assert (Hpeer' : isPeerMaskingRequired taken = true -> toMask = true)
      by (rewrite E1; exact Hpeer1).
    destruct (IH ltac:(congruence) Hrest taken OPCODE_CONTINUATION_FRAME
                Hz Hfits' Hpeer')
      as (c' & Hrun & Ht & Ha & Hd & Hb & Hl).
    exists c'. split; [exact Hrun|].
    unfold message_opCode, message_prefix in Ht. simpl Z.eqb in Ht.
    cbv iota in Ht. rewrite Ho, Hc in Ht.
    rewrite (message_effects_public (synced date c) taken) in Ht by exact Hp.
    rewrite Seff, Sop, Spre, E9, Strace in Ht.
    rewrite Ht, Ha, E7, Salive. cbn [map List.concat snd].
    rewrite <- app_assoc. repeat split; assumption.
Qed.

Lemma fragments_in_one_chunk
  (now : Z) (r : Buffer) (c : connection) (opCode : Z) (toMask : bool)
  (pieces : list (Buffer * Buffer)) :
  remainingLength c = 0 ->
  isReadingMessage c = false ->
  opCode = OPCODE_TEXT_FRAME \/ opCode = OPCODE_BINARY_FRAME ->
  (isPeerMaskingRequired c = true -> toMask = true) ->
  pieces <> [] ->
  Forall (piece_ok toMask) pieces ->
  exists c',
    onData now r (fragments opCode toMask pieces) c = Some c'
    /\ trace c'
       = trace c ++ sync_effects now c
           ++ message_effects c opCode (List.concat (map snd pieces))
    /\ isOpen c' = isOpen c
    /\ isReadingMessage c' = false
    /\ payloadBuffers c' = []
    /\ remainingLength c' = 0.
Proof.
  intros Hrem Hread Hop Hpeer Hne Hok.
  assert (Hfits : opCode_fits c opCode) by (right; auto).
  assert (Hmo : message_opCode c opCode = opCode
                /\ message_prefix c opCode = []).
  { unfold message_opCode, message_prefix.
    destruct Hop as [-> | ->]; split; reflexivity. }
  destruct Hmo as [Hmo Hmp]. unfold isOpen.
  destruct (synced_state now c opCode)
    as (Srem & _ & Salive & Speer & Sop & Spre & Sfits & Seff).
  destruct (synced_public now c) as (_ & _ & _ & _ & _ & _ & Strace).
  rewrite onData_feed. unfold feed. rewrite Srem, Hrem. simpl Z.eqb.
  cbv iota.
  destruct (fragments_read r toMask pieces Hne Hok
              (enough_fuel (fragments opCode toMask pieces))
              (synced now c) opCode (Sfits Hfits)
              ltac:(rewrite Speer; exact Hpeer)
              ltac:(unfold enough_fuel; lia))
    as (c' & Hr & Ht & Ha & Hd & Hb & Hl).
  exists c'. split; [exact Hr|].
  rewrite Ht, Ha, Seff, Sop, Spre, Hmo, Hmp, Strace, Salive.
  rewrite <- app_assoc. repeat split; assumption.
Qed.

(** X11. A text or binary message that the peer cuts into fragments (a
    first frame with the opcode of the message, then continuation frames,
    the FIN bit on the last one, each fragment masked with a key of its
    own when the connection asks for masking) is delivered once, when the
    last fragment has been read, as the concatenation of the payloads; a
    text message is decoded from the concatenation, so a character cut by
    a fragment boundary is decoded whole. This holds when the fragments
    arrive in one chunk and when each arrives in a chunk of its own.
    Nothing is written, and afterwards no message is being read. *)
Theorem fragmented_message_reassembled :
  forall (r : Buffer) (c : connection) (opCode : Z) (toMask : bool),
    remainingLength c = 0 ->
    isReadingMessage c = false ->
    opCode = OPCODE_TEXT_FRAME \/ opCode = OPCODE_BINARY_FRAME ->
    (isPeerMaskingRequired c = true -> toMask = true) ->
    (forall (now : Z) (pieces : list (Buffer * Buffer)),
        pieces <> [] ->
        Forall (piece_ok toMask) pieces ->
        exists c',
          onData now r (fragments opCode toMask pieces) c = Some c'
          /\ trace c'
             = trace c ++ sync_effects now c
                 ++ message_effects c opCode (List.concat (map snd pieces))
          /\ isOpen c' = isOpen c
          /\ isReadingMessage c' = false
          /\ payloadBuffers c' = []
          /\ remainingLength c' = 0)
    /\ (forall pieces : list (Z * (Buffer * Buffer)),
          pieces <> [] ->
          Forall (piece_ok toMask) (map snd pieces) ->
          exists c',
            run (chunk_events r (fragment_chunks opCode toMask pieces)) c
            = Some c'
            /\ unsynced (trace c')
               = unsynced (trace c)
                   ++ message_effects c opCode
                        (List.concat (map snd (map snd pieces)))
            /\ isOpen c' = isOpen c
            /\ isReadingMessage c' = false
            /\ payloadBuffers c' = []
            /\ remainingLength c' = 0).
Proof.
  intros r c opCode toMask Hrem Hread Hop Hpeer.
  assert (Hfits : opCode_fits c opCode) by (right; auto).
  assert (Hmo : message_opCode c opCode = opCode
                /\ message_prefix c opCode = []).
  { unfold message_opCode, message_prefix.
    destruct Hop as [-> | ->]; split; reflexivity. }
  destruct Hmo as [Hmo Hmp]. split.
  - intros now pieces Hne Hok. apply fragments_in_one_chunk; assumption.
  - intros pieces Hne Hok.
    destruct (fragment_chunks_run r toMask pieces Hne Hok c opCode Hrem
                Hfits Hpeer) as (c' & Hr & Ht & Ha & Hd & Hb & Hl).
    exists c'. split; [exact Hr|]. unfold isOpen.
    rewrite Ht, Ha, Hmo, Hmp. repeat split; assumption.
Qed.

Lemma fragmented_message_reassembled_witness :
  (exists c',
     onData 1 []
       (fragments OPCODE_TEXT_FRAME true
          [([1; 2; 3; 4], [226; 130]); ([5; 6; 7; 8], [172])])
       (server_with_text 0 false false false) = Some c'
     /\ trace c' = [Callback (HostText [8364])]
     /\ isOpen c' = true
     /\ isReadingMessage c' = false
     /\ payloadBuffers c' = []
     /\ remainingLength c' = 0)
  /\ (exists c',
        run (chunk_events []
               (fragment_chunks OPCODE_TEXT_FRAME true
                  [(1, ([1; 2; 3; 4], [226; 130]));
                   (2, ([5; 6; 7; 8], [172]))]))
          (server_with_text 0 false false false) = Some c'
        /\ unsynced (trace c') = [Callback (HostText [8364])]
        /\ isOpen c' = true
        /\ isReadingMessage c' = false
        /\ payloadBuffers c' = []
        /\ remainingLength c' = 0).
Proof.
  assert (Hok : Forall (piece_ok true)
                  [([1; 2; 3; 4], [226; 130]); ([5; 6; 7; 8], [172])]).
  { repeat constructor; simpl; unfold octet; try lia; vm_compute;
      discriminate. }
  destruct (fragmented_message_reassembled []
              (server_with_text 0 false false false) OPCODE_TEXT_FRAME true)
    as [Hone Heach]; try reflexivity.
  - left. reflexivity.
  - split.
    + apply (Hone 1 [([1; 2; 3; 4], [226; 130]); ([5; 6; 7; 8], [172])]);
        [discriminate|exact Hok].
    + apply (Heach [(1, ([1; 2; 3; 4], [226; 130]));
                    (2, ([5; 6; 7; 8], [172]))]);
        [discriminate|exact Hok].
Defined.

(** ** UTF-8 *)

Lemma land_low (k x : Z) : 0 <= k -> Z.land x (Z.ones k) = x mod 2 ^ k.
Proof. intros. apply Z.land_ones. assumption. Qed.

Lemma land_63 (x : Z) : Z.land x 63 = x mod 64.
Proof. apply (land_low 6). lia. Qed.

Lemma shiftr_6 (x : Z) : Z.shiftr x 6 = x / 64.
Proof. apply (shiftr_div x 6). lia. Qed.

Lemma shiftr_12 (x : Z) : Z.shiftr x 12 = x / 64 / 64.
Proof. rewrite (shiftr_div x 12) by lia. rewrite Z.div_div by lia. reflexivity. Qed.

Lemma shiftr_18 (x : Z) : Z.shiftr x 18 = x / 64 / 64 / 64.
Proof.
  rewrite (shiftr_div x 18) by lia. rewrite !Z.div_div by lia. reflexivity.
Qed.

(** Appending six low bits. *)
Lemma lor_shiftl_6 (a e : Z) :
  0 <= a -> 0 <= e < 64 -> Z.lor (Z.shiftl a 6) e = a * 64 + e.
Proof.
  intros Ha He. rewrite Z.shiftl_mul_pow2 by lia. change (2 ^ 6) with 64.
  assert (Hland : Z.land (a * 64) e = 0).
  { apply Z.bits_inj'. intros n Hn. rewrite Z.land_spec, Z.bits_0.
    destruct (Z.lt_ge_cases n 6) as [Hlt|Hge].
    - change 64 with (2 ^ 6). rewrite Z.mul_pow2_bits_low by lia.
      reflexivity.
    - destruct (Z.eq_dec e 0) as [->|Hne].
      + rewrite Z.bits_0. apply andb_false_r.
      + rewrite (Z.bits_above_log2 e n); [apply andb_false_r|lia|].
        apply Z.lt_le_trans with 6; [apply Z.log2_lt_pow2; lia|lia]. }
  rewrite <- Z.lxor_lor by exact Hland.
  symmetry. apply Z.add_nocarry_lxor. exact Hland.
Qed.

Lemma lead_is_eq (x c n lo hi : Z) :
  lead_is x c n lo hi = true -> utf8_lead_of x = LeadStart c n lo hi.
Proof.
  unfold lead_is. destruct (utf8_lead_of x) as [|c' n' lo' hi'];
    [discriminate|].
  intros H. repeat (apply andb_prop in H as [H ?]). zbool. congruence.
Qed.

Lemma utf8_lead_2 (a : Z) :
  2 <= a < 32 ->
  Z.lor 192 a = 192 + a /\ utf8_lead_of (192 + a) = LeadStart a 1 128 191.
Proof.
  intros H.
  pose proof (forall_octets
    (fun x => implb ((2 <=? x) && (x <? 32))
       ((Z.lor 192 x =? 192 + x) && lead_is (192 + x) x 1 128 191))
    eq_refl a ltac:(unfold octet; lia)) as Hb.
  cbv beta in Hb.
  destruct (Z.leb_spec 2 a); [|lia]. destruct (Z.ltb_spec a 32); [|lia].
  cbn [andb implb] in Hb. apply andb_prop in Hb as [Hx Hy]. zbool.
  split; [exact Hx|apply lead_is_eq; exact Hy].
Qed.

Lemma utf8_lead_3 (a : Z) :
  0 <= a < 16 ->
  Z.lor 224 a = 224 + a
  /\ utf8_lead_of (224 + a)
     = LeadStart a 2 (if a =? 0 then 160 else 128)
         (if a =? 13 then 159 else 191).
Proof.
  intros H.
  pose proof (forall_octets
    (fun x => implb (x <? 16)
       ((Z.lor 224 x =? 224 + x)
        && lead_is (224 + x) x 2 (if x =? 0 then 160 else 128)
             (if x =? 13 then 159 else 191)))
    eq_refl a ltac:(unfold octet; lia)) as Hb.
  cbv beta in Hb. destruct (Z.ltb_spec a 16); [|lia].
  cbn [implb] in Hb. apply andb_prop in Hb as [Hx Hy]. zbool.
  split; [exact Hx|apply lead_is_eq; exact Hy].
Qed.

Lemma utf8_lead_4 (a : Z) :
  0 <= a < 5 ->
  Z.lor 240 a = 240 + a
  /\ utf8_lead_of (240 + a)
     = LeadStart a 3 (if a =? 0 then 144 else 128)
         (if a =? 4 then 143 else 191).
Proof.
  intros H.
  pose proof (forall_octets
    (fun x => implb (x <? 5)
       ((Z.lor 240 x =? 240 + x)
        && lead_is (240 + x) x 3 (if x =? 0 then 144 else 128)
             (if x =? 4 then 143 else 191)))
    eq_refl a ltac:(unfold octet; lia)) as Hb.
  cbv beta in Hb. destruct (Z.ltb_spec a 5); [|lia].
  cbn [implb] in Hb. apply andb_prop in Hb as [Hx Hy]. zbool.
  split; [exact Hx|apply lead_is_eq; exact Hy].
Qed.

Lemma utf8_trail (e : Z) :
  0 <= e < 64 -> Z.lor 128 e = 128 + e /\ Z.land (128 + e) 63 = e.
Proof.
  intros H.
  pose proof (forall_octets
    (fun x => implb (x <? 64)
       ((Z.lor 128 x =? 128 + x) && (Z.land (128 + x) 63 =? x)))
    eq_refl e ltac:(unfold octet; lia)) as Hb.
  cbv beta in Hb. destruct (Z.ltb_spec e 64); [|lia].
  cbn [implb] in Hb. apply andb_prop in Hb as [Hx Hy]. zbool. auto.
Qed.

(** One continuation byte in range extends the code point that is being
    decoded. *)
Lemma utf8_decode_trail (c n lo hi e : Z) (rest : Buffer) :
  0 <= c -> 0 <= e < 64 -> lo <= 128 + e <= hi ->
  utf8_decode_pending (Some (c, n, lo, hi)) ((128 + e) :: rest)
  = if n =? 1 then c * 64 + e :: utf8_decode_pending None rest
    else utf8_decode_pending (Some (c * 64 + e, n - 1, 128, 191)) rest.
Proof.
  intros Hc He Hr. cbn [utf8_decode_pending].
  destruct (Z.leb_spec lo (128 + e)); [|lia].
  destruct (Z.leb_spec (128 + e) hi); [|lia].
  cbn [andb]. rewrite (proj2 (utf8_trail e He)).
  rewrite lor_shiftl_6 by assumption. reflexivity.
Qed.

Lemma utf8_decode_lead (x : Z) (rest : Buffer) :
  utf8_decode_pending None (x :: rest)
  = match utf8_lead_of x with
    | LeadEmit c => c :: utf8_decode_pending None rest
    | LeadStart c n lo hi => utf8_decode_pending (Some (c, n, lo, hi)) rest
    end.
Proof. reflexivity. Qed.

(** The encoding of a scalar value is made of octets, and the decoder
    reads it back, whatever follows. *)
Lemma utf8_scalar (c : Z) (rest : Buffer) :
  scalar_value c ->
  Forall octet (utf8_of_code_point c)
  /\ utf8_decode_pending None (utf8_of_code_point c ++ rest)
     = c :: utf8_decode_pending None rest.
Proof.
  unfold scalar_value, utf8_of_code_point. intros [Hc Hs].
  pose proof (Z.div_mod c 64 ltac:(lia)) as E0.
  pose proof (Z.mod_pos_bound c 64 ltac:(lia)) as B0.
  pose proof (Z.div_mod (c / 64) 64 ltac:(lia)) as E1.
  pose proof (Z.mod_pos_bound (c / 64) 64 ltac:(lia)) as B1.
  pose proof (Z.div_mod (c / 64 / 64) 64 ltac:(lia)) as E2.
  pose proof (Z.mod_pos_bound (c / 64 / 64) 64 ltac:(lia)) as B2.
  rewrite !land_63, shiftr_6, shiftr_12, shiftr_18.
  set (d0 := c mod 64) in *. set (c1 := c / 64) in *.
  set (d1 := c1 mod 64) in *. set (c2 := c1 / 64) in *.
  set (d2 := c2 mod 64) in *. set (c3 := c2 / 64) in *.
  destruct (Z.ltb_spec c 128) as [H1|H1].
  - split; [repeat constructor; unfold octet; lia|].
    cbn [app]. rewrite utf8_decode_lead. unfold utf8_lead_of.
    destruct (Z.leb_spec c 127); [reflexivity|lia].
  - destruct (Z.ltb_spec c 2048) as [H2|H2].
    + assert (Ha : 2 <= c1 < 32) by lia.
      destruct (utf8_lead_2 c1 Ha) as [L1 L2].
      destruct (utf8_trail d0 B0) as [T0 _].
      rewrite L1, T0.
      split; [repeat constructor; unfold octet; lia|].
      cbn [app]. rewrite utf8_decode_lead, L2.
      rewrite utf8_decode_trail by lia.
      change (1 =? 1) with true. cbv iota. f_equal. lia.
    + destruct (Z.ltb_spec c 65536) as [H3|H3].
      * assert (Ha : 0 <= c2 < 16) by lia.
        destruct (utf8_lead_3 c2 Ha) as [L1 L2].
        destruct (utf8_trail d0 B0) as [T0 _].
        destruct (utf8_trail d1 B1) as [T1 _].
        rewrite L1, T0, T1.
        split; [repeat constructor; unfold octet; lia|].
        cbn [app]. rewrite utf8_decode_lead, L2.
        rewrite utf8_decode_trail
          by (try lia; destruct (Z.eqb_spec c2 0), (Z.eqb_spec c2 13); lia).
        change (2 =? 1) with false. cbv iota.
        rewrite utf8_decode_trail by lia.
        change (2 - 1 =? 1) with true. cbv iota. f_equal. lia.
      * assert (Ha : 0 <= c3 < 5) by lia.
        destruct (utf8_lead_4 c3 Ha) as [L1 L2].
        destruct (utf8_trail d0 B0) as [T0 _].
        destruct (utf8_trail d1 B1) as [T1 _].
        destruct (utf8_trail d2 B2) as [T2 _].
        rewrite L1, T0, T1, T2.
        split; [repeat constructor; unfold octet; lia|].
        cbn [app]. rewrite utf8_decode_lead, L2.
        rewrite utf8_decode_trail
          by (try lia; destruct (Z.eqb_spec c3 0), (Z.eqb_spec c3 4); lia).
        change (3 =? 1) with false. cbv iota.
        rewrite utf8_decode_trail by lia.
        change (3 - 1 =? 1) with false. cbv iota.
        rewrite utf8_decode_trail by lia.
        change (3 - 1 - 1 =? 1) with true. cbv iota. f_equal. lia.
Qed.

Lemma utf16_of_pair (h l : Z) :
  is_high_surrogate h = true -> is_low_surrogate l = true ->
  scalar_value (65536 + (h - 55296) * 1024 + (l - 56320))
  /\ utf16_of_code_point (65536 + (h - 55296) * 1024 + (l - 56320))
     = [h; l].
Proof.
  unfold is_high_surrogate, is_low_surrogate. intros Hh Hl.
  set (c := 65536 + (h - 55296) * 1024 + (l - 56320)).
  apply andb_prop in Hh as [Hh1 Hh2]. apply andb_prop in Hl as [Hl1 Hl2].
  zbool. split; [unfold scalar_value; subst c; lia|].
  unfold utf16_of_code_point.
  destruct (Z.ltb_spec c 65536); [subst c; lia|].
  rewrite (shiftr_div _ 10) by lia. change 1023 with (Z.ones 10).
  rewrite land_low by lia. change (2 ^ 10) with 1024.
  replace (c - 65536) with ((l - 56320) + (h - 55296) * 1024)
    by (subst c; lia).
  rewrite Z.div_add, Z.mod_add by lia.
  rewrite Z.div_small, Z.mod_small by lia.
  f_equal; [lia|f_equal; lia].
Qed.

Lemma utf16_of_unit (u : Z) :
  0 <= u < 65536 -> is_high_surrogate u = false ->
  is_low_surrogate u = false ->
  scalar_value u /\ utf16_of_code_point u = [u].
Proof.
  unfold is_high_surrogate, is_low_surrogate, scalar_value,
    utf16_of_code_point.
  intros Hu Hh Hl. destruct (Z.ltb_spec u 65536); [|lia].
  split; [|reflexivity]. split; [lia|].
  apply andb_false_iff in Hh. apply andb_false_iff in Hl.
  destruct Hh, Hl; zbool; lia.
Qed.

(** [Buffer.from(s, 'utf8')] is made of octets when [s] is well formed,
    and [toString('utf8')] reads [s] back from it, whatever bytes
    follow. *)
Lemma utf8_round_trip_app (n : nat) (more : Buffer) :
  forall s : jsstring,
    (List.length s <= n)%nat ->
    isWellFormed s = true ->
    Forall octet (Buffer_from_utf8 s)
    /\ Buffer_toString_utf8 (Buffer_from_utf8 s ++ more)
       = s ++ Buffer_toString_utf8 more.
Proof.
  unfold Buffer_toString_utf8, Buffer_from_utf8.
  induction n as [|n IH]; intros s Hn Hw.
  - destruct s; [|simpl in Hn; lia]. split; [constructor|reflexivity].
  - destruct s as [|u rest]; [split; [constructor|reflexivity]|].
    cbn [isWellFormed] in Hw. cbn [utf8_encode_pending].
    destruct (is_high_surrogate u) eqn:Hh.
    + destruct rest as [|l rest]; [discriminate|].
      apply andb_prop in Hw as [Hl Hw].
      cbn [utf8_encode_pending]. rewrite Hl.
      destruct (utf16_of_pair u l Hh Hl) as [Hs Hu].
      destruct (utf8_scalar _ (utf8_encode_pending None rest ++ more) Hs)
        as [Ho Hd].
      destruct (IH rest ltac:(simpl in Hn; lia) Hw) as [Hor Hdr].
      split; [apply Forall_app; split; assumption|].
      rewrite <- app_assoc, Hd. cbn [flat_map]. rewrite Hu, Hdr.
      reflexivity.
    + repeat (apply andb_prop in Hw as [Hw ?]).
      match goal with
      | H : negb (is_low_surrogate u) = true |- _ =>
          apply negb_true_iff in H; rename H into Hl
      end.
      rewrite Hl. zbool.
      destruct (utf16_of_unit u ltac:(lia) Hh Hl) as [Hs Hu].
      destruct (utf8_scalar _ (utf8_encode_pending None rest ++ more) Hs)
        as [Ho Hd].
      destruct (IH rest ltac:(simpl in Hn; lia) ltac:(assumption))
        as [Hor Hdr].
      split; [apply Forall_app; split; assumption|].
      rewrite <- app_assoc, Hd. cbn [flat_map]. rewrite Hu, Hdr.
      reflexivity.
Qed.

Lemma utf8_round_trip (s : jsstring) :
  isWellFormed s = true ->
  Forall octet (Buffer_from_utf8 s)
  /\ Buffer_toString_utf8 (Buffer_from_utf8 s) = s.
Proof.
  intros Hw.
  destruct (utf8_round_trip_app (List.length s) [] s (le_n _) Hw) as [Ho Hd].
  rewrite !app_nil_r in Hd. auto.
Qed.

(** ** From one side to the other *)

Lemma createMessageFrame_wire
  (opCode : Z) (payload : Buffer) (toMask : bool) (key : Buffer) :
  opCode = OPCODE_TEXT_FRAME \/ opCode = OPCODE_BINARY_FRAME ->
  createMessageFrame opCode payload toMask key
  = fragments opCode toMask [(if toMask then key else [], payload)].
Proof.
  intros Hop. rewrite createMessageFrame_bytes.
  pose proof (byteLength_nonneg payload) as Hn.
  assert (Hcode : 0 <= length_code (byteLength payload) < 128)
    by (unfold length_code; repeat break_if; zbool; lia).
  rewrite (length_code_octet toMask _ Hcode).
  cbn [fragments]. rewrite app_nil_r. unfold wire_frame, wire_payload.
  destruct Hop as [-> | ->]; destruct toMask; reflexivity.
Qed.

Lemma sent_frame_received
  (now : Z) (r : Buffer) (c : connection) (opCode : Z) (toMask : bool)
  (key payload : Buffer) :
  remainingLength c = 0 ->
  isReadingMessage c = false ->
  opCode = OPCODE_TEXT_FRAME \/ opCode = OPCODE_BINARY_FRAME ->
  (isPeerMaskingRequired c = true -> toMask = true) ->
  (toMask = true -> byteLength key = MASKING_KEY_SIZE) ->
  Forall octet payload ->
  byteLength payload <= MAX_LENGTH ->
  exists c',
    onData now r (createMessageFrame opCode payload toMask key) c = Some c'
    /\ trace c'
       = trace c ++ sync_effects now c ++ message_effects c opCode payload
    /\ isOpen c' = isOpen c
    /\ isReadingMessage c' = false
    /\ payloadBuffers c' = []
    /\ remainingLength c' = 0.
Proof.
  intros Hrem Hread Hop Hpeer Hkey Hoct Hmax.
  rewrite createMessageFrame_wire by exact Hop.
  destruct (fragments_in_one_chunk now r c opCode toMask
              [(if toMask then key else [], payload)] Hrem Hread Hop Hpeer
              ltac:(discriminate))
    as (c' & H).
  - repeat constructor; try assumption. simpl.
    destruct toMask; [apply Hkey; reflexivity|reflexivity].
  - exists c'. cbn [map List.concat snd] in H. rewrite app_nil_r in H.
    exact H.
Qed.

(** X12. What one side sends, the other side receives. The frame that
    [sendTextMessage] writes for a well-formed string, read by a
    connection that is between messages, invokes its text handler once
    with the same string; the frame that [sendBinaryMessage] writes
    invokes its binary handler once with the same bytes. This holds from a
    masking sender to any receiver and from a sender that does not mask to
    a receiver that does not require masking; with no handler installed
    the message is dropped silently. *)
Theorem sent_message_is_received :
  forall (sender receiver : connection) (key r : Buffer) (now : Z),
    (toMaskOwnMessages sender = true -> byteLength key = MASKING_KEY_SIZE) ->
    (isPeerMaskingRequired receiver = true ->
     toMaskOwnMessages sender = true) ->
    remainingLength receiver = 0 ->
    isReadingMessage receiver = false ->
    (forall s : jsstring,
        isWellFormed s = true ->
        byteLength (Buffer_from_utf8 s) <= MAX_LENGTH ->
        exists frame c',
          trace (sendTextMessage key s sender)
          = trace sender ++ [SocketWrite frame]
          /\ onData now r frame receiver = Some c'
          /\ trace c'
             = trace receiver ++ sync_effects now receiver
                 ++ (if onTextMessage receiver then [Callback (HostText s)]
                     else [])
          /\ isOpen c' = isOpen receiver
          /\ isReadingMessage c' = false
          /\ payloadBuffers c' = []
          /\ remainingLength c' = 0)
    /\ (forall b : Buffer,
          Forall octet b ->
          byteLength b <= MAX_LENGTH ->
          exists frame c',
            trace (sendBinaryMessage key b sender)
            = trace sender ++ [SocketWrite frame]
            /\ onData now r frame receiver = Some c'
            /\ trace c'
               = trace receiver ++ sync_effects now receiver
                   ++ (if onBinaryMessage receiver
                       then [Callback (HostBinary b)] else [])
            /\ isOpen c' = isOpen receiver
            /\ isReadingMessage c' = false
            /\ payloadBuffers c' = []
            /\ remainingLength c' = 0).
Proof.
  intros sender receiver key r now Hkey Hpeer Hrem Hread. split.
  - intros s Hw Hmax.
    destruct (utf8_round_trip s Hw) as [Hoct Hback].
    destruct (sent_frame_received now r receiver OPCODE_TEXT_FRAME
                (toMaskOwnMessages sender) key (Buffer_from_utf8 s)
                Hrem Hread (or_introl eq_refl) Hpeer Hkey Hoct Hmax)
      as (c' & Hdata & Ht & Hrest).
    exists (createTextFrame s (toMaskOwnMessages sender) key), c'.
    split; [reflexivity|]. split; [exact Hdata|].
    split; [|exact Hrest].
    rewrite Ht. unfold message_effects. simpl. rewrite Hback. reflexivity.
  - intros b Hoct Hmax.
    destruct (sent_frame_received now r receiver OPCODE_BINARY_FRAME
                (toMaskOwnMessages sender) key b
                Hrem Hread (or_intror eq_refl) Hpeer Hkey Hoct Hmax)
      as (c' & Hdata & Ht & Hrest).
    exists (createBinaryFrame b (toMaskOwnMessages sender) key), c'.
    split; [reflexivity|]. split; [exact Hdata|].
    split; [|exact Hrest].
    rewrite Ht. reflexivity.
Qed.

Lemma sent_message_is_received_witness :
  exists frame c',
    trace (sendTextMessage [55; 250; 33; 61] [72; 8364; 55357; 56832]
             (client 0))
    = trace (client 0) ++ [SocketWrite frame]
    /\ onData 1 [] frame (server_with_text 0 false false false) = Some c'
    /\ trace c'
       = trace (server_with_text 0 false false false)
           ++ sync_effects 1 (server_with_text 0 false false false)
           ++ (if onTextMessage (server_with_text 0 false false false)
               then [Callback (HostText [72; 8364; 55357; 56832])] else [])
    /\ isOpen c' = isOpen (server_with_text 0 false false false)
    /\ isReadingMessage c' = false
    /\ payloadBuffers c' = []
    /\ remainingLength c' = 0.
Proof.
  assert (Hmax : byteLength (Buffer_from_utf8 [72; 8364; 55357; 56832])
                 <= MAX_LENGTH) by (vm_compute; discriminate).
  exact (proj1
           (sent_message_is_received (client 0)
              (server_with_text 0 false false false) [55; 250; 33; 61] [] 1
              (fun _ => eq_refl) (fun _ => eq_refl) eq_refl eq_refl)
           [72; 8364; 55357; 56832] eq_refl Hmax).
Defined.

Lemma forall_from_spec (P : Z -> bool) (n : nat) :
  forall start,
    forall_from n start P = true ->
    forall x, start <= x < start + Z.of_nat n -> P x = true.
Proof.
  induction n as [|n IH]; intros start H x Hx; [lia|].
  cbn [forall_from] in H. apply andb_prop in H as [H0 H1].
  destruct (Z.eq_dec x start) as [->|Hne]; [exact H0|].
  apply (IH (start + 1) H1). lia.
Qed.

Lemma Buffer_equals_eq (a b : Buffer) : Buffer_equals a b = true -> a = b.
Proof.
  unfold Buffer_equals. revert b.
  induction a as [|x a IH]; intros [|y b] H; try reflexivity;
    try discriminate.
  simpl in H. apply andb_prop in H as [Hl H].
  apply andb_prop in H as [Hx H]. zbool. subst. f_equal.
  apply IH. rewrite Hl, H. reflexivity.
Qed.

Lemma close_payload_digits (code : Z) :
  1000 <= code <= 9999 ->
  Buffer_from_utf8 (Number_toString code) = decimal_digits code.
Proof.
  intros H. apply Buffer_equals_eq.
  apply (forall_from_spec
           (fun x => Buffer_equals (Buffer_from_utf8 (Number_toString x))
                       (decimal_digits x))
           (Z.to_nat 9000) 1000).
  - vm_compute. reflexivity.
  - rewrite Z2Nat.id; lia.
Qed.

(** X13. The payload of the close frame that [dropConnection] writes is
    the status code as decimal text: for a four-digit code, as all the
    codes of the connection are, four ASCII digits, and not the two-byte
    big-endian integer of RFC 6455. A peer that reads the first two
    payload bytes as the status code reads the digits, never the code. *)
Theorem close_frame_payload_is_decimal_text :
  forall (code : Z) (toMask : bool) (key : Buffer),
    1000 <= code <= 9999 ->
    createCloseFrame code toMask key
    = createMessageFrame OPCODE_CONNECTION_CLOSE (decimal_digits code)
        toMask key
    /\ createCloseFrame code false key = [136; 4] ++ decimal_digits code
    /\ readUInt16BE (createCloseFrame code false key) 2 <> code.
Proof.
  intros code toMask key H. unfold createCloseFrame.
  rewrite close_payload_digits by exact H.
  split; [reflexivity|]. split; [reflexivity|].
  unfold readUInt16BE, decimal_digits.
  change (byte_at (createMessageFrame OPCODE_CONNECTION_CLOSE
                     [48 + code / 1000; 48 + code / 100 mod 10;
                      48 + code / 10 mod 10; 48 + code mod 10] false key) 2)
    with (48 + code / 1000).
  change (byte_at (createMessageFrame OPCODE_CONNECTION_CLOSE
                     [48 + code / 1000; 48 + code / 100 mod 10;
                      48 + code / 10 mod 10; 48 + code mod 10] false key)
            (2 + 1))
    with (48 + code / 100 mod 10).
  pose proof (Z.div_pos code 1000 ltac:(lia) ltac:(lia)).
  pose proof (Z.mod_pos_bound (code / 100) 10 ltac:(lia)).
  assert (1 <= code / 1000) by (apply Z.div_le_lower_bound; lia).
  lia.
Qed.

Lemma close_frame_payload_is_decimal_text_witness :
  createCloseFrame 1002 false [] = [136; 4] ++ decimal_digits 1002
  /\ readUInt16BE (createCloseFrame 1002 false []) 2 <> 1002.
Proof.
  apply (close_frame_payload_is_decimal_text 1002 false []). lia.
Defined.

(** ** Base64 *)

Lemma Buffer_toString_base64_length (n : nat) :
  forall b : Buffer,
    (List.length b <= n)%nat ->
    Z.of_nat (List.length (Buffer_toString_base64 b))
    = getBase64Length (byteLength b).
Proof.
  unfold getBase64Length, byteLength.
  induction n as [|n IH]; intros b Hn.
  - destruct b; [reflexivity|simpl in Hn; lia].
  - destruct b as [|x [|y [|z rest]]]; try reflexivity.
    cbn [Buffer_toString_base64]. rewrite length_app.
    rewrite Nat2Z.inj_add, (IH rest) by (simpl in Hn; lia).
    cbn [List.length]. rewrite !Nat2Z.inj_succ.
    replace (- Z.succ (Z.succ (Z.succ (Z.of_nat (List.length rest)))))
      with (- Z.of_nat (List.length rest) + (-1) * 3) by lia.
    rewrite Z.div_add by lia. simpl Z.of_nat. lia.
Qed.

(** X14. The base64 text of [n] bytes has [getBase64Length(n)] code
    units; so the key that the client makes of its 16 random bytes has
    the 24 code units that [serverUpgradeRequest] asks of a key. *)
Theorem getBase64Length_is_the_length :
  forall b : Buffer,
    Z.of_nat (List.length (Buffer_toString_base64 b))
    = getBase64Length (byteLength b)
    /\ (byteLength b = HANDSHAKE_KEY_SIZE ->
        Z.of_nat (List.length (Buffer_toString_base64 b))
        = HANDSHAKE_KEY_BASE64_SIZE
        /\ HANDSHAKE_KEY_BASE64_SIZE = 24).
Proof.
  intros b.
  pose proof (Buffer_toString_base64_length (List.length b) b (le_n _)) as H.
  split; [exact H|]. intros Hb. rewrite H, Hb. split; reflexivity.
Qed.

Lemma getBase64Length_is_the_length_witness :
  Z.of_nat
    (List.length
       (Buffer_toString_base64
          [116; 104; 101; 32; 115; 97; 109; 112; 108; 101; 32; 110; 111; 110;
           99; 101]))
  = HANDSHAKE_KEY_BASE64_SIZE
  /\ HANDSHAKE_KEY_BASE64_SIZE = 24.
Proof.
  apply (getBase64Length_is_the_length
           [116; 104; 101; 32; 115; 97; 109; 112; 108; 101; 32; 110; 111;
            110; 99; 101]).
  reflexivity.
Defined.

Example base64_of_the_sample_nonce :
  Buffer_toString_base64
    [116; 104; 101; 32; 115; 97; 109; 112; 108; 101; 32; 110; 111; 110; 99;
     101]
  = js "dGhlIHNhbXBsZSBub25jZQ==".
Proof. reflexivity. Qed.

(** ** Strings *)

Lemma String_equals_refl (a : jsstring) : String_equals a a = true.
Proof.
  induction a as [|x a IH]; [reflexivity|].
  simpl. rewrite Z.eqb_refl. exact IH.
Qed.

Lemma String_equals_eq (a b : jsstring) : String_equals a b = true -> a = b.
Proof.
  revert b. induction a as [|x a IH]; intros [|y b] H; try reflexivity;
    try discriminate.
  simpl in H. apply andb_prop in H as [Hx H]. zbool. subst. f_equal.
  apply IH. exact H.
Qed.

Lemma String_equals_neq (a b : jsstring) :
  a <> b -> String_equals a b = false.
Proof.
  intros H. destruct (String_equals a b) eqn:E; [|reflexivity].
  apply String_equals_eq in E. contradiction.
Qed.

(** *** [split] *)

Lemma has_unit_cons (u x : Z) (s : jsstring) :
  has_unit u (x :: s) = (u =? x) || has_unit u s.
Proof. reflexivity. Qed.

Lemma String_split_from_last (u : Z) (piece : jsstring) :
  has_unit u piece = false ->
  forall current,
    String_split_from [u] 0 current piece = [current ++ piece].
Proof.
  induction piece as [|x piece IH]; intros Hp current.
  - simpl. rewrite app_nil_r. reflexivity.
  - rewrite has_unit_cons in Hp. apply orb_false_iff in Hp as [Hx Hp].
    cbn [String_split_from String_startsWith].
    rewrite Hx. cbn [andb]. rewrite IH by exact Hp.
    rewrite <- app_assoc. reflexivity.
Qed.

Lemma String_split_from_piece (u : Z) (piece rest : jsstring) :
  has_unit u piece = false ->
  forall current,
    String_split_from [u] 0 current (piece ++ u :: rest)
    = (current ++ piece) :: String_split_from [u] 0 [] rest.
Proof.
  induction piece as [|x piece IH]; intros Hp current.
  - cbn [app String_split_from String_startsWith].
    rewrite Z.eqb_refl, app_nil_r. reflexivity.
  - rewrite has_unit_cons in Hp. apply orb_false_iff in Hp as [Hx Hp].
    cbn [app String_split_from String_startsWith].
    rewrite Hx. cbn [andb]. rewrite IH by exact Hp.
    rewrite <- app_assoc. reflexivity.
Qed.

(** A line that holds no carriage return, and the lines after it. *)
Lemma String_split_CRLF_line (line rest : jsstring) :
  has_unit 13 line = false ->
  forall current,
    String_split_from CRLF 0 current (line ++ CRLF ++ rest)
    = (current ++ line) :: String_split_from CRLF 0 [] rest.
Proof.
  induction line as [|x line IH]; intros Hp current.
  - cbn [app String_split_from String_startsWith CRLF List.length].
    rewrite !Z.eqb_refl, app_nil_r. reflexivity.
  - rewrite has_unit_cons in Hp. apply orb_false_iff in Hp as [Hx Hp].
    cbn [app String_split_from String_startsWith CRLF].
    rewrite Hx. cbn [andb]. fold CRLF. rewrite IH by exact Hp.
    rewrite <- app_assoc. reflexivity.
Qed.

(** *** [trim] *)

Lemma String_trim_plain (s : jsstring) :
  plain_ends s = true -> String_trim s = s.
Proof.
  unfold plain_ends, String_trim. destruct s as [|u s]; [discriminate|].
  destruct (rev (u :: s)) as [|w t] eqn:Hr; [discriminate|].
  intros H. apply andb_prop in H as [Hu Hw].
  apply negb_true_iff in Hu, Hw.
  cbn [String_trimStart]. rewrite Hu, Hr. cbn [String_trimStart].
  rewrite Hw, <- Hr. apply rev_involutive.
Qed.

Lemma String_trim_space (u : Z) (s : jsstring) :
  is_white_space u = true -> String_trim (u :: s) = String_trim s.
Proof.
  intros H. unfold String_trim. cbn [String_trimStart]. rewrite H.
  reflexivity.
Qed.

(** ** Comma-separated headers *)

Lemma plain_ends_nonempty (s : jsstring) : plain_ends s = true -> s <> [].
Proof. destruct s; [discriminate|discriminate]. Qed.

Lemma joined_tokens_split (tokens : list jsstring) :
  tokens <> [] ->
  forallb list_token tokens = true ->
  forall pre,
    pre = [] \/ pre = [32] ->
    filter (fun it => negb (String_equals it []))
      (map String_trim
         (String_split_from [44] 0 [] (pre ++ Array_join tokens [44; 32])))
    = tokens.
Proof.
  induction tokens as [|t rest IH]; [congruence|].
  intros _ Hok pre Hpre. cbn [forallb] in Hok.
  apply andb_prop in Hok as [Ht Hrest].
  unfold list_token in Ht. apply andb_prop in Ht as [Hplain Hcomma].
  apply negb_true_iff in Hcomma.
  assert (Hpiece : has_unit 44 (pre ++ t) = false).
  { destruct Hpre as [-> | ->]; [exact Hcomma|].
    cbn [app]. rewrite has_unit_cons, Hcomma. reflexivity. }
  assert (Htrim : String_trim (pre ++ t) = t).
  { destruct Hpre as [-> | ->]; cbn [app].
    - apply String_trim_plain. exact Hplain.
    - rewrite String_trim_space by reflexivity.
      apply String_trim_plain. exact Hplain. }
  assert (Hne : String_equals t [] = false).
  { apply String_equals_neq. apply plain_ends_nonempty. exact Hplain. }
  destruct rest as [|t' rest].
  - cbn [Array_join]. rewrite String_split_from_last by exact Hpiece.
    cbn [app map filter]. rewrite Htrim, Hne. reflexivity.
  - change (Array_join (t :: t' :: rest) [44; 32])
      with (t ++ 44 :: [32] ++ Array_join (t' :: rest) [44; 32]).
    rewrite app_assoc, String_split_from_piece by exact Hpiece.
    cbn [map filter]. change ([] ++ (pre ++ t)) with (pre ++ t).
    rewrite Htrim, Hne. cbn [negb]. f_equal.
    apply (IH ltac:(congruence) Hrest [32]). right. reflexivity.
Qed.

(** X15. [getHttpHeaderAsArray] undoes [join(', ')]: the header that the
    client writes for a list of protocols is read by the server as that
    list, when no protocol is empty, holds a comma, or starts or ends
    with white space. *)
Theorem joined_header_is_read_back :
  forall (P : platform) (headers : jsobject) (headerId : jsstring)
         (tokens : list jsstring),
    forallb list_token tokens = true ->
    Object_get headers headerId = Some (Array_join tokens (js ", ")) ->
    getHttpHeaderAsArray P headers headerId false = tokens.
Proof.
  intros P headers headerId tokens Hok Hget.
  unfold getHttpHeaderAsArray, Object_get_or_empty, String_split.
  rewrite Hget. destruct tokens as [|t rest]; [reflexivity|].
  apply (joined_tokens_split (t :: rest) ltac:(congruence) Hok []).
  left. reflexivity.
Qed.

Lemma joined_header_is_read_back_witness :
  getHttpHeaderAsArray example_platform
    [(js "sec-websocket-protocol",
      Array_join [js "chat"; js "superchat v2"] (js ", "))]
    (js "sec-websocket-protocol") false
  = [js "chat"; js "superchat v2"].
Proof.
  apply (joined_header_is_read_back example_platform
           [(js "sec-websocket-protocol",
             Array_join [js "chat"; js "superchat v2"] (js ", "))]
           (js "sec-websocket-protocol") [js "chat"; js "superchat v2"]);
    reflexivity.
Defined.

(** ** Objects *)

Lemma Object_get_put (o : jsobject) (k v k' : jsstring) :
  Object_get (Object_put o k v) k'
  = if String_equals k k' then Some v else Object_get o k'.
Proof.
  induction o as [|[k1 v1] o IH]; [reflexivity|].
  cbn [Object_put Object_get].
  destruct (String_equals k1 k) eqn:E1.
  - apply String_equals_eq in E1. subst k1. cbn [Object_get].
    destruct (String_equals k k'); reflexivity.
  - cbn [Object_get]. rewrite IH.
    destruct (String_equals k1 k') eqn:E2; [|reflexivity].
    apply String_equals_eq in E2. subst k1. rewrite String_equals_neq;
      [reflexivity|].
    intros ->. rewrite String_equals_refl in E1. discriminate.
Qed.

Lemma Object_get_set (o : jsobject) (k v k' : jsstring) :
  String_equals k (js "__proto__") = false ->
  Object_get (Object_set o k v) k'
  = if String_equals k k' then Some v else Object_get o k'.
Proof. intros H. unfold Object_set. rewrite H. apply Object_get_put. Qed.

Lemma Object_put_keys (o : jsobject) (k v : jsstring) :
  map fst (Object_put o k v)
  = if existsb (fun k' => String_equals k' k) (map fst o) then map fst o
    else map fst o ++ [k].
Proof.
  induction o as [|[k1 v1] o IH]; [reflexivity|].
  cbn [Object_put map fst existsb].
  destruct (String_equals k1 k); [reflexivity|].
  cbn [map fst orb]. rewrite IH.
  destruct (existsb (fun k' => String_equals k' k) (map fst o)); reflexivity.
Qed.

Lemma Object_set_NoDup (o : jsobject) (k v : jsstring) :
  NoDup (map fst o) -> NoDup (map fst (Object_set o k v)).
Proof.
  intros H. unfold Object_set.
  destruct (String_equals k (js "__proto__")); [exact H|].
  rewrite Object_put_keys.
  destruct (existsb (fun k' => String_equals k' k) (map fst o)) eqn:E;
    [exact H|].
  apply NoDup_app; [exact H|repeat constructor; intros []|].
  intros x Hx [<-|[]].
  assert (Ht : existsb (fun k' => String_equals k' k) (map fst o) = true).
  { apply existsb_exists. exists k. split; [exact Hx|].
    apply String_equals_refl. }
  congruence.
Qed.

Lemma toLowerCaseKeys_NoDup (P : platform) (mapObject : jsobject) :
  NoDup (map fst (toLowerCaseKeys P mapObject)).
Proof.
  unfold toLowerCaseKeys.
  assert (H : forall keys copy,
            NoDup (map fst copy) ->
            NoDup (map fst
                     (fold_left
                        (fun copy key =>
                           Object_set copy (toLowerCase P key)
                             match Object_get mapObject key with
                             | Some v => v
                             | None => js "undefined"
                             end) keys copy))).
  { induction keys as [|k keys IH]; intros copy Hc; [exact Hc|].
    cbn [fold_left]. apply IH. apply Object_set_NoDup. exact Hc. }
  apply H. constructor.
Qed.

Lemma insert_index_Permutation (i : Z) (k : jsstring)
  (l : list (Z * jsstring)) :
  Permutation (insert_index i k l) ((i, k) :: l).
Proof.
  induction l as [|[j k'] l IH]; [apply Permutation_refl|].
  cbn [insert_index]. destruct (i <? j); [apply Permutation_refl|].
  eapply Permutation_trans; [apply perm_skip, IH|]. apply perm_swap.
Qed.

Lemma Object_keys_Permutation (o : jsobject) :
  Permutation (Object_keys o) (map fst o).
Proof.
  unfold Object_keys.
  set (is_index := fun k => match array_index k with
                            | Some _ => true
                            | None => false
                            end).
  assert (Hfold : forall keys acc,
            Permutation
              (map snd
                 (fold_left
                    (fun acc k =>
                       match array_index k with
                       | Some i => insert_index i k acc
                       | None => acc
                       end) keys acc))
              (filter is_index keys ++ map snd acc)).
  { induction keys as [|k keys IH]; intros acc; [apply Permutation_refl|].
    cbn [fold_left filter].
    assert (Hk : is_index k = match array_index k with
                              | Some _ => true
                              | None => false
                              end) by reflexivity.
    rewrite Hk. clear Hk.
    destruct (array_index k) as [i|].
    - eapply Permutation_trans; [apply IH|].
      eapply Permutation_trans;
        [apply Permutation_app_head, Permutation_map,
           insert_index_Permutation|].
      cbn [map snd]. apply Permutation_sym, Permutation_middle.
    - apply IH. }
  eapply Permutation_trans;
    [apply Permutation_app_tail; eapply Permutation_trans; [apply Hfold|];
     cbn [map]; rewrite app_nil_r; apply Permutation_refl|].
  generalize (map fst o). intros keys.
  induction keys as [|k keys IH]; [apply Permutation_refl|].
  cbn [filter].
  assert (Hk : is_index k = match array_index k with
                            | Some _ => true
                            | None => false
                            end) by reflexivity.
  rewrite Hk. clear Hk.
  destruct (array_index k) as [i|].
  - cbn [app]. apply perm_skip. exact IH.
  - apply Permutation_sym.
    eapply Permutation_trans; [|apply Permutation_middle].
    apply perm_skip, Permutation_sym. exact IH.
Qed.

Lemma Object_keys_NoDup (o : jsobject) :
  NoDup (map fst o) -> NoDup (Object_keys o).
Proof.
  intros H. eapply Permutation_NoDup; [|exact H].
  apply Permutation_sym, Object_keys_Permutation.
Qed.

(** X16. The headers of the handshake win over the headers of the host.
    Whatever header object the host passes to [serverUpgradeRequest],
    and in whatever letter case it writes the names, the header object of
    the response holds each name once, so that [serializeHttpHeaders]
    writes one line for it, and holds the handshake's own
    values of [upgrade], [connection] and [sec-websocket-accept] and, when
    a protocol is selected, of [sec-websocket-protocol]. The same holds of
    the request of [createClientConnection] for [host], [upgrade],
    [connection], [sec-websocket-key], [sec-websocket-version] and, when
    protocols are given, [sec-websocket-protocol]. *)
Theorem handshake_headers_win :
  forall (P : platform) (headers : jsobject),
    (forall (secWebSocketKey : jsstring) (protocol : option jsstring),
        let o :=
          upgrade_responseHeaders P headers secWebSocketKey protocol in
        NoDup (Object_keys o)
        /\ Object_get o (js "upgrade") = Some (js "websocket")
        /\ Object_get o (js "connection") = Some (js "upgrade")
        /\ Object_get o (js "sec-websocket-accept")
           = Some (createSHA1HashBase64 P
                     (secWebSocketKey ++ WEB_SOCKET_GUID))
        /\ (forall p, protocol = Some p ->
              Object_get o (js "sec-websocket-protocol") = Some p))
    /\ (forall (host secWebSocketKey : jsstring) (protocols : list jsstring),
          let o :=
            client_requestHeaders P headers host secWebSocketKey protocols in
          NoDup (Object_keys o)
          /\ Object_get o (js "host") = Some host
          /\ Object_get o (js "upgrade") = Some (js "websocket")
          /\ Object_get o (js "connection") = Some (js "keep-alive, upgrade")
          /\ Object_get o (js "sec-websocket-key") = Some secWebSocketKey
          /\ Object_get o (js "sec-websocket-version") = Some (js "13")
          /\ (protocols <> [] ->
              Object_get o (js "sec-websocket-protocol")
              = Some (Array_join protocols (js ", ")))).
Proof.
  intros P headers. split.
  - intros key protocol o. subst o. unfold upgrade_responseHeaders.
    pose proof (toLowerCaseKeys_NoDup P headers) as Hnd.
    destruct protocol as [p|].
    + split; [apply Object_keys_NoDup; repeat apply Object_set_NoDup;
             exact Hnd|].
      rewrite !Object_get_set by reflexivity. cbn [String_equals js].
      repeat split. intros p' Hp. inversion Hp; subst.
      rewrite String_equals_refl. reflexivity.
    + split; [apply Object_keys_NoDup; repeat apply Object_set_NoDup;
             exact Hnd|].
      rewrite !Object_get_set by reflexivity.
      repeat split. intros p' Hp. discriminate.
  - intros host key protocols o. subst o. unfold client_requestHeaders.
    pose proof (toLowerCaseKeys_NoDup P headers) as Hnd.
    destruct protocols as [|p protocols].
    + split; [apply Object_keys_NoDup; repeat apply Object_set_NoDup;
             exact Hnd|].
      cbn [List.length Z.of_nat Z.gtb Z.compare].
      rewrite !Object_get_set by reflexivity.
      repeat split. congruence.
    + replace (Z.of_nat (List.length (p :: protocols)) >? 0) with true
        by (symmetry; rewrite Z.gtb_ltb; apply Z.ltb_lt;
            simpl List.length; lia).
      split; [apply Object_keys_NoDup; repeat apply Object_set_NoDup;
             exact Hnd|].
      rewrite !Object_get_set by reflexivity.
      repeat split.
Qed.

Lemma handshake_headers_win_witness :
  Object_get
    (upgrade_responseHeaders example_platform
       [(js "Upgrade", js "h2c"); (js "7", js "x")] (js "key")
       (Some (js "chat")))
    (js "sec-websocket-protocol")
  = Some (js "chat")
  /\ Object_get
       (client_requestHeaders example_platform
          [(js "Sec-WebSocket-Protocol", js "mine")] (js "example.com")
          (js "key") [js "chat"; js "superchat"])
       (js "sec-websocket-protocol")
     = Some (Array_join [js "chat"; js "superchat"] (js ", ")).
Proof.
  split.
  - apply (proj1 (handshake_headers_win example_platform
                    [(js "Upgrade", js "h2c"); (js "7", js "x")])
             (js "key") (Some (js "chat"))).
    reflexivity.
  - apply (proj2 (handshake_headers_win example_platform
                    [(js "Sec-WebSocket-Protocol", js "mine")])
             (js "example.com") (js "key") [js "chat"; js "superchat"]).
    discriminate.
Defined.

Example serializeHttpHeaders_order :
  serializeHttpHeaders
    (upgrade_responseHeaders example_platform
       [(js "Upgrade", js "h2c"); (js "7", js "x"); (js "X-A", js "1")]
       (js "key") None)
  = [js "7: x"; js "upgrade: websocket"; js "x-a: 1";
     js "connection: upgrade";
     js "sec-websocket-accept: s3pPLMBiTxaQ9kYGzzhZRbK+xOo="].
Proof. vm_compute. reflexivity. Qed.

(** ** The request of the client, read by the server *)

Lemma client_requestHeaders_get (P : platform) (headers : jsobject)
  (host secWebSocketKey : jsstring) (protocols : list jsstring) :
  let o := client_requestHeaders P headers host secWebSocketKey protocols in
  Object_get o (js "host") = Some host
  /\ Object_get o (js "upgrade") = Some (js "websocket")
  /\ Object_get o (js "connection") = Some (js "keep-alive, upgrade")
  /\ Object_get o (js "sec-websocket-key") = Some secWebSocketKey
  /\ Object_get o (js "sec-websocket-version") = Some (js "13")
  /\ Object_get o (js "sec-websocket-protocol")
     = match protocols with
       | [] =>
           Object_get (toLowerCaseKeys P headers)
             (js "sec-websocket-protocol")
       | _ :: _ => Some (Array_join protocols (js ", "))
       end.
Proof.
  intros o. subst o. unfold client_requestHeaders.
  destruct protocols as [|p protocols].
  - cbn [List.length Z.of_nat Z.gtb Z.compare].
    rewrite !Object_get_set by reflexivity. repeat split.
  - replace (Z.of_nat (List.length (p :: protocols)) >? 0) with true
      by (symmetry; rewrite Z.gtb_ltb; apply Z.ltb_lt;
          simpl List.length; lia).
    rewrite !Object_get_set by reflexivity. repeat split.
Qed.

Lemma getHttpHeaderAsArray_lower (P : platform) (headers : jsobject)
  (headerId value : jsstring) (tokens : list jsstring) :
  lowercases_ascii P ->
  Object_get headers headerId = Some value ->
  filter (fun it => negb (String_equals it []))
    (map String_trim (String_split (js ",") value)) = tokens ->
  forallb (forallb is_ascii) tokens = true ->
  getHttpHeaderAsArray P headers headerId true
  = map ascii_toLowerCase tokens.
Proof.
  intros HP Hget Htokens Hascii.
  unfold getHttpHeaderAsArray, Object_get_or_empty.
  rewrite Hget, Htokens. clear Htokens.
  induction tokens as [|t tokens IH]; [reflexivity|].
  cbn [forallb] in Hascii. apply andb_prop in Hascii as [Ht Hrest].
  cbn [map]. rewrite (HP t Ht), IH by exact Hrest. reflexivity.
Qed.

(** X17. The server of this library upgrades the request of its client.
    A GET request of HTTP 1.1 whose headers are those that [onConnected]
    fills in, whatever headers the host of the client adds and whatever
    the [host] of the URL is, passes the six checks of
    [serverUpgradeRequest], when the platform lower-cases ASCII text
    letter by letter and decodes the key to 16 bytes. The outcome is that
    of [selectProtocol] alone, which is called with the list of protocols
    of the client when the list is not empty and each protocol is a token;
    with an empty list, it is called with what the [sec-websocket-protocol]
    header of the client's host holds. *)
Theorem client_request_is_upgraded :
  forall (P : platform) (headers : jsobject) (host : jsstring)
         (randomBytes : Buffer) (protocols : list jsstring)
         (selectProtocol : list jsstring -> selection)
         (serverHeaders : jsobject) (now : Z),
    lowercases_ascii P ->
    byteLength randomBytes = HANDSHAKE_KEY_SIZE ->
    base64_decoded_length P (Buffer_toString_base64 randomBytes)
    = HANDSHAKE_KEY_SIZE ->
    forallb list_token protocols = true ->
    let secWebSocketKey := Buffer_toString_base64 randomBytes in
    let offered :=
      match protocols with
      | [] =>
          getHttpHeaderAsArray P (toLowerCaseKeys P headers)
            (js "sec-websocket-protocol") false
      | _ :: _ => protocols
      end in
    serverUpgradeRequest P
      {| method := js "GET";
         httpVersionMajor := 1;
         httpVersionMinor := 1;
         request_headers :=
           client_requestHeaders P headers host secWebSocketKey protocols |}
      selectProtocol serverHeaders now
    = match selectProtocol offered with
      | SelectError error => UpgradeError error
      | Selected protocol =>
          Upgraded
            (Array_join
               ([js "HTTP/1.1 101 Switching Protocols"]
                  ++ serializeHttpHeaders
                       (upgrade_responseHeaders P serverHeaders
                          secWebSocketKey protocol)
                  ++ [CRLF])
               CRLF)
            (WebSocketConnection true false now)
            protocol
      end.
Proof.
  intros P headers host randomBytes protocols selectProtocol serverHeaders
    now HP Hbytes Hdecoded Htokens key offered.
  destruct (client_requestHeaders_get P headers host key protocols)
    as (_ & Hupgrade & Hconnection & Hkey & Hversion & Hprotocol).
  pose proof (Buffer_toString_base64_length (List.length randomBytes)
                randomBytes (le_n _)) as Hlen.
  fold key in Hlen, Hdecoded. rewrite Hbytes in Hlen.
  unfold serverUpgradeRequest.
  cbn [method httpVersionMajor httpVersionMinor request_headers].
  set (o := client_requestHeaders P headers host key protocols) in *.
  rewrite String_equals_refl. cbn [negb].
  change (negb ((1 >? 1) || (1 =? 1) && (1 >=? 1))) with false. cbv iota.
  rewrite (getHttpHeaderAsArray_lower P o (js "upgrade") (js "websocket")
             [js "websocket"] HP Hupgrade eq_refl eq_refl).
  change (negb (Array_includes (map ascii_toLowerCase [js "websocket"])
                  (js "websocket"))) with false. cbv iota.
  rewrite (getHttpHeaderAsArray_lower P o (js "connection")
             (js "keep-alive, upgrade") [js "keep-alive"; js "upgrade"]
             HP Hconnection eq_refl eq_refl).
  change (negb (Array_includes
                  (map ascii_toLowerCase [js "keep-alive"; js "upgrade"])
                  (js "upgrade"))) with false. cbv iota.
  unfold Object_get_or_empty. rewrite Hkey, Hversion.
  rewrite Hlen, Hdecoded, !Z.eqb_refl.
  change (negb (String_equals (js "13") (js "13"))) with false.
  cbn [andb negb].
  replace (getHttpHeaderAsArray P o (js "sec-websocket-protocol") false)
    with offered; [reflexivity|].
  subst offered. destruct protocols as [|p protocols].
  - unfold getHttpHeaderAsArray, Object_get_or_empty. rewrite Hprotocol.
    reflexivity.
  - symmetry. unfold getHttpHeaderAsArray, Object_get_or_empty, String_split.
    rewrite Hprotocol.
    apply (joined_tokens_split (p :: protocols) ltac:(congruence) Htokens []).
    left. reflexivity.
Qed.

Lemma client_request_is_upgraded_witness :
  serverUpgradeRequest example_platform
    {| method := js "GET";
       httpVersionMajor := 1;
       httpVersionMinor := 1;
       request_headers :=
         client_requestHeaders example_platform
           [(js "Upgrade", js "h2c"); (js "Origin", js "http://example.com")]
           (js "example.com")
           (Buffer_toString_base64
              [116; 104; 101; 32; 115; 97; 109; 112; 108; 101; 32; 110; 111;
               110; 99; 101])
           [js "chat"; js "superchat"] |}
    (fun protocols => Selected (nth_error protocols 1)) [] 0
  = Upgraded
      (js "HTTP/1.1 101 Switching Protocols" ++ CRLF
         ++ js "upgrade: websocket" ++ CRLF
         ++ js "connection: upgrade" ++ CRLF
         ++ js "sec-websocket-accept: s3pPLMBiTxaQ9kYGzzhZRbK+xOo=" ++ CRLF
         ++ js "sec-websocket-protocol: superchat" ++ CRLF ++ CRLF)
      (WebSocketConnection true false 0)
      (Some (js "superchat")).
Proof.
  exact (client_request_is_upgraded example_platform
           [(js "Upgrade", js "h2c"); (js "Origin", js "http://example.com")]
           (js "example.com")
           [116; 104; 101; 32; 115; 97; 109; 112; 108; 101; 32; 110; 111;
            110; 99; 101]
           [js "chat"; js "superchat"]
           (fun protocols => Selected (nth_error protocols 1)) [] 0
           (fun s _ => eq_refl) eq_refl eq_refl eq_refl).
Defined.

(** ** The response of the server, read by the client *)

Lemma has_unit_app (u : Z) (a b : jsstring) :
  has_unit u (a ++ b) = has_unit u a || has_unit u b.
Proof. apply existsb_app. Qed.

Lemma plain_ends_app (a m b : jsstring) :
  plain_ends a = true -> plain_ends b = true ->
  plain_ends (a ++ m ++ b) = true.
Proof.
  unfold plain_ends.
  destruct a as [|u a]; [discriminate|].
  destruct (rev (u :: a)) as [|w t]; [discriminate|].
  intros Ha. apply andb_prop in Ha as [Hu _].
  destruct b as [|x b]; [discriminate|].
  destruct (rev (x :: b)) as [|y s] eqn:Hr; [discriminate|].
  intros Hb. apply andb_prop in Hb as [_ Hy].
  cbn [app].
  change (u :: a ++ m ++ x :: b) with ((u :: a) ++ m ++ (x :: b)).
  rewrite !rev_app_distr, Hr. cbn [app]. rewrite Hu, Hy. reflexivity.
Qed.

Lemma isWellFormed_app (n : nat) :
  forall a b : jsstring,
    (List.length a <= n)%nat ->
    isWellFormed a = true -> isWellFormed b = true ->
    isWellFormed (a ++ b) = true.
Proof.
  induction n as [|n IH]; intros a b Hn Ha Hb.
  - destruct a; [exact Hb|simpl in Hn; lia].
  - destruct a as [|u a]; [exact Hb|].
    cbn [app isWellFormed] in *.
    destruct (is_high_surrogate u).
    + destruct a as [|l a]; [discriminate|].
      apply andb_prop in Ha as [Hl Ha]. cbn [app]. rewrite Hl. cbn [andb].
      apply IH; [simpl in Hn; lia|exact Ha|exact Hb].
    + apply andb_prop in Ha as [Hu Ha]. rewrite Hu. cbn [andb].
      apply IH; [simpl in Hn; lia|exact Ha|exact Hb].
Qed.

Lemma String_indexOf_from_app (u : Z) (a b : jsstring) :
  has_unit u a = false ->
  forall i, String_indexOf_from u i (a ++ u :: b) = i + byteLength a.
Proof.
  unfold byteLength. induction a as [|x a IH]; intros Ha i.
  - cbn [app String_indexOf_from]. rewrite Z.eqb_refl. simpl. lia.
  - rewrite has_unit_cons in Ha. apply orb_false_iff in Ha as [Hx Ha].
    cbn [app String_indexOf_from]. rewrite Z.eqb_sym, Hx.
    rewrite IH by exact Ha. cbn [List.length]. lia.
Qed.

Lemma parse_responseHeaders_line (P : platform) (name value : jsstring)
  (rest : list jsstring) (o : jsobject) :
  lowercases_ascii P ->
  plain_ends name = true ->
  has_unit 58 name = false ->
  forallb is_ascii name = true ->
  ascii_toLowerCase name = name ->
  plain_ends value = true ->
  parse_responseHeaders P ((name ++ js ": " ++ value) :: rest) o
  = parse_responseHeaders P rest (Object_set o name value).
Proof.
  intros HP Hname Hcolon Hascii Hlower Hvalue.
  cbn [parse_responseHeaders].
  rewrite (String_trim_plain (name ++ js ": " ++ value))
    by (apply plain_ends_app; assumption).
  pose proof (byteLength_nonneg name) as Hlen.
  assert (Hne : String_equals (name ++ js ": " ++ value) [] = false).
  { destruct name; [discriminate|reflexivity]. }
  rewrite Hne.
  assert (Hindex : String_indexOf (name ++ js ": " ++ value) 58
                   = byteLength name).
  { unfold String_indexOf.
    change (js ": " ++ value) with (58 :: 32 :: value).
    rewrite String_indexOf_from_app by exact Hcolon. lia. }
  rewrite Hindex.
  destruct (byteLength name =? -1) eqn:E; [zbool; lia|].
  rewrite slice_prefix by lia.
  replace (firstn (Z.to_nat (byteLength name)) (name ++ js ": " ++ value))
    with name
    by (unfold byteLength; rewrite Nat2Z.id, firstn_app, Nat.sub_diag,
          firstn_all; cbn [firstn]; rewrite app_nil_r; reflexivity).
  rewrite String_trim_plain by exact Hname.
  rewrite (HP name Hascii), Hlower.
  rewrite slice_from_app_beyond by lia.
  replace (slice_from (js ": " ++ value) 1) with (32 :: value)
    by (rewrite slice_from_skipn by lia; reflexivity).
  rewrite String_trim_space by reflexivity.
  rewrite String_trim_plain by exact Hvalue. reflexivity.
Qed.

Lemma isWellFormed_append (a b : jsstring) :
  isWellFormed a = true -> isWellFormed b = true ->
  isWellFormed (a ++ b) = true.
Proof. apply (isWellFormed_app (List.length a)). apply le_n. Qed.

Lemma header_value_parts (s : jsstring) :
  header_value s = true ->
  plain_ends s = true /\ has_unit 13 s = false /\ isWellFormed s = true.
Proof.
  unfold header_value. intros H.
  apply andb_prop in H as [H Hw]. apply andb_prop in H as [Hp Hc].
  apply negb_true_iff in Hc. auto.
Qed.

Lemma parse_responseHeaders_blank (P : platform) (rest : list jsstring)
  (o : jsobject) :
  parse_responseHeaders P ([] :: rest) o = Some o.
Proof. reflexivity. Qed.

(** The response that [serverUpgradeRequest] writes when the host gives
    no headers of its own, read by the client. *)
Lemma upgrade_response_read (P : platform) (clientHeaders : jsobject)
  (secWebSocketKey : jsstring) (protocol : option jsstring) (now : Z)
  (tail : Buffer) :
  lowercases_ascii P ->
  header_value (createSHA1HashBase64 P (secWebSocketKey ++ WEB_SOCKET_GUID))
  = true ->
  (forall p, protocol = Some p -> header_value p = true) ->
  onServerHandshake P clientHeaders secWebSocketKey now
    (Buffer_from_utf8
       (Array_join
          ([js "HTTP/1.1 " ++ Number_toString STATUS_CODE_UPGRADED
              ++ js " Switching Protocols"]
             ++ serializeHttpHeaders
                  (upgrade_responseHeaders P [] secWebSocketKey protocol)
             ++ [CRLF])
          CRLF)
       ++ tail)
  = Connected (WebSocketConnection false true now)
      (Object_get_or_null clientHeaders (js "sec-websocket-protocol")).
Proof.
  intros HP Hdigest Hprotocol.
  set (digest := createSHA1HashBase64 P (secWebSocketKey ++ WEB_SOCKET_GUID))
    in *.
  destruct (header_value_parts digest Hdigest) as (Hdp & Hdc & Hdw).
  set (status := js "HTTP/1.1 101 Switching Protocols").
  set (l1 := js "upgrade: websocket").
  set (l2 := js "connection: upgrade").
  set (l3 := js "sec-websocket-accept" ++ js ": " ++ digest).
  assert (Hl3 : has_unit 13 l3 = false).
  { subst l3. rewrite !has_unit_app, Hdc. reflexivity. }
  assert (Hw3 : isWellFormed l3 = true).
  { subst l3. repeat apply isWellFormed_append; try reflexivity. exact Hdw. }
  assert (Hread : forall text lines o,
            isWellFormed text = true ->
            String_split CRLF (text ++ Buffer_toString_utf8 tail)
            = status :: lines ->
            parse_responseHeaders P lines [] = Some o ->
            Object_get o (js "upgrade") = Some (js "websocket") ->
            Object_get o (js "connection") = Some (js "upgrade") ->
            Object_get o (js "sec-websocket-accept") = Some digest ->
            onServerHandshake P clientHeaders secWebSocketKey now
              (Buffer_from_utf8 text ++ tail)
            = Connected (WebSocketConnection false true now)
                (Object_get_or_null clientHeaders
                   (js "sec-websocket-protocol"))).
  { intros text lines o Hw Hsplit Hparse Hu Hc Ha.
    unfold onServerHandshake.
    rewrite (proj2 (utf8_round_trip_app (List.length text) tail text
                      (le_n _) Hw)).
    rewrite Hsplit.
    change (match_statusLine status) with (Some (1, 1, 101)). cbv iota beta.
    change (negb ((1 >? 1) || (1 =? 1) && (1 >=? 1))) with false.
    change (negb (101 =? STATUS_CODE_UPGRADED)) with false. cbv iota.
    rewrite Hparse.
    rewrite (getHttpHeaderAsArray_lower P o (js "upgrade") (js "websocket")
               [js "websocket"] HP Hu eq_refl eq_refl).
    change (negb (Array_includes (map ascii_toLowerCase [js "websocket"])
                    (js "websocket"))) with false. cbv iota.
    rewrite (getHttpHeaderAsArray_lower P o (js "connection") (js "upgrade")
               [js "upgrade"] HP Hc eq_refl eq_refl).
    change (negb (Array_includes (map ascii_toLowerCase [js "upgrade"])
                    (js "upgrade"))) with false. cbv iota.
    unfold Object_get_or_empty. rewrite Ha. fold digest.
    rewrite String_equals_refl. reflexivity. }
  destruct protocol as [p|].
  - destruct (header_value_parts p (Hprotocol p eq_refl)) as (Hpp & Hpc & Hpw).
    set (l4 := js "sec-websocket-protocol" ++ js ": " ++ p).
    assert (Hl4 : has_unit 13 l4 = false).
    { subst l4. rewrite !has_unit_app, Hpc. reflexivity. }
    assert (Hw4 : isWellFormed l4 = true).
    { subst l4. repeat apply isWellFormed_append; try reflexivity.
      exact Hpw. }
    change (Array_join _ CRLF)
      with (status ++ CRLF ++ l1 ++ CRLF ++ l2 ++ CRLF ++ l3 ++ CRLF
              ++ l4 ++ CRLF ++ CRLF).
    eapply Hread.
    + repeat apply isWellFormed_append; try reflexivity; assumption.
    + unfold String_split. rewrite <- !app_assoc.
      rewrite (String_split_CRLF_line status) by reflexivity.
      rewrite (String_split_CRLF_line l1) by reflexivity.
      rewrite (String_split_CRLF_line l2) by reflexivity.
      rewrite (String_split_CRLF_line l3) by exact Hl3.
      rewrite (String_split_CRLF_line l4) by exact Hl4.
      change (CRLF ++ Buffer_toString_utf8 tail)
        with ([] ++ CRLF ++ Buffer_toString_utf8 tail).
      rewrite (String_split_CRLF_line []) by reflexivity.
      reflexivity.
    + cbn [app].
      rewrite (parse_responseHeaders_line P (js "upgrade") (js "websocket"))
        by (try exact HP; reflexivity).
      rewrite (parse_responseHeaders_line P (js "connection") (js "upgrade"))
        by (try exact HP; reflexivity).
      rewrite (parse_responseHeaders_line P (js "sec-websocket-accept")
                 digest)
        by (try exact HP; try exact Hdp; reflexivity).
      rewrite (parse_responseHeaders_line P (js "sec-websocket-protocol") p)
        by (try exact HP; try exact Hpp; reflexivity).
      apply parse_responseHeaders_blank.
    + reflexivity.
    + reflexivity.
    + reflexivity.
  - change (Array_join _ CRLF)
      with (status ++ CRLF ++ l1 ++ CRLF ++ l2 ++ CRLF ++ l3 ++ CRLF ++ CRLF).
    eapply Hread.
    + repeat apply isWellFormed_append; try reflexivity; assumption.
    + unfold String_split. rewrite <- !app_assoc.
      rewrite (String_split_CRLF_line status) by reflexivity.
      rewrite (String_split_CRLF_line l1) by reflexivity.
      rewrite (String_split_CRLF_line l2) by reflexivity.
      rewrite (String_split_CRLF_line l3) by exact Hl3.
      change (CRLF ++ Buffer_toString_utf8 tail)
        with ([] ++ CRLF ++ Buffer_toString_utf8 tail).
      rewrite (String_split_CRLF_line []) by reflexivity.
      reflexivity.
    + cbn [app].
      rewrite (parse_responseHeaders_line P (js "upgrade") (js "websocket"))
        by (try exact HP; reflexivity).
      rewrite (parse_responseHeaders_line P (js "connection") (js "upgrade"))
        by (try exact HP; reflexivity).
      rewrite (parse_responseHeaders_line P (js "sec-websocket-accept")
                 digest)
        by (try exact HP; try exact Hdp; reflexivity).
      apply parse_responseHeaders_blank.
    + reflexivity.
    + reflexivity.
    + reflexivity.
Qed.

Lemma serverUpgradeRequest_written (P : platform) (request : request)
  (selectProtocol : list jsstring -> selection) (headers : jsobject)
  (now : Z) (written : jsstring) (c : connection)
  (protocol : option jsstring) :
  serverUpgradeRequest P request selectProtocol headers now
  = Upgraded written c protocol ->
  written
  = Array_join
      ([js "HTTP/1.1 " ++ Number_toString STATUS_CODE_UPGRADED
          ++ js " Switching Protocols"]
         ++ serializeHttpHeaders
              (upgrade_responseHeaders P headers
                 (Object_get_or_empty (request_headers request)
                    (js "sec-websocket-key"))
                 protocol)
         ++ [CRLF])
      CRLF
  /\ c = WebSocketConnection true false now
  /\ selectProtocol
       (getHttpHeaderAsArray P (request_headers request)
          (js "sec-websocket-protocol") false)
     = Selected protocol.
Proof.
  unfold serverUpgradeRequest. intros H.
  repeat match type of H with
         | (if ?b then _ else _) = _ => destruct b; [discriminate|]
         end.
  destruct (selectProtocol _) as [error|protocol']; [discriminate|].
  inversion H. subst. auto.
Qed.

(** X18. The client of this library accepts the response of its server.
    The text that [serverUpgradeRequest] writes when its host adds no
    header, encoded as UTF-8 and received in one chunk, alone or followed
    by other bytes, passes every check of [onServerHandshake], when the
    digest and the selected protocol are header values and the platform
    lower-cases ASCII text letter by letter. The client calls back with a
    new connection of the client role, whatever follows the blank line in
    the chunk, and with the [sec-websocket-protocol] of its own [headers]
    option as the protocol, whatever protocol the server selected. *)
Theorem server_response_is_accepted :
  forall (P : platform) (request : request)
         (selectProtocol : list jsstring -> selection) (now : Z)
         (written : jsstring) (c : connection) (protocol : option jsstring)
         (clientHeaders : jsobject) (secWebSocketKey : jsstring)
         (now' : Z) (tail : Buffer),
    lowercases_ascii P ->
    serverUpgradeRequest P request selectProtocol [] now
    = Upgraded written c protocol ->
    Object_get_or_empty (request_headers request) (js "sec-websocket-key")
    = secWebSocketKey ->
    header_value
      (createSHA1HashBase64 P (secWebSocketKey ++ WEB_SOCKET_GUID)) = true ->
    (forall p, protocol = Some p -> header_value p = true) ->
    onServerHandshake P clientHeaders secWebSocketKey now'
      (Buffer_from_utf8 written ++ tail)
    = Connected (WebSocketConnection false true now')
        (Object_get_or_null clientHeaders (js "sec-websocket-protocol")).
Proof.
  intros P request selectProtocol now written c protocol clientHeaders
    secWebSocketKey now' tail HP Hserver Hkey Hdigest Hprotocol.
  apply serverUpgradeRequest_written in Hserver as (-> & _ & _).
  rewrite Hkey. apply upgrade_response_read; assumption.
Qed.

Lemma server_response_is_accepted_witness :
  onServerHandshake example_platform
    [(js "Sec-WebSocket-Protocol", js "chat")]
    (js "dGhlIHNhbXBsZSBub25jZQ==") 7
    (Buffer_from_utf8
       (js "HTTP/1.1 101 Switching Protocols" ++ CRLF
          ++ js "upgrade: websocket" ++ CRLF
          ++ js "connection: upgrade" ++ CRLF
          ++ js "sec-websocket-accept: s3pPLMBiTxaQ9kYGzzhZRbK+xOo=" ++ CRLF
          ++ js "sec-websocket-protocol: superchat" ++ CRLF ++ CRLF)
       ++ [129; 2; 104; 105])
  = Connected (WebSocketConnection false true 7) None.
Proof.
  apply (server_response_is_accepted example_platform
           {| method := js "GET";
              httpVersionMajor := 1;
              httpVersionMinor := 1;
              request_headers :=
                client_requestHeaders example_platform [] (js "example.com")
                  (js "dGhlIHNhbXBsZSBub25jZQ==")
                  [js "chat"; js "superchat"] |}
           (fun protocols => Selected (nth_error protocols 1)) 0
           (js "HTTP/1.1 101 Switching Protocols" ++ CRLF
              ++ js "upgrade: websocket" ++ CRLF
              ++ js "connection: upgrade" ++ CRLF
              ++ js "sec-websocket-accept: s3pPLMBiTxaQ9kYGzzhZRbK+xOo="
              ++ CRLF
              ++ js "sec-websocket-protocol: superchat" ++ CRLF ++ CRLF)
           (WebSocketConnection true false 0) (Some (js "superchat"))
           [(js "Sec-WebSocket-Protocol", js "chat")]
           (js "dGhlIHNhbXBsZSBub25jZQ==") 7 [129; 2; 104; 105]).
  - intros s _. reflexivity.
  - reflexivity.
  - reflexivity.
  - reflexivity.
  - intros p E. inversion E. reflexivity.
Defined.
